(** * wait-for-messages: cursor, catch-up scan, live listener, responder

    A shallow embedding of [waitForMessagesHandler] (the tool behind
    [wait-for-messages]) and of the module state it reads and writes.

    Conventions of the embedding.
    - A JavaScript string is a [string]; every [ascii] stands for one
      code unit in the range 0..255.
    - A JavaScript number that carries a timestamp or a duration is a [Z]
      (integral milliseconds, taken in the range where JavaScript numbers
      are exact integers).  [NaN] only arises from [parseInt] and is the
      [None] of [option Z].
    - [string | undefined] and [string | null] are [option string].
    - A value of an event's content that the code converts with [String]
      is a [JS.value]: the conversion can throw.
    - The module variables [lastSeenEventId] and [lastSeenTimestamp] are
      threaded explicitly as a record.
    - The promise of the live phase is a state machine over the
      occurrences of the event loop (a timeline notification, the expiry
      of the debounce timer, the expiry of the timeout timer), each tagged
      with the time at which it is dispatched. *)

From Stdlib Require Import ZArith List String Ascii Bool Lia.
From Stdlib Require Import Permutation Sorted DecimalString.
From Stdlib Require DecimalPos.
Import ListNotations.
Open Scope string_scope.
Open Scope Z_scope.

(** ** JavaScript primitives used by the handler *)

Module JS.

(** Truthiness of a string: only the empty string is falsy. *)
Definition truthy_string (s : string) : bool :=
  match s with
  | EmptyString => false
  | String _ _ => true
  end.

(** Truthiness of [string | undefined]. *)
Definition truthy (o : option string) : bool :=
  match o with
  | Some s => truthy_string s
  | None => false
  end.

(** [a || b] on strings. *)
Definition or_string (a b : string) : string :=
  if truthy_string a then a else b.

(** [a || b] where [a : string | undefined]. *)
Definition or_else (a : option string) (b : string) : string :=
  match a with
  | Some s => or_string s b
  | None => b
  end.

(** A value read from the content of an event (typed [any]), as far as
    truthiness and [String] tell values apart. *)
Inductive value :=
| Falsy                      (* [undefined], [null], [false], [0], [NaN] or [""] *)
| Printable (text : string)  (* a truthy value that [String] renders as [text] *)
| Unprintable.               (* a truthy object that [String] cannot convert,
                                such as [{"toString": 1}]: [TypeError] *)

(** [String(v || "")]; [None] when the conversion throws. *)
Definition string_or_empty (v : value) : option string :=
  match v with
  | Falsy => Some ""
  | Printable text => Some text
  | Unprintable => None
  end.

(** [String(v || d)]; [None] when the conversion throws. *)
Definition string_or_default (v : value) (d : string) : option string :=
  match v with
  | Falsy => Some d
  | Printable text => Some text
  | Unprintable => None
  end.

(** [a === b] on [string | undefined]. *)
Definition strict_eq (a b : option string) : bool :=
  match a, b with
  | Some x, Some y => String.eqb x y
  | None, None => true
  | _, _ => false
  end.

(** [a === b] where [a : string | undefined] and [b : string | null]:
    [undefined === null] is false. *)
Definition strict_eq_undef_null (a b : option string) : bool :=
  match a, b with
  | Some x, Some y => String.eqb x y
  | _, _ => false
  end.

(** [s.split(sep)] for a one-character separator: the fields between the
    occurrences of [sep], in order; there is always at least one field. *)
Fixpoint split (sep : ascii) (s : string) : list string :=
  match s with
  | EmptyString => [EmptyString]
  | String c rest =>
      if Ascii.eqb c sep then EmptyString :: split sep rest
      else match split sep rest with
           | [] => [String c EmptyString]
           | f :: fs => String c f :: fs
           end
  end.

(** White space and line terminators skipped by [parseInt]
    (TAB, LF, VT, FF, CR, SP, NBSP). *)
Definition is_space (c : ascii) : bool :=
  let n := nat_of_ascii c in
  (Nat.eqb n 9 || Nat.eqb n 10 || Nat.eqb n 11 || Nat.eqb n 12
   || Nat.eqb n 13 || Nat.eqb n 32 || Nat.eqb n 160)%bool.

Fixpoint trim_start (s : string) : string :=
  match s with
  | String c rest => if is_space c then trim_start rest else s
  | EmptyString => EmptyString
  end.

Definition digit_value (c : ascii) : option Z :=
  let n := nat_of_ascii c in
  if (Nat.leb 48 n && Nat.leb n 57)%bool then Some (Z.of_nat n - 48)
  else None.

(** Longest prefix of decimal digits, accumulated left to right;
    [seen] records whether a digit has been read. *)
Fixpoint read_digits (s : string) (acc : Z) (seen : bool) : option Z :=
  match s with
  | String c rest =>
      match digit_value c with
      | Some d => read_digits rest (10 * acc + d) true
      | None => if seen then Some acc else None
      end
  | EmptyString => if seen then Some acc else None
  end.

(** [parseInt(s, 10)]; [None] is [NaN].  The digits are read exactly;
    the code holds the result in a double, which agrees with this value
    up to [2^53] and is its rounding beyond. *)
Definition parseInt (s : string) : option Z :=
  match trim_start s with
  | String "-" rest => option_map Z.opp (read_digits rest 0 false)
  | String "+" rest => read_digits rest 0 false
  | t => read_digits t 0 false
  end.

(** [n || 0] on a number that may be [NaN]. *)
Definition or_zero (n : option Z) : Z :=
  match n with
  | Some z => z
  | None => 0
  end.

(** Truthiness of a number. *)
Definition truthy_num (z : Z) : bool := negb (z =? 0).

(** Template-literal rendering of an integral number. *)
Definition number_to_string (z : Z) : string :=
  NilZero.string_of_int (Z.to_int z).

(** [n] decimal digits of [z], zero padded on the left. *)
Fixpoint pad (n : nat) (z : Z) : string :=
  match n with
  | O => EmptyString
  | S k => pad k (z / 10) ++ String (ascii_of_nat (48 + Z.to_nat (z mod 10))) EmptyString
  end.

(** The delay [setTimeout] arms a timer with: a delay below 1 or above
    [2^31 - 1] is replaced by 1. *)
Definition TIMEOUT_MAX : Z := 2147483647.
Definition timerDelay (ms : Z) : Z :=
  if (1 <=? ms) && (ms <=? TIMEOUT_MAX) then ms else 1.

Definition msPerDay : Z := 86400000.
Definition maxTimeValue : Z := 8640000000000000.

(** A number is a valid time value of [Date] when it is within
    100,000,000 days of the epoch. *)
Definition valid_time (t : Z) : bool :=
  (- maxTimeValue <=? t) && (t <=? maxTimeValue).

(** Proleptic Gregorian date of a day number counted from 1970-01-01. *)
Definition civil_from_days (days : Z) : Z * Z * Z :=
  let z := days + 719468 in
  let era := z / 146097 in
  let doe := z mod 146097 in
  let yoe := (doe - doe / 1460 + doe / 36524 - doe / 146096) / 365 in
  let doy := doe - (365 * yoe + yoe / 4 - yoe / 100) in
  let mp := (5 * doy + 2) / 153 in
  let d := doy - (153 * mp + 2) / 5 + 1 in
  let m := if mp <? 10 then mp + 3 else mp - 9 in
  let y := yoe + era * 400 + (if m <=? 2 then 1 else 0) in
  (y, m, d).

Definition render_year (y : Z) : string :=
  if (0 <=? y) && (y <=? 9999) then pad 4 y
  else if y <? 0 then "-" ++ pad 6 (- y)
  else "+" ++ pad 6 y.

(** [new Date(t).toISOString()]; [None] is the [RangeError] thrown for
    an invalid date. *)
Definition toISOString (t : Z) : option string :=
  if valid_time t then
    let '(y, m, d) := civil_from_days (t / msPerDay) in
    let ms := t mod msPerDay in
    Some (render_year y ++ "-" ++ pad 2 m ++ "-" ++ pad 2 d ++ "T"
          ++ pad 2 (ms / 3600000) ++ ":" ++ pad 2 ((ms / 60000) mod 60) ++ ":"
          ++ pad 2 ((ms / 1000) mod 60) ++ "." ++ pad 3 (ms mod 1000) ++ "Z")
  else None.

End JS.

(** ** Data model *)

(** [EventType.RoomMessage] *)
Definition RoomMessage : string := "m.room.message".

(** The part of a [MatrixEvent] that the handler reads through
    [getType], [getSender], [getRoomId], [getTs], [getId] and
    [getContent()?.body]. *)
Record MatrixEvent := mkEvent {
  getType : string;
  getSender : option string;
  getRoomId : option string;
  getTs : Z;
  getId : option string;
  getBody : JS.value
}.

(** A room of the session with its buffered live timeline. *)
Record Room := mkRoom {
  room_id : string;
  room_name : string;
  getLiveTimelineEvents : list MatrixEvent
}.

(** The session handle returned by [createConfiguredMatrixClient]. *)
Record MatrixClient := mkClient {
  getUserId : option string;
  getRooms : list Room
}.

(** [client.getRoom(id)]: the room stored under [id], or [null]. *)
Definition getRoom (client : MatrixClient) (id : string) : option Room :=
  find (fun r => String.eqb (room_id r) id) (getRooms client).

Record CollectedMessage := mkCollected {
  roomId : string;
  roomName : string;
  sender : string;
  body : string;
  eventId : string;
  timestamp : Z
}.

(** The module-level cursor [lastSeenEventId], [lastSeenTimestamp]. *)
Record Cursor := mkCursor {
  lastSeenEventId : option string;
  lastSeenTimestamp : Z
}.

Definition initialCursor : Cursor := mkCursor None 0.

Definition updateInternalCursor (eventId : string) (timestamp : Z) (g : Cursor) : Cursor :=
  if (timestamp >? lastSeenTimestamp g)
     || ((timestamp =? lastSeenTimestamp g)
         && negb (JS.strict_eq (Some eventId) (lastSeenEventId g)))
  then mkCursor (Some eventId) timestamp
  else g.

(** ** Continuation token *)

(** The token [`${eventId}|${timestamp}`]. *)
Definition encodeToken (eventId : string) (timestamp : Z) : string :=
  eventId ++ "|" ++ JS.number_to_string timestamp.

(** The pair [(sinceTimestamp, sinceEventId)] computed at the start of
    the handler from the [since] argument and the module cursor. *)
Definition parseSince (since : option string) (g : Cursor) : Z * option string :=
  match since with
  | Some s =>
      if JS.truthy_string s then
        match JS.split "|" s with
        | [p0; p1] => (JS.or_zero (JS.parseInt p1), Some p0)
        | _ => (0, None)
        end
      else if JS.truthy_num (lastSeenTimestamp g)
           then (lastSeenTimestamp g, lastSeenEventId g)
           else (0, None)
  | None =>
      if JS.truthy_num (lastSeenTimestamp g)
      then (lastSeenTimestamp g, lastSeenEventId g)
      else (0, None)
  end.

(** ** Catch-up scan *)

(** A loop that pushes [collect event] for each event in turn and is
    left by the first throw ([None]). *)
Fixpoint collectEach (collect : MatrixEvent -> option CollectedMessage)
    (events : list MatrixEvent) : option (list CollectedMessage) :=
  match events with
  | [] => Some []
  | event :: rest =>
      match collect event with
      | None => None
      | Some m =>
          match collectEach collect rest with
          | None => None
          | Some ms => Some (m :: ms)
          end
      end
  end.

Section Scan.

Variable ownUserId : option string.
Variable sinceTimestamp : Z.
Variable sinceEventId : option string.

(** The cursor test of the scan (the last two [continue] tests): the
    event is skipped when it is older than the cursor or is the event of
    the cursor. *)
Definition scanEligible (ts : Z) (eid : option string) : bool :=
  if ts <? sinceTimestamp then false
  else if (ts =? sinceTimestamp) && JS.strict_eq eid sinceEventId then false
  else true.

(** The four [continue] tests of the inner loop: the event is pushed
    when none of them fires. *)
Definition scanKeeps (event : MatrixEvent) : bool :=
  if negb (String.eqb (getType event) RoomMessage) then false
  else if JS.strict_eq_undef_null (getSender event) ownUserId then false
  else scanEligible (getTs event) (getId event).

(** The object pushed for an event of [room]; [None] when building it
    throws, which only the conversion of the body can do. *)
Definition scanCollect (room : Room) (event : MatrixEvent) : option CollectedMessage :=
  match JS.string_or_empty (getBody event) with
  | None => None
  | Some text =>
      Some {| roomId := JS.or_else (getRoomId event) "";
              roomName := JS.or_string (room_name room) (JS.or_else (getRoomId event) "");
              sender := JS.or_else (getSender event) "";
              body := text;
              eventId := JS.or_else (getId event) "";
              timestamp := getTs event |}
  end.

(** The inner loop over the events of [room]: the objects pushed, or
    [None] when one of them throws. *)
Definition scanRoom (room : Room) : option (list CollectedMessage) :=
  collectEach (scanCollect room) (filter scanKeeps (getLiveTimelineEvents room)).

(** The outer loop over the rooms. *)
Fixpoint scanRooms (rooms : list Room) : option (list CollectedMessage) :=
  match rooms with
  | [] => Some []
  | room :: rest =>
      match scanRoom room with
      | None => None
      | Some found =>
          match scanRooms rest with
          | None => None
          | Some more => Some (found ++ more)%list
          end
      end
  end.

End Scan.

(** [roomId ? [client.getRoom(roomId)].filter(Boolean) : client.getRooms()] *)
Definition roomsToScan (client : MatrixClient) (room : option string) : list Room :=
  match room with
  | Some id =>
      if JS.truthy_string id then
        match getRoom client id with
        | Some r => [r]
        | None => []
        end
      else getRooms client
  | None => getRooms client
  end.

(** [collected.sort((a, b) => a.timestamp - b.timestamp)]: the sort is
    stable, so the result is the one of insertion from the right. *)
Fixpoint insertByTimestamp (m : CollectedMessage) (l : list CollectedMessage)
  : list CollectedMessage :=
  match l with
  | [] => [m]
  | x :: rest =>
      if timestamp m <=? timestamp x then m :: l
      else x :: insertByTimestamp m rest
  end.

Fixpoint sortByTimestamp (l : list CollectedMessage) : list CollectedMessage :=
  match l with
  | [] => []
  | m :: rest => insertByTimestamp m (sortByTimestamp rest)
  end.

(** [l[l.length - 1]] *)
Fixpoint lastOf {A : Type} (l : list A) : option A :=
  match l with
  | [] => None
  | [m] => Some m
  | _ :: rest => lastOf rest
  end.

(** ** Live listener *)

Definition DEFAULT_TIMEOUT_MS : Z := 30000.
Definition DEBOUNCE_MS : Z := 500.

(** The state shared by the closures of the promise executor.  A timer
    field holds the expiry time of a pending timer and [None] when the
    timer has run or has been cleared; [subscribed] tells whether
    [onEvent] is registered for [RoomEvent.Timeline]; [resolved] is the
    value the promise was resolved with. *)
Record Listener := mkListener {
  collected : list CollectedMessage;
  debounceTimer : option Z;
  timeoutHandle : option Z;
  subscribed : bool;
  resolved : option (list CollectedMessage * bool)
}.

(** What the event loop can dispatch to the closures of one call. *)
Inductive occurrence :=
| Timeline (event : MatrixEvent)
| DebounceExpiry
| TimeoutExpiry.

(** [resolve(v)]: only the first resolution of a promise counts. *)
Definition resolve (v : list CollectedMessage * bool) (l : Listener) : Listener :=
  match resolved l with
  | Some _ => l
  | None => mkListener (collected l) (debounceTimer l) (timeoutHandle l)
                       (subscribed l) (Some v)
  end.

Definition cleanup (l : Listener) : Listener :=
  mkListener (collected l) None None false (resolved l).

Section Live.

Variable client : MatrixClient.
Variable roomIdArg : option string.
Variable sinceTimestamp : Z.
Variable sinceEventId : option string.

(** The cursor test of [onEvent] (its last two [return] tests), guarded
    by the truthiness of [sinceTimestamp]. *)
Definition liveEligible (ts : Z) (eid : option string) : bool :=
  if JS.truthy_num sinceTimestamp && (ts <? sinceTimestamp) then false
  else if JS.truthy_num sinceTimestamp && (ts =? sinceTimestamp)
          && JS.strict_eq eid sinceEventId then false
  else true.

(** The five [return] tests of [onEvent]. *)
Definition liveKeeps (event : MatrixEvent) : bool :=
  if negb (String.eqb (getType event) RoomMessage) then false
  else if JS.strict_eq_undef_null (getSender event) (getUserId client) then false
  else if JS.truthy roomIdArg && negb (JS.strict_eq (getRoomId event) roomIdArg) then false
  else liveEligible (getTs event) (getId event).

(** The object [onEvent] pushes; [None] when building it throws, which
    only the conversion of the body can do. *)
Definition liveCollect (event : MatrixEvent) : option CollectedMessage :=
  let evtRoomId := getRoomId event in
  let room := match evtRoomId with
              | Some id => if JS.truthy_string id then getRoom client id else None
              | None => None
              end in
  match JS.string_or_empty (getBody event) with
  | None => None
  | Some text =>
      Some {| roomId := JS.or_else evtRoomId "";
              roomName := JS.or_string (match room with Some r => room_name r | None => "" end)
                                       (JS.or_else evtRoomId "");
              sender := JS.or_else (getSender event) "";
              body := text;
              eventId := JS.or_else (getId event) "";
              timestamp := getTs event |}
  end.

(** [onEvent], called at time [now].  When the object to push cannot be
    built the callback is left by the exception before [push] and before
    the debounce timer is touched: the state of the call is as it was
    (the exception goes to the emitter, outside this call). *)
Definition onEvent (now : Z) (event : MatrixEvent) (l : Listener) : Listener :=
  if liveKeeps event then
    match liveCollect event with
    | Some m =>
        mkListener (collected l ++ [m])
                   (Some (now + JS.timerDelay DEBOUNCE_MS))
                   (timeoutHandle l) (subscribed l) (resolved l)
    | None => l
    end
  else l.

(** The callback of the debounce timer. *)
Definition onDebounce (l : Listener) : Listener :=
  let l' := cleanup l in resolve (collected l', false) l'.

(** The callback of the timeout timer. *)
Definition onTimeout (l : Listener) : Listener :=
  let l' := cleanup l in resolve (collected l', true) l'.

(** One turn of the event loop at time [now].  A notification reaches
    [onEvent] only while it is registered; a timer callback runs only
    when its timer is pending and due.  An occurrence that cannot be
    dispatched leaves the state as it is. *)
Definition dispatch (now : Z) (o : occurrence) (l : Listener) : Listener :=
  match o with
  | Timeline event => if subscribed l then onEvent now event l else l
  | DebounceExpiry =>
      match debounceTimer l with
      | Some due => if due <=? now then onDebounce l else l
      | None => l
      end
  | TimeoutExpiry =>
      match timeoutHandle l with
      | Some due => if due <=? now then onTimeout l else l
      | None => l
      end
  end.

(** The state left by the promise executor, run at time 0. *)
Definition startListener (pending : list CollectedMessage) (timeout : Z) : Listener :=
  mkListener pending None (Some (JS.timerDelay timeout)) true None.

(** A schedule lists the occurrences in dispatch order, each with the
    time elapsed since the previous one. *)
Fixpoint runLoop (clock : Z) (schedule : list (N * occurrence)) (l : Listener) : Listener :=
  match schedule with
  | [] => l
  | (dt, o) :: rest =>
      let now := clock + Z.of_N dt in
      runLoop now rest (dispatch now o l)
  end.

End Live.

(** ** Responder *)

Module Wire.

(** An element of the [messages] array of the response. *)
Record message := mkMessage {
  room : string;
  roomId : string;
  sender : string;
  body : string;
  eventId : string;
  timestamp : string
}.

End Wire.

(** The JSON object of a successful response; [since = None] when the
    field is absent. *)
Record Response := mkResponse {
  status : string;
  messageCount : Z;
  messages : list Wire.message;
  since : option string
}.

Inductive Outcome :=
| Returned (r : Response)   (* the handler returned a result *)
| Failed                    (* the [catch] block returned [isError: true] *)
| Pending.                  (* the promise has not been resolved yet *)

(** [ms.map(m => ({..., timestamp: new Date(m.timestamp).toISOString()}))];
    [None] when a date cannot be rendered and the map throws. *)
Fixpoint renderMessages (ms : list CollectedMessage) : option (list Wire.message) :=
  match ms with
  | [] => Some []
  | m :: rest =>
      match JS.toISOString (timestamp m) with
      | None => None
      | Some iso =>
          match renderMessages rest with
          | None => None
          | Some out =>
              Some (Wire.mkMessage (roomName m) (roomId m) (sender m) (body m)
                                   (eventId m) iso :: out)
          end
      end
  end.

(** The [messages_received] result for a batch whose last element is
    [last], together with the update of the module cursor. *)
Definition deliver (ms : list CollectedMessage) (g : Cursor) : Outcome * Cursor :=
  match lastOf ms with
  | None => (Failed, g)
  | Some last =>
      let g' := updateInternalCursor (eventId last) (timestamp last) g in
      let nextSince := encodeToken (eventId last) (timestamp last) in
      match renderMessages ms with
      | None => (Failed, g')
      | Some out =>
          (Returned (mkResponse "messages_received" (Z.of_nat (List.length ms)) out
                                (Some nextSince)), g')
      end
  end.

(** The result returned when [result.messages] is empty. *)
Definition emptyResult (timedOut : bool) (sinceArg : option string) : Response :=
  let nextSince := if JS.truthy sinceArg then sinceArg else None in
  mkResponse (if timedOut then "timeout" else "no_messages") 0 []
             (if JS.truthy nextSince then nextSince else None).

(** ** The handler *)

(** The catch-up block, entered only when [sinceTimestamp] is truthy:
    the array [collected] after the loops, or [None] when the scan
    throws. *)
Definition catchUp (client : MatrixClient) (roomIdArg : option string)
    (sinceTimestamp : Z) (sinceEventId : option string)
  : option (list CollectedMessage) :=
  if JS.truthy_num sinceTimestamp
  then scanRooms (getUserId client) sinceTimestamp sinceEventId
                 (roomsToScan client roomIdArg)
  else Some [].

(** What the handler has in hand when it builds its result. *)
Inductive Gathered :=
| CaughtUp (batch : list CollectedMessage)                  (* sorted catch-up array *)
| Settled (batch : list CollectedMessage) (timedOut : bool) (* value of the promise *)
| Unsettled                                                 (* promise not resolved *)
| ScanThrew.                                                (* the scan was left by a throw *)

(** Catch-up scan, then, when it found nothing, the live listener driven
    by [schedule] (what the event loop dispatches to the call once the
    promise has been created, at time 0). *)
Definition awaited (l : Listener) : Gathered :=
  match resolved l with
  | Some (result_messages, timedOut) => Settled result_messages timedOut
  | None => Unsettled
  end.

Definition gather (client : MatrixClient) (roomIdArg : option string)
    (timeout sinceTimestamp : Z) (sinceEventId : option string)
    (schedule : list (N * occurrence)) : Gathered :=
  match catchUp client roomIdArg sinceTimestamp sinceEventId with
  | None => ScanThrew
  | Some ((_ :: _) as caught) => CaughtUp (sortByTimestamp caught)
  | Some ([] as caught) =>
      awaited (runLoop client roomIdArg sinceTimestamp sinceEventId 0 schedule
                       (startListener caught timeout))
  end.

Definition respond (got : Gathered) (sinceArg : option string) (g : Cursor)
  : Outcome * Cursor :=
  match got with
  | CaughtUp batch => deliver batch g
  | Settled ((_ :: _) as batch) _ => deliver batch g
  | Settled [] timedOut => (Returned (emptyResult timedOut sinceArg), g)
  | Unsettled => (Pending, g)
  | ScanThrew => (Failed, g)
  end.

(** [gather] at the arguments of a call: the timeout is clamped and the
    cursor is the one [parseSince] yields. *)
Definition gathered (g : Cursor) (client : MatrixClient)
    (roomIdArg : option string) (timeoutMs : Z) (sinceArg : option string)
    (schedule : list (N * occurrence)) : Gathered :=
  let timeout := Z.max timeoutMs 1000 in
  let sinceTimestamp := fst (parseSince sinceArg g) in
  let sinceEventId := snd (parseSince sinceArg g) in
  gather client roomIdArg timeout sinceTimestamp sinceEventId schedule.

(** [session] is the result of [createConfiguredMatrixClient] ([None]
    when it throws).  The second component is the module cursor after
    the call. *)
Definition waitForMessagesHandler
    (g : Cursor) (session : option MatrixClient)
    (roomIdArg : option string) (timeoutMs : Z) (sinceArg : option string)
    (schedule : list (N * occurrence)) : Outcome * Cursor :=
  match session with
  | None => (Failed, g)
  | Some client =>
      respond (gathered g client roomIdArg timeoutMs sinceArg schedule) sinceArg g
  end.

(** ** Notions used in the statements *)

(** The array the [messages] of a result are rendered from. *)
Definition batchOf (got : Gathered) : list CollectedMessage :=
  match got with
  | CaughtUp batch => batch
  | Settled batch _ => batch
  | Unsettled => []
  | ScanThrew => []
  end.

Definition isCaughtUp (got : Gathered) : bool :=
  match got with
  | CaughtUp _ => true
  | _ => false
  end.

(** The order of cursors as the specification words it: by timestamp,
    ties broken by event id (compared as strings). *)
Definition cursorLeb (a b : CollectedMessage) : bool :=
  (timestamp a <? timestamp b)
  || ((timestamp a =? timestamp b) && String.leb (eventId a) (eventId b)).

(** [m] is a greatest element of [batch] in that order. *)
Definition isMaximumOf (m : CollectedMessage) (batch : list CollectedMessage) : Prop :=
  In m batch /\ forallb (fun x => cursorLeb x m) batch = true.

Definition byTimestamp (a b : CollectedMessage) : Prop := timestamp a <= timestamp b.
Definition byTimestampStrict (a b : CollectedMessage) : Prop := timestamp a < timestamp b.

(** The condition on a pair (event, cursor) that the specification calls
    eligibility. *)
Definition eligible (eid : option string) (ts : Z) (cid : option string) (cts : Z) : Prop :=
  ts > cts \/ (ts = cts /\ eid <> cid).

(** The event was sent by the user of the session. *)
Definition selfAuthored (client : MatrixClient) (event : MatrixEvent) : bool :=
  JS.strict_eq_undef_null (getSender event) (getUserId client).

(** The events a call can see: the buffered timelines of the session and
    the timeline notifications of the schedule. *)
Definition notified (schedule : list (N * occurrence)) : list MatrixEvent :=
  flat_map (fun p => match snd p with Timeline e => [e] | _ => [] end) schedule.

Definition seenEvents (client : MatrixClient) (schedule : list (N * occurrence))
  : list MatrixEvent :=
  flat_map getLiveTimelineEvents (getRooms client) ++ notified schedule.

(** [m] is the object collected for [event] (the room name apart). *)
Definition collectedFrom (event : MatrixEvent) (m : CollectedMessage) : Prop :=
  roomId m = JS.or_else (getRoomId event) ""
  /\ sender m = JS.or_else (getSender event) ""
  /\ JS.string_or_empty (getBody event) = Some (body m)
  /\ eventId m = JS.or_else (getId event) ""
  /\ timestamp m = getTs event.

(** [w] is the element of [messages] rendered for [m]. *)
Definition renderedFrom (m : CollectedMessage) (w : Wire.message) : Prop :=
  Wire.room w = roomName m
  /\ Wire.roomId w = roomId m
  /\ Wire.sender w = sender m
  /\ Wire.body w = body m
  /\ Wire.eventId w = eventId m
  /\ JS.toISOString (timestamp m) = Some (Wire.timestamp w).

(** A token from which the handler reads no number: it does not have
    exactly two fields, or [parseInt] returns [NaN] on the second one. *)
Definition readsNoNumber (s : string) : Prop :=
  match JS.split "|" s with
  | [_; p1] => JS.parseInt p1 = None
  | _ => True
  end.

(** The malformed tokens as the specification words them, not as the
    code reads them: a token of the wrong shape (not exactly two
    ["|"]-separated fields), or one whose timestamp field is not numeric.
    A field is numeric when it is a decimal integer numeral, one or more
    digits after an optional minus sign, which is all a token built by
    the server ever carries. *)
Fixpoint digitsOnly (s : string) : bool :=
  match s with
  | EmptyString => true
  | String c rest =>
      match JS.digit_value c with
      | Some _ => digitsOnly rest
      | None => false
      end
  end.

Definition numeral (s : string) : bool :=
  match s with
  | EmptyString => false
  | _ => digitsOnly s
  end.

Definition numericField (s : string) : bool :=
  match s with
  | String "-" rest => numeral rest
  | _ => numeral s
  end.

Definition malformedAsSpecified (s : string) : Prop :=
  match JS.split "|" s with
  | [_; p1] => numericField p1 = false
  | _ => True
  end.

(** The session with the buffered timeline of every room replaced. *)
Definition withTimelines (tl : Room -> list MatrixEvent) (client : MatrixClient)
  : MatrixClient :=
  mkClient (getUserId client)
           (map (fun r => mkRoom (room_id r) (room_name r) (tl r)) (getRooms client)).

(** The listener states a call goes through: the state left by the
    executor followed by a run of the event loop. *)
Definition listenerAfter (client : MatrixClient) (roomIdArg : option string)
    (sinceTimestamp : Z) (sinceEventId : option string) (timeout : Z)
    (schedule : list (N * occurrence)) : Listener :=
  runLoop client roomIdArg sinceTimestamp sinceEventId 0 schedule
          (startListener [] timeout).

(** The time at which the last occurrence of a schedule is dispatched,
    for a loop started at [clock]. *)
Fixpoint elapsed (clock : Z) (schedule : list (N * occurrence)) : Z :=
  match schedule with
  | [] => clock
  | (dt, _) :: rest => elapsed (clock + Z.of_N dt) rest
  end.

(** Nothing registered by the call is left: [onEvent] is unsubscribed
    and no timer is pending. *)
Definition released (l : Listener) : Prop :=
  subscribed l = false /\ debounceTimer l = None /\ timeoutHandle l = None.

(** The invariant of the listener of a call with timeout [timeout].
    Before the promise is resolved the listener is subscribed, the timeout
    timer is pending, and the debounce timer is pending only if a message
    has been collected.  Afterwards everything is released, the value of
    the promise is the collected array, and it is empty only on timeout. *)
Definition listenerInv (timeout : Z) (l : Listener) : Prop :=
  match resolved l with
  | None =>
      subscribed l = true
      /\ timeoutHandle l = Some (JS.timerDelay timeout)
      /\ (debounceTimer l <> None -> collected l <> [])
  | Some (ms, timedOut) =>
      released l /\ ms = collected l /\ (timedOut = false -> ms <> [])
  end.

(** [ms] are the objects collected for events of [pool] that were not
    sent by the user of the session, in order. *)
Definition pulledFrom (client : MatrixClient) (pool : list MatrixEvent)
    (ms : list CollectedMessage) : Prop :=
  exists events,
    Forall (fun e => In e pool /\ selfAuthored client e = false) events
    /\ Forall2 collectedFrom events ms.

(** ** Sample data for the concrete runs below *)

Definition message (from room id : string) (ts : Z) : MatrixEvent :=
  mkEvent RoomMessage (Some from) (Some room) ts (Some id) (JS.Printable "hi").

(** A session of ["@me:hs"] with two rooms; room ["!a"] buffers two
    messages with the same timestamp and one of the session's user. *)
Definition sampleClient : MatrixClient :=
  mkClient (Some "@me:hs")
    [ mkRoom "!a" "Room A"
        [ message "@u:hs" "!a" "$b" 5;
          message "@u:hs" "!a" "$a" 5;
          message "@me:hs" "!a" "$c" 9 ];
      mkRoom "!b" "" [ message "@v:hs" "!b" "$d" 3 ] ].

(** A session whose rooms buffer nothing. *)
Definition quietClient : MatrixClient :=
  mkClient (Some "@me:hs") [ mkRoom "!a" "Room A" []; mkRoom "!b" "" [] ].

(** Two notifications 100 ms apart, the later one carrying the older
    timestamp, then the debounce timer. *)
Definition outOfOrderSchedule : list (N * occurrence) :=
  [ (100%N, Timeline (message "@u:hs" "!a" "$e" 10));
    (100%N, Timeline (message "@v:hs" "!b" "$f" 7));
    (500%N, DebounceExpiry) ].

(** A notification 800 ms into a wait of 1000 ms, then the timeout. *)
Definition lateSchedule : list (N * occurrence) :=
  [ (800%N, Timeline (message "@u:hs" "!a" "$e" 10));
    (200%N, TimeoutExpiry) ].

(** The result of an outcome, when there is one. *)
Definition responseOf (o : Outcome * Cursor) : Response :=
  match fst o with
  | Returned r => r
  | _ => mkResponse "" 0 [] None
  end.

(** A call with the token ["$x|2"] on the sample session: the catch-up
    scan finds three messages. *)
Definition caughtUpRun : Outcome * Cursor :=
  waitForMessagesHandler initialCursor (Some sampleClient) None 1000 (Some "$x|2") [].
Definition caughtUpResponse : Response := Eval vm_compute in responseOf caughtUpRun.
Definition caughtUpCursor : Cursor := Eval vm_compute in snd caughtUpRun.

(** A first call (no token, no module cursor) that hears two messages
    out of timestamp order. *)
Definition outOfOrderRun : Outcome * Cursor :=
  waitForMessagesHandler initialCursor (Some quietClient) None 30000 None outOfOrderSchedule.
Definition outOfOrderResponse : Response := Eval vm_compute in responseOf outOfOrderRun.
Definition outOfOrderCursor : Cursor := Eval vm_compute in snd outOfOrderRun.

(** A first call of 1000 ms that hears one message after 800 ms; the
    timeout expires before the debounce timer of that message. *)
Definition lateRun : Outcome * Cursor :=
  waitForMessagesHandler initialCursor (Some quietClient) None 1000 None lateSchedule.
Definition lateResponse : Response := Eval vm_compute in responseOf lateRun.
Definition lateCursor : Cursor := Eval vm_compute in snd lateRun.

(** One notification with timestamp 10, its debounce timer, and the
    timeout of a wait of 1000 ms. *)
Definition oneMessageSchedule : list (N * occurrence) :=
  [ (100%N, Timeline (message "@u:hs" "!a" "$e" 10));
    (500%N, DebounceExpiry);
    (400%N, TimeoutExpiry) ].

(** A first call of 1000 ms that hears one message with timestamp 10 and
    is settled by its debounce timer. *)
Definition heardRun : Outcome * Cursor :=
  waitForMessagesHandler initialCursor (Some quietClient) None 1000 None oneMessageSchedule.
Definition heardResponse : Response := Eval vm_compute in responseOf heardRun.
Definition heardCursor : Cursor := Eval vm_compute in snd heardRun.

(** A wait of 1000 ms during which nothing is heard. *)
Definition silentSchedule : list (N * occurrence) := [ (1000%N, TimeoutExpiry) ].
Definition silentResponse : Response := mkResponse "timeout" 0 [] (Some "$x|2").

(** A module cursor left by an earlier delivery. *)
Definition earlierCursor : Cursor := mkCursor (Some "$x") 2.

(** A session that buffers one message whose timestamp is one
    millisecond past the last instant a [Date] can hold. *)
Definition farFutureClient : MatrixClient :=
  mkClient (Some "@me:hs")
    [ mkRoom "!a" "Room A" [ message "@u:hs" "!a" "$z" 8640000000000001 ] ].

(** A session that buffers one message whose [body] cannot be converted
    to a string, such as the object [{"toString": 1}]. *)
Definition unprintableClient : MatrixClient :=
  mkClient (Some "@me:hs")
    [ mkRoom "!a" "Room A"
        [ mkEvent RoomMessage (Some "@u:hs") (Some "!a") 5 (Some "$y") JS.Unprintable ] ].

(** ** Notions used in the further properties *)

(** [Number.isSafeInteger]: the integers a JavaScript number holds
    exactly and a template literal renders digit by digit. *)
Definition safeInteger (z : Z) : Prop :=
  - 9007199254740991 <= z <= 9007199254740991.

(** The character [c] occurs in [s]. *)
Fixpoint hasChar (c : ascii) (s : string) : bool :=
  match s with
  | EmptyString => false
  | String a rest => Ascii.eqb a c || hasChar c rest
  end.

(** The value of a decimal numeral read left to right onto [acc]. *)
Fixpoint decimalValue (d : Decimal.uint) (acc : Z) : Z :=
  match d with
  | Decimal.Nil => acc
  | Decimal.D0 l => decimalValue l (10 * acc + 0)
  | Decimal.D1 l => decimalValue l (10 * acc + 1)
  | Decimal.D2 l => decimalValue l (10 * acc + 2)
  | Decimal.D3 l => decimalValue l (10 * acc + 3)
  | Decimal.D4 l => decimalValue l (10 * acc + 4)
  | Decimal.D5 l => decimalValue l (10 * acc + 5)
  | Decimal.D6 l => decimalValue l (10 * acc + 6)
  | Decimal.D7 l => decimalValue l (10 * acc + 7)
  | Decimal.D8 l => decimalValue l (10 * acc + 8)
  | Decimal.D9 l => decimalValue l (10 * acc + 9)
  end.

(** [ms] are the objects collected, in order, for events that all
    satisfy [P]. *)
Definition sourcedFrom (P : MatrixEvent -> Prop) (ms : list CollectedMessage) : Prop :=
  exists events, Forall P events /\ Forall2 collectedFrom events ms.

(** The [body] of the event can be converted to a string. *)
Definition bodyConverts (event : MatrixEvent) : bool :=
  match JS.string_or_empty (getBody event) with
  | Some _ => true
  | None => false
  end.

(** The occurrence by which a promise is resolved with [timedOut]. *)
Definition settlingOccurrence (timedOut : bool) : occurrence :=
  if timedOut then TimeoutExpiry else DebounceExpiry.

(** The timer whose callback resolves with [timedOut]. *)
Definition settlingTimer (timedOut : bool) (l : Listener) : option Z :=
  if timedOut then timeoutHandle l else debounceTimer l.

(** The time at which the listener last kept a notification of a
    schedule started at [clock], that is, pushed its object and restarted
    the debounce timer; [found] is the answer so far. *)
Fixpoint lastAcceptedAt (client : MatrixClient) (roomIdArg : option string)
    (sinceTimestamp : Z) (sinceEventId : option string)
    (clock : Z) (schedule : list (N * occurrence)) (found : option Z) : option Z :=
  match schedule with
  | [] => found
  | (dt, o) :: rest =>
      let now := clock + Z.of_N dt in
      lastAcceptedAt client roomIdArg sinceTimestamp sinceEventId now rest
        (match o with
         | Timeline e =>
             if liveKeeps client roomIdArg sinceTimestamp sinceEventId e
             then match liveCollect client e with
                  | Some _ => Some now
                  | None => found
                  end
             else found
         | _ => found
         end)
  end.

(** ** Start-up check of the environment (entry point of the server) *)

Module Startup.

(** The names of [required]. *)
Definition required : list string :=
  ["MATRIX_USER_ID"; "MATRIX_ACCESS_TOKEN"; "MATRIX_HOMESERVER_URL"].

(** [required.filter((key) => !process.env[key])], for [process.env]
    given as a lookup. *)
Definition missing (env : string -> option string) : list string :=
  filter (fun key => negb (JS.truthy (env key))) required.

(** [l.join(sep)] *)
Fixpoint join (sep : string) (l : list string) : string :=
  match l with
  | [] => ""
  | [x] => x
  | x :: rest => x ++ sep ++ join sep rest
  end.

Inductive result :=
| Exit (code : Z) (stderr : list string)   (* [process.exit(code)] after these lines *)
| Proceed.                                 (* the script goes on to [main()] *)

Definition check (env : string -> option string) : result :=
  if (0 <? List.length (missing env))%nat then
    Exit 1 [ "Missing required environment variables: " ++ join ", " (missing env);
             "Set them in your environment or in a .env file." ]
  else Proceed.

End Startup.

(** ** Message statistics ([countMessagesByUser]) *)

Module Stats.

(** Stable insertion sort for a comparator given as "may stay before". *)
Fixpoint insertBy {A : Type} (leb : A -> A -> bool) (x : A) (l : list A) : list A :=
  match l with
  | [] => [x]
  | y :: rest => if leb x y then x :: l else y :: insertBy leb x rest
  end.

Fixpoint sortBy {A : Type} (leb : A -> A -> bool) (l : list A) : list A :=
  match l with
  | [] => []
  | x :: rest => insertBy leb x (sortBy leb rest)
  end.

(** The own properties of [userMessageCounts], in creation order. *)
Definition tally := list (string * Z).

(** The names [Object.prototype] defines.  Read through a fresh object
    they yield functions (or the prototype), not [undefined], so a sender
    of such a name makes the tally hold a value that is not a number. *)
Definition inheritedNames : list string :=
  [ "constructor"; "__defineGetter__"; "__defineSetter__"; "hasOwnProperty";
    "__lookupGetter__"; "__lookupSetter__"; "isPrototypeOf";
    "propertyIsEnumerable"; "toString"; "valueOf"; "__proto__"; "toLocaleString" ].

Definition inherited (name : string) : bool :=
  existsb (String.eqb name) inheritedNames.

(** [userMessageCounts[sender] = (userMessageCounts[sender] || 0) + 1] *)
Fixpoint bump (sender : string) (t : tally) : tally :=
  match t with
  | [] => [(sender, 0 + 1)]
  | (key, n) :: rest =>
      if String.eqb key sender then (key, n + 1) :: rest
      else (key, n) :: bump sender rest
  end.

(** The sender the loop body counts for an event, if any: the event
    passes the type filter and [if (sender)]. *)
Definition counted (event : MatrixEvent) : option string :=
  if String.eqb (getType event) RoomMessage then
    match getSender event with
    | Some s => if JS.truthy_string s then Some s else None
    | None => None
    end
  else None.

Definition tallyOf (events : list MatrixEvent) : tally :=
  fold_left (fun t event => match counted event with
                            | Some s => bump s t
                            | None => t
                            end) events [].

Fixpoint allDigits (s : string) : bool :=
  match s with
  | EmptyString => true
  | String c rest =>
      match JS.digit_value c with
      | Some _ => allDigits rest
      | None => false
      end
  end.

(** The value of a property name that is an array index: a canonical
    decimal numeral not above [2^32 - 2]. *)
Definition arrayIndex (name : string) : option Z :=
  match name with
  | EmptyString => None
  | String c rest =>
      if allDigits name
         && (negb (Ascii.eqb c "0") || match rest with EmptyString => true | _ => false end)
      then match JS.read_digits name 0 false with
           | Some v => if v <=? 4294967294 then Some v else None
           | None => None
           end
      else None
  end.

Definition isIndex (p : string * Z) : bool :=
  match arrayIndex (fst p) with Some _ => true | None => false end.

Definition indexOf (p : string * Z) : Z := JS.or_zero (arrayIndex (fst p)).

(** [Object.entries(t)]: array-index names first, in ascending numeric
    order, then the other names in creation order. *)
Definition entries (t : tally) : tally :=
  (sortBy (fun a b => indexOf a <=? indexOf b) (filter isIndex t)
   ++ filter (fun p => negb (isIndex p)) t)%list.

(** [l.slice(0, limit)] for an integral [limit]. *)
Definition slice0 {A : Type} (limit : Z) (l : list A) : list A :=
  if limit <? 0 then firstn (Z.to_nat (Z.of_nat (List.length l) + limit)) l
  else firstn (Z.to_nat limit) l.

Record userCount := mkUserCount { userId : string; count : Z }.

(** [countMessagesByUser(events, limit)]; [limit = None] when the
    argument is omitted.  The result is [None] when a counted sender has
    a name of [Object.prototype]: the tally then holds strings and the
    comparator yields [NaN], which is not modelled. *)
Definition countMessagesByUser (events : list MatrixEvent) (limit : option Z)
  : option (list userCount) :=
  if existsb (fun event => match counted event with
                           | Some s => inherited s
                           | None => false
                           end) events
  then None
  else
    let lim := match limit with Some n => n | None => 10 end in
    Some (map (fun p => mkUserCount (fst p) (snd p))
              (slice0 lim (sortBy (fun a b => snd b <=? snd a)
                                  (entries (tallyOf events))))).

(** The number of events of [events] counted for [user]. *)
Definition messagesBy (user : string) (events : list MatrixEvent) : Z :=
  Z.of_nat (List.length (filter (fun event => match counted event with
                                              | Some s => String.eqb s user
                                              | None => false
                                              end) events)).

(** The count the tally holds for [user]; 0 when there is none. *)
Fixpoint lookup (user : string) (t : tally) : Z :=
  match t with
  | [] => 0
  | (key, n) :: rest => if String.eqb key user then n else lookup user rest
  end.

End Stats.

Definition statsSample : list MatrixEvent :=
  [ message "@b:hs" "!a" "$1" 1; message "7" "!a" "$2" 2;
    message "@a:hs" "!a" "$3" 3; message "@b:hs" "!a" "$4" 4;
    mkEvent "m.room.member" (Some "@c:hs") (Some "!a") 5 (Some "$5") JS.Falsy;
    message "10" "!a" "$6" 6; message "@a:hs" "!a" "$7" 7;
    message "@c:hs" "!a" "$8" 8; message "2" "!a" "$9" 9;
    mkEvent RoomMessage None (Some "!a") 10 (Some "$10") JS.Falsy ].

(** One turn of the counting loop of [countMessagesByUser]. *)
Definition tallyStep (t : Stats.tally) (event : MatrixEvent) : Stats.tally :=
  match Stats.counted event with
  | Some s => Stats.bump s t
  | None => t
  end.

(** The limit [countMessagesByUser] slices with. *)
Definition effectiveLimit (limit : option Z) : Z :=
  match limit with Some n => n | None => 10 end.

Definition pairOf (uc : Stats.userCount) : string * Z :=
  (Stats.userId uc, Stats.count uc).

Definition statsResult : list Stats.userCount :=
  Eval vm_compute in
    match Stats.countMessagesByUser statsSample (Some 4) with
    | Some r => r
    | None => []
    end.

(** The event reaches the counting statement of [countMessagesByUser]. *)
Definition isCounted (event : MatrixEvent) : bool :=
  match Stats.counted event with Some _ => true | None => false end.

(** ** Message processing ([processMessage], [processMessagesByDate]) *)

Module Processor.

(** The fields of [event.getContent()] that [processMessage] reads
    besides [body]: [msgtype], [url], [info?.mimetype], and, under
    ["m.relates_to"], [rel_type], [event_id] and
    [["m.in_reply_to"]?.event_id]. *)
Record Content := mkContent {
  msgtype : option string;
  url : option string;
  mimetype : JS.value;
  rel_type : option string;
  rel_event_id : option string;
  in_reply_to : option string
}.

Definition noContent : Content := mkContent None None JS.Falsy None None None.

(** An event as [processMessage] sees it. *)
Record Event := mkEvent {
  header : MatrixEvent;
  content : Content
}.

(** What the call depends on outside the program: [mxcUrlToHttp] of the
    client, and the outcome of [fetch] followed by the base64 encoding of
    the body: [Some data] when the response is [ok], [None] when [fetch]
    rejects or the response is not [ok]. *)
Record Network := mkNetwork {
  mxcUrlToHttp : string -> option string;
  download : string -> option string
}.

(** The object handed to [JSON.stringify] for a text message; a field
    that is [undefined] or not set is [None]. *)
Record Metadata := mkMetadata {
  eventId : option string;
  sender : option string;
  timestamp : string;
  body : string;
  replyToEventId : option string;
  threadRootEventId : option string
}.

Inductive ProcessedMessage :=
| Text (text : Metadata)
| Image (data : string) (mimeType : string).

(** The result of a promise: [Threw] when it rejects. *)
Inductive Try (A : Type) :=
| Ok (a : A)
| Threw.
Arguments Ok {A} a.
Arguments Threw {A}.

(** [x] when it is a truthy string, else [undefined]: the effect of
    [if (x) metadata.k = x]. *)
Definition whenTruthy (x : option string) : option string :=
  if JS.truthy x then x else None.

Definition processMessage (event : Event) (matrixClient : option Network)
  : Try (option ProcessedMessage) :=
  match matrixClient with
  | None => Threw
  | Some net =>
      let c := content event in
      let h := header event in
      if String.eqb (getType h) RoomMessage then
        let replyTo := in_reply_to c in
        let threadRoot :=
          if JS.strict_eq (rel_type c) (Some "m.thread")
             || JS.strict_eq (rel_type c) (Some "io.element.thread")
          then rel_event_id c else None in
        if JS.strict_eq (msgtype c) (Some "m.text") then
          match JS.toISOString (getTs h) with
          | None => Threw
          | Some iso =>
              match JS.string_or_empty (getBody h) with
              | None => Threw
              | Some text =>
                  Ok (Some (Text (mkMetadata (getId h) (getSender h) iso text
                                             (whenTruthy replyTo) (whenTruthy threadRoot))))
              end
          end
        else if JS.strict_eq (msgtype c) (Some "m.image") && JS.truthy (url c) then
          let httpUrl := JS.or_else (match url c with
                                     | Some u => mxcUrlToHttp net u
                                     | None => None
                                     end) "" in
          match download net httpUrl with
          | Some data =>
              match JS.string_or_default (mimetype c) "application/octet-stream" with
              | Some mime => Ok (Some (Image data mime))
              | None => Ok None
              end
          | None => Ok None
          end
        else Ok None
      else Ok None
  end.

(** [Promise.all(events.map(process))]: the results in order, or the
    rejection of the first call (in order) that rejects. *)
Fixpoint all (matrixClient : option Network) (events : list Event)
  : Try (list (option ProcessedMessage)) :=
  match events with
  | [] => Ok []
  | e :: rest =>
      match processMessage e matrixClient, all matrixClient rest with
      | Ok m, Ok ms => Ok (m :: ms)
      | _, _ => Threw
      end
  end.

(** [timestamp >= start && timestamp <= end], false when a bound is
    [NaN]. *)
Definition inRange (start finish : option Z) (event : Event) : bool :=
  match start, finish with
  | Some s, Some f => (s <=? getTs (header event)) && (getTs (header event) <=? f)
  | _, _ => false
  end.

Fixpoint nonNull (ms : list (option ProcessedMessage)) : list ProcessedMessage :=
  match ms with
  | [] => []
  | Some m :: rest => m :: nonNull rest
  | None :: rest => nonNull rest
  end.

(** [processMessagesByDate]; [start] and [finish] are the values of
    [new Date(startDate).getTime()] and [new Date(endDate).getTime()],
    [None] for [NaN]. *)
Definition processMessagesByDate (events : list Event) (start finish : option Z)
    (matrixClient : option Network) : Try (list ProcessedMessage) :=
  match all matrixClient (filter (inRange start finish) events) with
  | Ok ms => Ok (nonNull ms)
  | Threw => Threw
  end.

(** A time that [getTime] can return: [NaN] or a valid time value. *)
Definition dateTime (t : option Z) : Prop :=
  match t with
  | Some z => JS.valid_time z = true
  | None => True
  end.

(** [m] is the text message built for [event]. *)
Definition textOf (event : Event) (m : ProcessedMessage) : Prop :=
  match m with
  | Text meta =>
      eventId meta = getId (header event)
      /\ sender meta = getSender (header event)
      /\ JS.toISOString (getTs (header event)) = Some (timestamp meta)
  | Image _ _ => False
  end.

End Processor.

Definition processorNetwork : Processor.Network :=
  Processor.mkNetwork (fun u => Some ("https://hs/" ++ u)) (fun _ => None).

Definition processorSample : list Processor.Event :=
  [ Processor.mkEvent (message "@u:hs" "!a" "$1" 1000)
      (Processor.mkContent (Some "m.text") None JS.Falsy None None None);
    Processor.mkEvent (message "@u:hs" "!a" "$2" 8640000000000001)
      (Processor.mkContent (Some "m.text") None JS.Falsy None None None);
    Processor.mkEvent (message "@v:hs" "!a" "$3" 2000)
      (Processor.mkContent (Some "m.image") (Some "mxc://hs/x") JS.Falsy None None None) ].

(** A text message, inside the range used below, whose [body] cannot be
    converted to a string. *)
Definition unprintableSample : list Processor.Event :=
  [ Processor.mkEvent
      (mkEvent RoomMessage (Some "@u:hs") (Some "!a") 3000 (Some "$4") JS.Unprintable)
      (Processor.mkContent (Some "m.text") None JS.Falsy None None None) ].

(** An environment in which the user id is set to the empty string and
    the access token is unset. *)
Definition incompleteEnv (key : string) : option string :=
  if String.eqb key "MATRIX_USER_ID" then Some ""
  else if String.eqb key "MATRIX_HOMESERVER_URL" then Some "https://hs"
  else None.

(** * Properties *)

(** ** The primitives on sample inputs *)

Example split_three_fields : JS.split "|" "a|5|b" = ["a"; "5"; "b"].
Proof. reflexivity. Qed.

Example split_empty : JS.split "|" "" = [""].
Proof. reflexivity. Qed.

Example parseInt_reads_prefix : JS.parseInt " 12abc" = Some 12.
Proof. reflexivity. Qed.

Example parseInt_no_digits : JS.parseInt "abc" = None /\ JS.parseInt "" = None.
Proof. split; reflexivity. Qed.

Example token_round_trip :
  parseSince (Some (encodeToken "$a" 1700000000000)) initialCursor
  = (1700000000000, Some "$a").
Proof. reflexivity. Qed.

Example toISOString_sample :
  JS.toISOString 1700000000000 = Some "2023-11-14T22:13:20.000Z"
  /\ JS.toISOString (-1) = Some "1969-12-31T23:59:59.999Z"
  /\ JS.toISOString JS.maxTimeValue = Some "+275760-09-13T00:00:00.000Z"
  /\ JS.toISOString (JS.maxTimeValue + 1) = None.
Proof. repeat split. Qed.

(** ** Strict equality *)

Lemma strict_eq_true (a b : option string) : JS.strict_eq a b = true <-> a = b.
Proof.
  destruct a as [x|], b as [y|]; simpl; try (split; congruence).
  rewrite String.eqb_eq. split; congruence.
Qed.

Lemma strict_eq_false (a b : option string) : JS.strict_eq a b = false <-> a <> b.
Proof.
  rewrite <- strict_eq_true. destruct (JS.strict_eq a b); split; congruence.
Qed.

Lemma truthy_num_true (z : Z) : JS.truthy_num z = true <-> z <> 0.
Proof.
  unfold JS.truthy_num. rewrite negb_true_iff, Z.eqb_neq. reflexivity.
Qed.

(** ** Eligibility *)

(** The test of the catch-up scan is the eligibility condition, for every
    cursor. *)
Lemma scanEligible_spec (cts : Z) (cid : option string) (ts : Z) (eid : option string) :
  scanEligible cts cid ts eid = true <-> eligible eid ts cid cts.
Proof.
  unfold scanEligible, eligible.
  destruct (Z.ltb_spec ts cts) as [Hlt|Hge].
  - split; [discriminate | lia].
  - destruct (Z.eqb_spec ts cts) as [Heq|Hne]; simpl.
    + destruct (JS.strict_eq eid cid) eqn:E.
      * apply strict_eq_true in E. split; [discriminate|].
        intros [H|[_ H]]; [lia | contradiction].
      * apply strict_eq_false in E. split; auto.
    + split; auto. intros _. left. lia.
Qed.

(** With a zero cursor timestamp the guards of the listener are off and
    every event passes. *)
Lemma liveEligible_zero (cid : option string) (ts : Z) (eid : option string) :
  liveEligible 0 cid ts eid = true.
Proof. reflexivity. Qed.

Lemma liveEligible_scanEligible (cts : Z) (cid : option string) (ts : Z) (eid : option string) :
  cts <> 0 -> liveEligible cts cid ts eid = scanEligible cts cid ts eid.
Proof.
  intros H. apply truthy_num_true in H.
  unfold liveEligible, scanEligible. rewrite H. reflexivity.
Qed.

(** C1 (as amended).  For every event [(eid, ts)] and every cursor
    [(cid, cts)] whose timestamp is not zero, the test of the catch-up
    scan and the test of the live listener both accept the event exactly
    when [ts > cts], or [ts = cts] and [eid <> cid].  With the timestamp
    zero the listener accepts every event. *)
Theorem eligibility_nonzero_cursor
    (cid : option string) (cts : Z) (eid : option string) (ts : Z) :
  cts <> 0 ->
  (scanEligible cts cid ts eid = true <-> eligible eid ts cid cts)
  /\ (liveEligible cts cid ts eid = true <-> eligible eid ts cid cts)
  /\ liveEligible 0 cid ts eid = true.
Proof.
  intros H. split; [|split].
  - apply scanEligible_spec.
  - rewrite (liveEligible_scanEligible _ _ _ _ H). apply scanEligible_spec.
  - apply liveEligible_zero.
Qed.

Lemma eligibility_nonzero_cursor_witness :
  5 <> 0
  /\ (scanEligible 5 (Some "$a") 5 (Some "$b") = true
      <-> eligible (Some "$b") 5 (Some "$a") 5)
  /\ (liveEligible 5 (Some "$a") 5 (Some "$b") = true
      <-> eligible (Some "$b") 5 (Some "$a") 5)
  /\ liveEligible 0 (Some "$a") 5 (Some "$b") = true.
Proof.
  split; [lia|].
  apply (eligibility_nonzero_cursor (Some "$a") 5 (Some "$b") 5). lia.
Defined.

(** C1 (as stated) fails for the cursor decoded from the token ["$a|0"]:
    the live listener accepts the event ["$a"] with timestamp 0, which is
    the event of the cursor. *)
Lemma eligibility_zero_cursor_counterexample :
  parseSince (Some "$a|0") initialCursor = (0, Some "$a")
  /\ liveKeeps (mkClient (Some "@me:hs") []) None 0 (Some "$a")
       (mkEvent RoomMessage (Some "@u:hs") (Some "!r") 0 (Some "$a") (JS.Printable "hi")) = true
  /\ ~ (liveEligible 0 (Some "$a") 0 (Some "$a") = true
        <-> eligible (Some "$a") 0 (Some "$a") 0).
Proof.
  split; [reflexivity|]. split; [reflexivity|].
  intros [H _]. specialize (H eq_refl).
  destruct H as [H|[_ H]]; [lia | congruence].
Qed.

(** ** Sorting *)

Lemma insertByTimestamp_perm (m : CollectedMessage) (l : list CollectedMessage) :
  Permutation (insertByTimestamp m l) (m :: l).
Proof.
  induction l as [|x l IH]; simpl; [reflexivity|].
  destruct (timestamp m <=? timestamp x); [reflexivity|].
  rewrite IH. apply perm_swap.
Qed.

Lemma sortByTimestamp_perm (l : list CollectedMessage) :
  Permutation (sortByTimestamp l) l.
Proof.
  induction l as [|m l IH]; simpl; [reflexivity|].
  rewrite insertByTimestamp_perm. now constructor.
Qed.

Lemma insertByTimestamp_sorted (m : CollectedMessage) (l : list CollectedMessage) :
  StronglySorted byTimestamp l -> StronglySorted byTimestamp (insertByTimestamp m l).
Proof.
  induction 1 as [|x l Hl IH Hx]; simpl.
  - repeat constructor.
  - destruct (Z.leb_spec (timestamp m) (timestamp x)) as [Hle|Hgt].
    + constructor; [now constructor|].
      constructor; [exact Hle|].
      eapply Forall_impl; [|exact Hx].
      unfold byTimestamp. intros; lia.
    + constructor; [exact IH|].
      eapply Permutation_Forall; [symmetry; apply insertByTimestamp_perm|].
      constructor; [unfold byTimestamp; lia | exact Hx].
Qed.

Lemma sortByTimestamp_sorted (l : list CollectedMessage) :
  StronglySorted byTimestamp (sortByTimestamp l).
Proof.
  induction l as [|m l IH]; simpl; [constructor|].
  now apply insertByTimestamp_sorted.
Qed.

Lemma sortByTimestamp_nonempty (l : list CollectedMessage) :
  l <> [] -> sortByTimestamp l <> [].
Proof.
  intros Hl Hs. apply Hl.
  apply Permutation_nil. rewrite <- Hs. apply sortByTimestamp_perm.
Qed.

(** ** Last element *)

Lemma lastOf_some (l : list CollectedMessage) :
  l <> [] -> exists last, lastOf l = Some last.
Proof.
  induction l as [|m l IH]; [congruence|]. intros _.
  destruct l as [|x l]; [now exists m|].
  apply IH. discriminate.
Qed.

Lemma lastOf_app (l : list CollectedMessage) (m : CollectedMessage) :
  lastOf (l ++ [m]) = Some m.
Proof.
  induction l as [|x l IH]; [reflexivity|].
  simpl. destruct (l ++ [m])%list eqn:E; [destruct l; discriminate | exact IH].
Qed.

Lemma lastOf_In (l : list CollectedMessage) (last : CollectedMessage) :
  lastOf l = Some last -> In last l.
Proof.
  induction l as [|m l IH]; [discriminate|].
  destruct l as [|x l]; simpl.
  - intros [= ->]. now left.
  - intros H. right. now apply IH.
Qed.

(** The last element of an array sorted by timestamp carries the
    greatest timestamp. *)
Lemma lastOf_sorted_max (l : list CollectedMessage) (last : CollectedMessage) :
  StronglySorted byTimestamp l -> lastOf l = Some last ->
  Forall (fun m => timestamp m <= timestamp last) l.
Proof.
  induction 1 as [|m l Hl IH Hm]; [constructor|].
  destruct l as [|x l].
  - simpl. intros [= ->]. repeat constructor. lia.
  - intros H. change (lastOf (x :: l) = Some last) in H.
    specialize (IH H). constructor; [|exact IH].
    apply lastOf_In in H.
    rewrite Forall_forall in Hm. apply (Hm _ H).
Qed.

(** ** The responder *)

Lemma deliver_returned (ms : list CollectedMessage) (g g' : Cursor) (r : Response) :
  deliver ms g = (Returned r, g') ->
  exists last,
    lastOf ms = Some last
    /\ renderMessages ms = Some (messages r)
    /\ status r = "messages_received"
    /\ messageCount r = Z.of_nat (List.length ms)
    /\ since r = Some (encodeToken (eventId last) (timestamp last))
    /\ g' = updateInternalCursor (eventId last) (timestamp last) g.
Proof.
  unfold deliver. destruct (lastOf ms) as [last|]; [|discriminate].
  destruct (renderMessages ms) as [out|]; [|discriminate].
  intros [= <- <-]. exists last. simpl. auto 10.
Qed.

Lemma renderMessages_nil_inv (ms : list CollectedMessage) :
  renderMessages ms = Some [] -> ms = [].
Proof.
  destruct ms as [|m ms]; [reflexivity|]. simpl.
  destruct (JS.toISOString (timestamp m)); [|discriminate].
  destruct (renderMessages ms); discriminate.
Qed.

Lemma renderMessages_Forall2 (ms : list CollectedMessage) (out : list Wire.message) :
  renderMessages ms = Some out -> Forall2 renderedFrom ms out.
Proof.
  revert out. induction ms as [|m ms IH]; simpl; intros out.
  - intros [= <-]. constructor.
  - destruct (JS.toISOString (timestamp m)) as [iso|] eqn:E; [|discriminate].
    destruct (renderMessages ms) as [out'|]; [|discriminate].
    intros [= <-]. constructor; [|now apply IH].
    unfold renderedFrom. simpl. auto 10.
Qed.

Lemma renderMessages_valid (ms : list CollectedMessage) :
  Forall (fun m => JS.valid_time (timestamp m) = true) ms ->
  exists out, renderMessages ms = Some out.
Proof.
  induction 1 as [|m ms Hm _ [out IH]]; simpl; [now exists []|].
  unfold JS.toISOString. rewrite Hm.
  destruct (JS.civil_from_days (timestamp m / JS.msPerDay)) as [[y mo] d].
  rewrite IH. eexists. reflexivity.
Qed.

Lemma Forall2_lastOf {A B : Type} (R : A -> B -> Prop) (l1 : list A) (l2 : list B)
    (a : A) :
  Forall2 R l1 l2 -> lastOf l1 = Some a ->
  exists b, lastOf l2 = Some b /\ R a b.
Proof.
  induction 1 as [|x y l1 l2 Hxy Hl IH]; [discriminate|].
  destruct Hl as [|x' y' l1 l2 Hxy' Hl].
  - simpl. intros [= <-]. now exists y.
  - intros H. apply IH. exact H.
Qed.

(** What a returned result was built from. *)
Lemma handler_returned (g : Cursor) (client : MatrixClient)
    (roomIdArg : option string) (timeoutMs : Z) (sinceArg : option string)
    (schedule : list (N * occurrence)) (r : Response) (g' : Cursor) :
  waitForMessagesHandler g (Some client) roomIdArg timeoutMs sinceArg schedule
    = (Returned r, g') ->
  let got := gathered g client roomIdArg timeoutMs sinceArg schedule in
  (batchOf got <> [] /\ deliver (batchOf got) g = (Returned r, g'))
  \/ (exists timedOut, got = Settled [] timedOut
        /\ r = emptyResult timedOut sinceArg /\ g' = g).
Proof.
  unfold waitForMessagesHandler. cbv zeta.
  destruct (gathered g client roomIdArg timeoutMs sinceArg schedule)
    as [batch|batch timedOut| |] eqn:E; simpl.
  - intros H. left. split; [|exact H].
    intros ->. discriminate H.
  - destruct batch as [|m batch].
    + intros [= <- <-]. right. now exists timedOut.
    + intros H. left. split; [discriminate | exact H].
  - discriminate.
  - discriminate.
Qed.

Lemma gather_caughtUp_sorted (client : MatrixClient) (roomIdArg : option string)
    (timeout sinceTimestamp : Z) (sinceEventId : option string)
    (schedule : list (N * occurrence)) (batch : list CollectedMessage) :
  gather client roomIdArg timeout sinceTimestamp sinceEventId schedule = CaughtUp batch ->
  exists caught,
    catchUp client roomIdArg sinceTimestamp sinceEventId = Some caught
    /\ caught <> []
    /\ batch = sortByTimestamp caught.
Proof.
  unfold gather.
  destruct (catchUp client roomIdArg sinceTimestamp sinceEventId) as [[|m caught]|].
  - unfold awaited. destruct (resolved _) as [[ms t]|]; discriminate.
  - intros [= <-]. exists (m :: caught). repeat split. discriminate.
  - discriminate.
Qed.

Lemma isCaughtUp_inv (got : Gathered) :
  isCaughtUp got = true -> got = CaughtUp (batchOf got).
Proof. destruct got; simpl; congruence. Qed.

Lemma gathered_caughtUp_sorted (g : Cursor) (client : MatrixClient)
    (roomIdArg : option string) (timeoutMs : Z) (sinceArg : option string)
    (schedule : list (N * occurrence)) :
  isCaughtUp (gathered g client roomIdArg timeoutMs sinceArg schedule) = true ->
  StronglySorted byTimestamp
    (batchOf (gathered g client roomIdArg timeoutMs sinceArg schedule)).
Proof.
  intros Hc. apply isCaughtUp_inv in Hc. unfold gathered in *.
  destruct (gather_caughtUp_sorted _ _ _ _ _ _ _ Hc) as [caught [_ [_ ->]]].
  apply sortByTimestamp_sorted.
Qed.

(** ** Next cursor *)

(** The sort is stable: among the messages with a given timestamp it
    keeps the order in which they were collected. *)
Lemma insertByTimestamp_ties (t : Z) (m : CollectedMessage) (l : list CollectedMessage) :
  filter (fun x => timestamp x =? t) (insertByTimestamp m l)
  = filter (fun x => timestamp x =? t) (m :: l).
Proof.
  induction l as [|x l IH]; [reflexivity|].
  cbn [insertByTimestamp].
  destruct (Z.leb_spec (timestamp m) (timestamp x)) as [Hle|Hgt]; [reflexivity|].
  cbn [filter] in *. rewrite IH.
  destruct (Z.eqb_spec (timestamp m) t) as [Hm|Hm];
    destruct (Z.eqb_spec (timestamp x) t) as [Hx|Hx]; try reflexivity.
  lia.
Qed.

Lemma sortByTimestamp_ties (t : Z) (l : list CollectedMessage) :
  filter (fun x => timestamp x =? t) (sortByTimestamp l)
  = filter (fun x => timestamp x =? t) l.
Proof.
  induction l as [|m l IH]; [reflexivity|].
  cbn [sortByTimestamp]. rewrite insertByTimestamp_ties.
  cbn [filter]. now rewrite IH.
Qed.

Lemma lastOf_filter (f : CollectedMessage -> bool) (l : list CollectedMessage)
    (last : CollectedMessage) :
  lastOf l = Some last -> f last = true -> lastOf (filter f l) = Some last.
Proof.
  intros Hl Hf. induction l as [|m l IH]; [discriminate|].
  destruct l as [|x l].
  - injection Hl as ->. simpl. now rewrite Hf.
  - change (lastOf (x :: l) = Some last) in Hl. specialize (IH Hl).
    change (filter f (m :: x :: l))
      with (if f m then m :: filter f (x :: l) else filter f (x :: l)).
    destruct (f m); [|exact IH].
    destruct (filter f (x :: l)) as [|y ys]; [discriminate | exact IH].
Qed.

(** The token of a [messages_received] result is built from the last
    element of the array the handler renders. *)
Lemma returned_token_is_last (g : Cursor) (client : MatrixClient)
    (roomIdArg : option string) (timeoutMs : Z) (sinceArg : option string)
    (schedule : list (N * occurrence)) (r : Response) (g' : Cursor) :
  waitForMessagesHandler g (Some client) roomIdArg timeoutMs sinceArg schedule
    = (Returned r, g') ->
  status r = "messages_received" ->
  let got := gathered g client roomIdArg timeoutMs sinceArg schedule in
  renderMessages (batchOf got) = Some (messages r)
  /\ exists last w,
       lastOf (batchOf got) = Some last
       /\ lastOf (messages r) = Some w
       /\ renderedFrom last w
       /\ since r = Some (encodeToken (eventId last) (timestamp last)).
Proof.
  intros Hrun Hstatus got.
  destruct (handler_returned _ _ _ _ _ _ _ _ Hrun) as [[_ Hd]|[t [_ [-> _]]]].
  - fold got in Hd.
    destruct (deliver_returned _ _ _ _ Hd) as [last [Hlast [Hout [_ [_ [Hs _]]]]]].
    split; [exact Hout|].
    destruct (Forall2_lastOf _ _ _ _ (renderMessages_Forall2 _ _ Hout) Hlast)
      as [w [Hw Hlw]].
    exists last, w. auto.
  - destruct t; discriminate Hstatus.
Qed.

(** C2 (as amended).  Whenever a call returns on the catch-up path, its
    status is [messages_received] and its [since] token encodes the event
    id and the timestamp of the message rendered last in the returned
    array.  No message found by the scan has a greater timestamp than that
    one, and among the found messages with that timestamp it is the one
    the scan collected last (rooms in the order of the session, events in
    the order of the timeline); event ids are not compared. *)
Theorem next_cursor_encodes_last_scanned_maximum
    (g : Cursor) (client : MatrixClient) (roomIdArg : option string)
    (timeoutMs : Z) (sinceArg : option string)
    (schedule : list (N * occurrence)) (r : Response) (g' : Cursor) :
  waitForMessagesHandler g (Some client) roomIdArg timeoutMs sinceArg schedule
    = (Returned r, g') ->
  let got := gathered g client roomIdArg timeoutMs sinceArg schedule in
  isCaughtUp got = true ->
  status r = "messages_received"
  /\ renderMessages (batchOf got) = Some (messages r)
  /\ exists caught last w,
       catchUp client roomIdArg (fst (parseSince sinceArg g))
               (snd (parseSince sinceArg g)) = Some caught
       /\ batchOf got = sortByTimestamp caught
       /\ lastOf (batchOf got) = Some last
       /\ lastOf (messages r) = Some w
       /\ renderedFrom last w
       /\ since r = Some (encodeToken (eventId last) (timestamp last))
       /\ Forall (fun m => timestamp m <= timestamp last) caught
       /\ lastOf (filter (fun m => timestamp m =? timestamp last) caught) = Some last.
Proof.
  intros Hrun got Hc.
  assert (Hstatus : status r = "messages_received").
  { destruct (handler_returned _ _ _ _ _ _ _ _ Hrun) as [[_ Hd]|[t [He _]]].
    - now destruct (deliver_returned _ _ _ _ Hd) as [last [_ [_ [Hs _]]]].
    - fold got in He. rewrite He in Hc. discriminate Hc. }
  split; [exact Hstatus|].
  destruct (returned_token_is_last _ _ _ _ _ _ _ _ Hrun Hstatus)
    as [Hout [last [w [Hlast [Hw [Hlw Hs]]]]]].
  fold got in Hout, Hlast. split; [exact Hout|].
  pose proof (isCaughtUp_inv _ Hc) as Hg. unfold got, gathered in Hg.
  destruct (gather_caughtUp_sorted _ _ _ _ _ _ _ Hg) as [caught [Hcaught [_ Hb]]].
  fold (gathered g client roomIdArg timeoutMs sinceArg schedule) in Hb. fold got in Hb.
  exists caught, last, w.
  split; [exact Hcaught|]. split; [exact Hb|]. split; [exact Hlast|].
  split; [exact Hw|]. split; [exact Hlw|]. split; [exact Hs|].
  rewrite Hb in Hlast. split.
  - eapply Permutation_Forall; [apply sortByTimestamp_perm|].
    apply lastOf_sorted_max; [apply sortByTimestamp_sorted | exact Hlast].
  - rewrite <- (sortByTimestamp_ties (timestamp last) caught).
    apply lastOf_filter; [exact Hlast | apply Z.eqb_refl].
Qed.

Lemma next_cursor_encodes_last_scanned_maximum_witness :
  caughtUpRun = (Returned caughtUpResponse, caughtUpCursor)
  /\ let got := gathered initialCursor sampleClient None 1000 (Some "$x|2") [] in
     isCaughtUp got = true
     /\ status caughtUpResponse = "messages_received"
     /\ renderMessages (batchOf got) = Some (messages caughtUpResponse)
     /\ exists caught last w,
          catchUp sampleClient None (fst (parseSince (Some "$x|2") initialCursor))
                  (snd (parseSince (Some "$x|2") initialCursor)) = Some caught
          /\ batchOf got = sortByTimestamp caught
          /\ lastOf (batchOf got) = Some last
          /\ lastOf (messages caughtUpResponse) = Some w
          /\ renderedFrom last w
          /\ since caughtUpResponse = Some (encodeToken (eventId last) (timestamp last))
          /\ Forall (fun m => timestamp m <= timestamp last) caught
          /\ lastOf (filter (fun m => timestamp m =? timestamp last) caught) = Some last.
Proof.
  split; [reflexivity|]. split; [reflexivity|].
  apply (next_cursor_encodes_last_scanned_maximum initialCursor sampleClient None 1000
           (Some "$x|2") [] caughtUpResponse caughtUpCursor); reflexivity.
Defined.

(** C2 (as stated) fails on the catch-up path.  The scan of the sample
    session finds ["$b"] and then ["$a"], both with timestamp 5, and
    ["$d"] with timestamp 3; the call returns the token ["$a|5"], although
    ["$b"] is the greater id, so the token encodes no maximum of the batch
    in the order by timestamp and then id. *)
Lemma next_cursor_not_maximum_counterexample :
  caughtUpRun = (Returned caughtUpResponse, caughtUpCursor)
  /\ isCaughtUp (gathered initialCursor sampleClient None 1000 (Some "$x|2") []) = true
  /\ status caughtUpResponse = "messages_received"
  /\ map eventId (batchOf (gathered initialCursor sampleClient None 1000
                                    (Some "$x|2") []))
     = ["$d"; "$b"; "$a"]
  /\ since caughtUpResponse = Some "$a|5"
  /\ ~ exists m,
       isMaximumOf m (batchOf (gathered initialCursor sampleClient None 1000
                                        (Some "$x|2") []))
       /\ since caughtUpResponse = Some (encodeToken (eventId m) (timestamp m)).
Proof.
  repeat (split; [reflexivity|]).
  intros [m [[Hin Hmax] Hs]]. vm_compute in Hin.
  destruct Hin as [<-|[<-|[<-|[]]]]; vm_compute in Hmax, Hs; discriminate.
Qed.

(** On the live path the array is returned in arrival order and the
    token is taken from the last arrival: here the message with timestamp
    10 arrives before the one with timestamp 7, and the token is
    ["$f|7"]. *)
Lemma live_token_is_last_arrival :
  outOfOrderRun = (Returned outOfOrderResponse, outOfOrderCursor)
  /\ isCaughtUp (gathered initialCursor quietClient None 30000 None outOfOrderSchedule)
     = false
  /\ map (fun m => (eventId m, timestamp m))
         (batchOf (gathered initialCursor quietClient None 30000 None outOfOrderSchedule))
     = [("$e", 10); ("$f", 7)]
  /\ since outOfOrderResponse = Some "$f|7".
Proof. repeat split. Qed.

(** ** Ordering of the returned array *)

(** C3 (as amended).  Every array returned by the catch-up scan is sorted
    ascending by timestamp, equal timestamps allowed. *)
Theorem catch_up_batch_sorted
    (g : Cursor) (client : MatrixClient) (roomIdArg : option string)
    (timeoutMs : Z) (sinceArg : option string)
    (schedule : list (N * occurrence)) (r : Response) (g' : Cursor) :
  waitForMessagesHandler g (Some client) roomIdArg timeoutMs sinceArg schedule
    = (Returned r, g') ->
  let got := gathered g client roomIdArg timeoutMs sinceArg schedule in
  isCaughtUp got = true ->
  renderMessages (batchOf got) = Some (messages r)
  /\ StronglySorted byTimestamp (batchOf got).
Proof.
  intros Hrun got Hc. split; [|now apply gathered_caughtUp_sorted].
  apply isCaughtUp_inv in Hc.
  unfold waitForMessagesHandler in Hrun. fold got in Hrun.
  rewrite Hc in Hrun. simpl in Hrun.
  now destruct (deliver_returned _ _ _ _ Hrun) as [last [_ [Hout _]]].
Qed.

Lemma catch_up_batch_sorted_witness :
  caughtUpRun = (Returned caughtUpResponse, caughtUpCursor)
  /\ let got := gathered initialCursor sampleClient None 1000 (Some "$x|2") [] in
     isCaughtUp got = true
     /\ renderMessages (batchOf got) = Some (messages caughtUpResponse)
     /\ StronglySorted byTimestamp (batchOf got).
Proof.
  split; [reflexivity|]. split; [reflexivity|].
  apply (catch_up_batch_sorted initialCursor sampleClient None 1000
           (Some "$x|2") [] caughtUpResponse caughtUpCursor); reflexivity.
Defined.

Lemma Sorted_head2 (R : CollectedMessage -> CollectedMessage -> Prop)
    (a b : CollectedMessage) (l : list CollectedMessage) :
  Sorted R (a :: b :: l) -> R a b.
Proof.
  intros H. apply Sorted_inv in H. destruct H as [_ H].
  now apply HdRel_inv in H.
Qed.

(** C3 (as stated) fails on both paths.  The catch-up scan of the sample
    session returns three messages, two of them with timestamp 5, so the
    array is not strictly ascending; the live listener returns the
    messages with timestamps 10 and 7 in arrival order. *)
Lemma batch_not_strictly_sorted_counterexample :
  (caughtUpRun = (Returned caughtUpResponse, caughtUpCursor)
   /\ status caughtUpResponse = "messages_received"
   /\ map timestamp (batchOf (gathered initialCursor sampleClient None 1000
                                       (Some "$x|2") [])) = [3; 5; 5]
   /\ ~ Sorted byTimestampStrict
          (batchOf (gathered initialCursor sampleClient None 1000 (Some "$x|2") [])))
  /\ (outOfOrderRun = (Returned outOfOrderResponse, outOfOrderCursor)
      /\ status outOfOrderResponse = "messages_received"
      /\ map timestamp (batchOf (gathered initialCursor quietClient None 30000
                                          None outOfOrderSchedule)) = [10; 7]
      /\ ~ Sorted byTimestamp
             (batchOf (gathered initialCursor quietClient None 30000
                                None outOfOrderSchedule))).
Proof.
  split.
  - repeat (split; [reflexivity|]).
    intros H. vm_compute in H.
    apply Sorted_inv in H. destruct H as [H _].
    apply Sorted_head2 in H. vm_compute in H. discriminate.
  - repeat (split; [reflexivity|]).
    intros H. vm_compute in H.
    apply Sorted_head2 in H. vm_compute in H. now apply H.
Qed.

(** ** The listener *)

Section ListenerFacts.

Variable client : MatrixClient.
Variable roomIdArg : option string.
Variable sinceTimestamp : Z.
Variable sinceEventId : option string.


Lemma cleanup_released (l : Listener) : released (cleanup l).
Proof. repeat split. Qed.

Lemma onDebounce_released (l : Listener) : released (onDebounce l).
Proof.
  unfold onDebounce, resolve. simpl.
  destruct (resolved l); repeat split.
Qed.

Lemma onTimeout_released (l : Listener) : released (onTimeout l).
Proof.
  unfold onTimeout, resolve. simpl.
  destruct (resolved l); repeat split.
Qed.

Lemma startListener_inv (timeout : Z) : listenerInv timeout (startListener [] timeout).
Proof.
  unfold listenerInv. simpl. repeat split. congruence.
Qed.

Lemma dispatch_inv (timeout now : Z) (o : occurrence) (l : Listener) :
  listenerInv timeout l ->
  listenerInv timeout (dispatch client roomIdArg sinceTimestamp sinceEventId now o l).
Proof.
  unfold listenerInv, released.
  destruct l as [ms db th sub res]. simpl.
  destruct res as [[v t]|].
  - intros [[-> [-> ->]] [-> Hne]]. destruct o; simpl; auto.
  - intros [-> [-> Hdb]]. destruct o as [e| |]; simpl.
    + unfold onEvent. destruct (liveKeeps _ _ _ _ e); simpl; [|auto].
      destruct (liveCollect client e); simpl; [|auto].
      repeat split. intros _. destruct ms; discriminate.
    + destruct db as [due|]; simpl; [|auto].
      destruct (due <=? now); simpl; [|auto].
      repeat split. intros _. apply Hdb. discriminate.
    + destruct (JS.timerDelay timeout <=? now); simpl; [|auto].
      repeat split. discriminate.
Qed.

Lemma runLoop_inv (timeout : Z) (schedule : list (N * occurrence)) :
  forall (clock : Z) (l : Listener),
    listenerInv timeout l ->
    listenerInv timeout
      (runLoop client roomIdArg sinceTimestamp sinceEventId clock schedule l).
Proof.
  induction schedule as [|[dt o] rest IH]; simpl; intros clock l Hl; [exact Hl|].
  apply IH. now apply dispatch_inv.
Qed.

Lemma listenerAfter_inv (timeout : Z) (schedule : list (N * occurrence)) :
  listenerInv timeout
    (listenerAfter client roomIdArg sinceTimestamp sinceEventId timeout schedule).
Proof. apply runLoop_inv, startListener_inv. Qed.

(** Once the promise is resolved nothing reaches the closures any more. *)
Lemma dispatch_after_resolution (timeout now : Z) (o : occurrence) (l : Listener) :
  listenerInv timeout l -> resolved l <> None ->
  dispatch client roomIdArg sinceTimestamp sinceEventId now o l = l.
Proof.
  unfold listenerInv, released.
  destruct (resolved l) as [[v t]|]; [|congruence].
  intros [[Hs [Hd Ht]] _] _.
  destruct o; simpl; rewrite ?Hs, ?Hd, ?Ht; reflexivity.
Qed.

Lemma runLoop_after_resolution (timeout : Z) (schedule : list (N * occurrence)) :
  forall (clock : Z) (l : Listener),
    listenerInv timeout l -> resolved l <> None ->
    runLoop client roomIdArg sinceTimestamp sinceEventId clock schedule l = l.
Proof.
  induction schedule as [|[dt o] rest IH]; simpl; intros clock l Hl Hr; [reflexivity|].
  rewrite (dispatch_after_resolution timeout) by assumption.
  now apply IH.
Qed.

Lemma runLoop_app (pre post : list (N * occurrence)) :
  forall (clock : Z) (l : Listener),
    runLoop client roomIdArg sinceTimestamp sinceEventId clock (pre ++ post) l
    = runLoop client roomIdArg sinceTimestamp sinceEventId (elapsed clock pre) post
        (runLoop client roomIdArg sinceTimestamp sinceEventId clock pre l).
Proof.
  induction pre as [|[dt o] pre IH]; simpl; intros clock l; [reflexivity|].
  apply IH.
Qed.

End ListenerFacts.

(** C9.  Both settle paths, the callback of the debounce timer and the
    callback of the timeout timer, unregister the listener and leave no
    timer pending; and in every run of a call, once the promise is
    resolved nothing the call registered is left, whatever the event
    loop dispatches afterwards. *)
Theorem settle_releases_timers_and_listener
    (client : MatrixClient) (roomIdArg : option string) (sinceTimestamp : Z)
    (sinceEventId : option string) (timeout : Z)
    (schedule : list (N * occurrence)) (l : Listener) :
  released (onDebounce l)
  /\ released (onTimeout l)
  /\ (resolved (listenerAfter client roomIdArg sinceTimestamp sinceEventId
                              timeout schedule) <> None ->
      released (listenerAfter client roomIdArg sinceTimestamp sinceEventId
                              timeout schedule)).
Proof.
  split; [apply onDebounce_released|]. split; [apply onTimeout_released|].
  intros Hr.
  pose proof (listenerAfter_inv client roomIdArg sinceTimestamp sinceEventId
                timeout schedule) as Hinv.
  unfold listenerInv in Hinv.
  destruct (resolved _) as [[ms t]|]; [|congruence].
  apply Hinv.
Qed.

Lemma settle_releases_timers_and_listener_witness :
  let after := listenerAfter quietClient None 0 None 30000 outOfOrderSchedule in
  resolved after <> None /\ released after.
Proof.
  split; [discriminate|].
  apply (settle_releases_timers_and_listener quietClient None 0 None 30000
           outOfOrderSchedule (startListener [] 30000)).
  discriminate.
Defined.

(** The promise is resolved with [timedOut: false] only by the debounce
    timer, hence never with an empty array. *)
Lemma settled_without_timeout_nonempty
    (client : MatrixClient) (roomIdArg : option string) (sinceTimestamp : Z)
    (sinceEventId : option string) (timeout : Z)
    (schedule : list (N * occurrence)) (ms : list CollectedMessage) :
  resolved (listenerAfter client roomIdArg sinceTimestamp sinceEventId timeout schedule)
    = Some (ms, false) ->
  ms <> [].
Proof.
  intros Hr.
  pose proof (listenerAfter_inv client roomIdArg sinceTimestamp sinceEventId
                timeout schedule) as Hinv.
  unfold listenerInv in Hinv. rewrite Hr in Hinv.
  now apply Hinv.
Qed.

Lemma gather_settled (client : MatrixClient) (roomIdArg : option string)
    (timeout sinceTimestamp : Z) (sinceEventId : option string)
    (schedule : list (N * occurrence)) (ms : list CollectedMessage) (timedOut : bool) :
  gather client roomIdArg timeout sinceTimestamp sinceEventId schedule = Settled ms timedOut ->
  catchUp client roomIdArg sinceTimestamp sinceEventId = Some []
  /\ resolved (listenerAfter client roomIdArg sinceTimestamp sinceEventId timeout schedule)
     = Some (ms, timedOut).
Proof.
  unfold gather, listenerAfter.
  destruct (catchUp client roomIdArg sinceTimestamp sinceEventId) as [[|m caught]|];
    [|discriminate|discriminate].
  unfold awaited. destruct (resolved _) as [[ms' t']|]; [|discriminate].
  intros [= -> ->]. split; reflexivity.
Qed.

Lemma gather_live (client : MatrixClient) (roomIdArg : option string)
    (timeout sinceTimestamp : Z) (sinceEventId : option string)
    (schedule : list (N * occurrence)) :
  catchUp client roomIdArg sinceTimestamp sinceEventId = Some [] ->
  gather client roomIdArg timeout sinceTimestamp sinceEventId schedule
  = awaited (listenerAfter client roomIdArg sinceTimestamp sinceEventId timeout schedule).
Proof. unfold gather. intros ->. reflexivity. Qed.

(** ** Status of an empty result *)

(** C10.  The promise of the live phase is resolved without [timedOut]
    only with a non-empty array.  Hence a returned result never has the
    status [no_messages]; a result without messages has the status
    [timeout], and comes from a promise that the timeout timer resolved. *)
Theorem no_messages_never_reported
    (g : Cursor) (client : MatrixClient) (roomIdArg : option string)
    (timeoutMs : Z) (sinceArg : option string)
    (schedule : list (N * occurrence)) (r : Response) (g' : Cursor) :
  waitForMessagesHandler g (Some client) roomIdArg timeoutMs sinceArg schedule
    = (Returned r, g') ->
  let got := gathered g client roomIdArg timeoutMs sinceArg schedule in
  (forall ms, got = Settled ms false -> ms <> [])
  /\ status r <> "no_messages"
  /\ (messages r = [] -> status r = "timeout" /\ got = Settled [] true).
Proof.
  intros Hrun got.
  assert (Hdeb : forall ms, got = Settled ms false -> ms <> []).
  { intros ms Hg. unfold got, gathered in Hg.
    apply gather_settled in Hg. destruct Hg as [_ Hg].
    now apply settled_without_timeout_nonempty in Hg. }
  split; [exact Hdeb|].
  destruct (handler_returned _ _ _ _ _ _ _ _ Hrun) as [[Hne Hd]|[t [Hg [-> _]]]].
  - destruct (deliver_returned _ _ _ _ Hd) as [last [_ [Hout [Hst _]]]].
    split; [rewrite Hst; discriminate|].
    intros Hm. rewrite Hm in Hout.
    apply renderMessages_nil_inv in Hout. contradiction.
  - fold got in Hg. assert (t = true) as ->.
    { destruct t; [reflexivity|]. exfalso. now apply (Hdeb [] Hg). }
    split; [discriminate|].
    intros _. split; [reflexivity | exact Hg].
Qed.

Lemma no_messages_never_reported_witness :
  let got := gathered initialCursor quietClient None 1000 (Some "$x|2") silentSchedule in
  waitForMessagesHandler initialCursor (Some quietClient) None 1000 (Some "$x|2")
      silentSchedule
    = (Returned silentResponse, initialCursor)
  /\ (forall ms, got = Settled ms false -> ms <> [])
  /\ status silentResponse <> "no_messages"
  /\ (messages silentResponse = [] ->
      status silentResponse = "timeout" /\ got = Settled [] true).
Proof.
  split; [reflexivity|].
  apply (no_messages_never_reported initialCursor quietClient None 1000
           (Some "$x|2") silentSchedule silentResponse initialCursor).
  reflexivity.
Defined.

Lemma deliver_valid (ms : list CollectedMessage) (g : Cursor) :
  ms <> [] ->
  Forall (fun m => JS.valid_time (timestamp m) = true) ms ->
  exists out last,
    renderMessages ms = Some out
    /\ lastOf ms = Some last
    /\ deliver ms g
       = (Returned (mkResponse "messages_received" (Z.of_nat (List.length ms)) out
                               (Some (encodeToken (eventId last) (timestamp last)))),
          updateInternalCursor (eventId last) (timestamp last) g).
Proof.
  intros Hne Hv.
  destruct (lastOf_some ms Hne) as [last Hlast].
  destruct (renderMessages_valid ms Hv) as [out Hout].
  exists out, last. unfold deliver. rewrite Hlast, Hout. auto.
Qed.

(** ** Timeout *)

(** The state in which the timeout callback leaves an unresolved
    listener. *)
Lemma onTimeout_resolves (l : Listener) :
  resolved l = None -> resolved (onTimeout l) = Some (collected l, true).
Proof. unfold onTimeout, resolve. simpl. intros ->. reflexivity. Qed.

(** C5 (as amended).  Let the timeout timer expire while the promise is
    unresolved, that is before any debounce settle.  If no message has
    been collected the call returns [timeout] with an empty array.  If
    messages have been collected, their debounce timer still pending, the
    call hands them to the responder, which returns them as
    [messages_received] when their dates can be rendered. *)
Theorem timeout_settles_with_collected
    (g : Cursor) (client : MatrixClient) (roomIdArg : option string)
    (timeoutMs : Z) (sinceArg : option string)
    (pre post : list (N * occurrence)) (dt : N) :
  let timeout := Z.max timeoutMs 1000 in
  let sinceTimestamp := fst (parseSince sinceArg g) in
  let sinceEventId := snd (parseSince sinceArg g) in
  let before := listenerAfter client roomIdArg sinceTimestamp sinceEventId timeout pre in
  let run := waitForMessagesHandler g (Some client) roomIdArg timeoutMs sinceArg
               (pre ++ (dt, TimeoutExpiry) :: post) in
  catchUp client roomIdArg sinceTimestamp sinceEventId = Some [] ->
  resolved before = None ->
  JS.timerDelay timeout <= elapsed 0 pre + Z.of_N dt ->
  (collected before = [] ->
   run = (Returned (emptyResult true sinceArg), g)
   /\ status (emptyResult true sinceArg) = "timeout"
   /\ messages (emptyResult true sinceArg) = [])
  /\ (collected before <> [] ->
      run = deliver (collected before) g
      /\ (Forall (fun m => JS.valid_time (timestamp m) = true) (collected before) ->
          exists r g', run = (Returned r, g')
                       /\ status r = "messages_received"
                       /\ renderMessages (collected before) = Some (messages r))).
Proof.
  intros timeout sinceTimestamp sinceEventId before run Hscan Hres Hdue.
  assert (Hinv : listenerInv timeout before) by apply listenerAfter_inv.
  assert (Hrun : run = respond (Settled (collected before) true) sinceArg g).
  { unfold run, waitForMessagesHandler, gathered.
    fold timeout sinceTimestamp sinceEventId.
    rewrite (gather_live _ _ _ _ _ _ Hscan).
    unfold listenerAfter. rewrite runLoop_app. fold (listenerAfter client roomIdArg
      sinceTimestamp sinceEventId timeout pre). fold before.
    cbn [runLoop].
    set (now := elapsed 0 pre + Z.of_N dt).
    assert (Hstep : dispatch client roomIdArg sinceTimestamp sinceEventId now
                      TimeoutExpiry before = onTimeout before).
    { unfold listenerInv in Hinv. rewrite Hres in Hinv.
      destruct Hinv as [_ [Hth _]]. simpl. rewrite Hth.
      destruct (Z.leb_spec (JS.timerDelay timeout) now); [reflexivity | lia]. }
    rewrite Hstep.
    rewrite (runLoop_after_resolution _ _ _ _ timeout).
    - unfold awaited. rewrite (onTimeout_resolves _ Hres). reflexivity.
    - rewrite <- Hstep. now apply dispatch_inv.
    - rewrite (onTimeout_resolves _ Hres). discriminate. }
  split.
  - intros Hc. rewrite Hrun, Hc. simpl. auto.
  - intros Hc. assert (Hd : run = deliver (collected before) g).
    { rewrite Hrun. simpl. destruct (collected before); [congruence | reflexivity]. }
    split; [exact Hd|]. intros Hv.
    destruct (deliver_valid _ g Hc Hv) as [out [last [Hout [_ Hdel]]]].
    eexists. eexists. rewrite Hd, Hdel. repeat split. exact Hout.
Qed.

Lemma timeout_settles_with_collected_witness :
  let timeout := Z.max 1000 1000 in
  let before := listenerAfter quietClient None 0 None timeout [] in
  let run := waitForMessagesHandler initialCursor (Some quietClient) None 1000 None
               ([] ++ (1000%N, TimeoutExpiry) :: []) in
  catchUp quietClient None 0 None = Some []
  /\ resolved before = None
  /\ JS.timerDelay timeout <= elapsed 0 [] + Z.of_N 1000
  /\ (collected before = [] ->
      run = (Returned (emptyResult true None), initialCursor)
      /\ status (emptyResult true None) = "timeout"
      /\ messages (emptyResult true None) = [])
  /\ (collected before <> [] ->
      run = deliver (collected before) initialCursor
      /\ (Forall (fun m => JS.valid_time (timestamp m) = true) (collected before) ->
          exists r g', run = (Returned r, g')
                       /\ status r = "messages_received"
                       /\ renderMessages (collected before) = Some (messages r))).
Proof.
  split; [reflexivity|]. split; [reflexivity|]. split; [vm_compute; discriminate|].
  apply (timeout_settles_with_collected initialCursor quietClient None 1000 None
           [] [] 1000%N); [reflexivity | reflexivity | vm_compute; discriminate].
Defined.

(** C5 (as stated) fails for a wait of 1000 ms that hears a message after
    800 ms: when the timeout expires no debounce settle has occurred, the
    debounce timer of the message is pending until 1300 ms, one message
    has been collected, and the call returns [messages_received] with
    that message. *)
Lemma timeout_with_pending_message_counterexample :
  let before := listenerAfter quietClient None 0 None 1000
                  [ (800%N, Timeline (message "@u:hs" "!a" "$e" 10)) ] in
  resolved before = None
  /\ timeoutHandle before = Some 1000
  /\ debounceTimer before = Some 1300
  /\ List.length (collected before) = 1%nat
  /\ lateRun = (Returned lateResponse, lateCursor)
  /\ status lateResponse = "messages_received"
  /\ messageCount lateResponse = 1
  /\ map Wire.eventId (messages lateResponse) = ["$e"].
Proof. repeat split. Qed.

(** ** Empty results *)

(** C4 (as amended).  When a call returns no messages, the module cursor
    is left as it was, and the [since] field of the result is the
    supplied token if that token is a non-empty string; it is absent if
    no token, or the empty string, was supplied. *)
Theorem empty_result_echoes_token
    (g : Cursor) (session : option MatrixClient) (roomIdArg : option string)
    (timeoutMs : Z) (sinceArg : option string)
    (schedule : list (N * occurrence)) (r : Response) (g' : Cursor) :
  waitForMessagesHandler g session roomIdArg timeoutMs sinceArg schedule
    = (Returned r, g') ->
  messages r = [] ->
  g' = g
  /\ (forall s, sinceArg = Some s -> s <> "" -> since r = Some s)
  /\ (sinceArg = None \/ sinceArg = Some "" -> since r = None).
Proof.
  destruct session as [client|]; [|discriminate].
  intros Hrun Hm.
  destruct (handler_returned _ _ _ _ _ _ _ _ Hrun) as [[Hne Hd]|[t [_ [-> ->]]]].
  - destruct (deliver_returned _ _ _ _ Hd) as [last [_ [Hout _]]].
    rewrite Hm in Hout. apply renderMessages_nil_inv in Hout. contradiction.
  - split; [reflexivity|]. split.
    + intros s -> Hs. destruct s; [congruence | reflexivity].
    + intros [->| ->]; reflexivity.
Qed.

Lemma empty_result_echoes_token_witness :
  waitForMessagesHandler initialCursor (Some quietClient) None 1000 (Some "$x|2")
      silentSchedule
    = (Returned silentResponse, initialCursor)
  /\ messages silentResponse = []
  /\ initialCursor = initialCursor
  /\ (forall s, Some "$x|2" = Some s -> s <> "" -> since silentResponse = Some s)
  /\ (Some "$x|2" = None \/ Some "$x|2" = Some "" -> since silentResponse = None).
Proof.
  split; [reflexivity|]. split; [reflexivity|].
  apply (empty_result_echoes_token initialCursor (Some quietClient) None 1000
           (Some "$x|2") silentSchedule silentResponse initialCursor); reflexivity.
Defined.

(** C4 (as stated) fails for the empty string: it is a supplied token,
    and the result of a wait that hears nothing has no [since] field. *)
Lemma empty_token_not_echoed_counterexample :
  waitForMessagesHandler initialCursor (Some quietClient) None 1000 (Some "")
      silentSchedule
    = (Returned (mkResponse "timeout" 0 [] None), initialCursor)
  /\ since (mkResponse "timeout" 0 [] None) <> Some "".
Proof. split; [reflexivity | discriminate]. Qed.

(** ** Where the returned messages come from *)

Lemma Forall2_Permutation_r {A B : Type} (R : A -> B -> Prop)
    (l2 l2' : list B) :
  Permutation l2 l2' ->
  forall l1, Forall2 R l1 l2 ->
  exists l1', Permutation l1 l1' /\ Forall2 R l1' l2'.
Proof.
  induction 1 as [|y l2 l2' _ IH|y z l2|l2 l2' l2'' _ IH1 _ IH2]; intros l1 H.
  - inversion H; subst. exists []. split; constructor.
  - inversion H as [|x ? l1t ? Hxy Ht]; subst.
    destruct (IH _ Ht) as [l1' [Hp Hf]].
    exists (x :: l1'). split; [now constructor | now constructor].
  - inversion H as [|x ? l1t ? Hx Ht]; subst.
    inversion Ht as [|x' ? l1u ? Hx' Hu]; subst.
    exists (x' :: x :: l1u). split; [apply perm_swap|].
    now repeat constructor.
  - destruct (IH1 _ H) as [la [Hpa Hfa]].
    destruct (IH2 _ Hfa) as [lb [Hpb Hfb]].
    exists lb. split; [now transitivity la | exact Hfb].
Qed.

Lemma collectEach_Forall2 (collect : MatrixEvent -> option CollectedMessage)
    (events : list MatrixEvent) :
  forall ms, collectEach collect events = Some ms ->
             Forall2 (fun e m => collect e = Some m) events ms.
Proof.
  induction events as [|e events IH]; simpl; intros ms.
  - intros [= <-]. constructor.
  - destruct (collect e) as [m|] eqn:E; [|discriminate].
    destruct (collectEach collect events) as [ms'|]; [|discriminate].
    intros [= <-]. constructor; [exact E | now apply IH].
Qed.

Lemma scanCollect_collectedFrom (room : Room) (e : MatrixEvent) (m : CollectedMessage) :
  scanCollect room e = Some m -> collectedFrom e m.
Proof.
  unfold scanCollect, collectedFrom.
  destruct (JS.string_or_empty (getBody e)) as [text|]; [|discriminate].
  intros [= <-]. simpl. auto 10.
Qed.

Section Provenance.

Variable client : MatrixClient.

Lemma pulledFrom_nil (pool : list MatrixEvent) : pulledFrom client pool [].
Proof. exists []. split; constructor. Qed.

Lemma pulledFrom_incl (pool pool' : list MatrixEvent) (ms : list CollectedMessage) :
  incl pool pool' -> pulledFrom client pool ms -> pulledFrom client pool' ms.
Proof.
  intros Hi [events [Hev Hf]]. exists events. split; [|exact Hf].
  eapply Forall_impl; [|exact Hev]. intros e [Hin Hs]. split; [now apply Hi | exact Hs].
Qed.

Lemma pulledFrom_app (pool : list MatrixEvent) (a b : list CollectedMessage) :
  pulledFrom client pool a -> pulledFrom client pool b ->
  pulledFrom client pool (a ++ b).
Proof.
  intros [ea [Ha Fa]] [eb [Hb Fb]]. exists (ea ++ eb)%list. split.
  - apply Forall_app. now split.
  - now apply Forall2_app.
Qed.

Lemma pulledFrom_Permutation (pool : list MatrixEvent) (a b : list CollectedMessage) :
  Permutation a b -> pulledFrom client pool a -> pulledFrom client pool b.
Proof.
  intros Hp [events [Hev Hf]].
  destruct (Forall2_Permutation_r _ _ _ Hp _ Hf) as [events' [Hpe Hf']].
  exists events'. split; [|exact Hf'].
  eapply Permutation_Forall; eassumption.
Qed.

Lemma scanKeeps_not_self (cts : Z) (cid : option string) (e : MatrixEvent) :
  scanKeeps (getUserId client) cts cid e = true -> selfAuthored client e = false.
Proof.
  unfold scanKeeps, selfAuthored.
  destruct (negb _); [discriminate|].
  destruct (JS.strict_eq_undef_null _ _); [discriminate | reflexivity].
Qed.

Lemma liveKeeps_not_self (roomIdArg : option string) (cts : Z) (cid : option string)
    (e : MatrixEvent) :
  liveKeeps client roomIdArg cts cid e = true -> selfAuthored client e = false.
Proof.
  unfold liveKeeps, selfAuthored.
  destruct (negb _); [discriminate|].
  destruct (JS.strict_eq_undef_null _ _); [discriminate | reflexivity].
Qed.

Lemma scanRoom_pulled (cts : Z) (cid : option string) (r : Room)
    (ms : list CollectedMessage) :
  scanRoom (getUserId client) cts cid r = Some ms ->
  pulledFrom client (getLiveTimelineEvents r) ms.
Proof.
  unfold scanRoom. intros H. apply collectEach_Forall2 in H.
  exists (filter (scanKeeps (getUserId client) cts cid) (getLiveTimelineEvents r)).
  split.
  - apply Forall_forall. intros e He. apply filter_In in He.
    destruct He as [Hin Hk]. split; [exact Hin | now apply scanKeeps_not_self in Hk].
  - eapply Forall2_impl; [|exact H]. intros e m. apply scanCollect_collectedFrom.
Qed.

Lemma scanRooms_pulled (cts : Z) (cid : option string) (rooms : list Room) :
  forall ms,
    scanRooms (getUserId client) cts cid rooms = Some ms ->
    pulledFrom client (flat_map getLiveTimelineEvents rooms) ms.
Proof.
  induction rooms as [|r rooms IH]; simpl; intros ms.
  - intros [= <-]. apply pulledFrom_nil.
  - destruct (scanRoom (getUserId client) cts cid r) as [found|] eqn:Er; [|discriminate].
    destruct (scanRooms (getUserId client) cts cid rooms) as [more|]; [|discriminate].
    intros [= <-]. apply pulledFrom_app.
    + eapply pulledFrom_incl; [|apply (scanRoom_pulled _ _ _ _ Er)].
      apply incl_appl, incl_refl.
    + eapply pulledFrom_incl; [|now apply IH]. apply incl_appr, incl_refl.
Qed.

Lemma roomsToScan_incl (roomIdArg : option string) :
  incl (roomsToScan client roomIdArg) (getRooms client).
Proof.
  unfold roomsToScan. destruct roomIdArg as [id|]; [|apply incl_refl].
  destruct (JS.truthy_string id); [|apply incl_refl].
  unfold getRoom. destruct (find _ _) as [r|] eqn:E; [|apply incl_nil_l].
  apply find_some in E. intros x [<-|[]]. apply E.
Qed.

Lemma flat_map_incl {A B : Type} (f : A -> list B) (l l' : list A) :
  incl l l' -> incl (flat_map f l) (flat_map f l').
Proof.
  intros Hi y Hy. apply in_flat_map in Hy. destruct Hy as [x [Hx Hy]].
  apply in_flat_map. exists x. split; [now apply Hi | exact Hy].
Qed.

Lemma catchUp_pulled (roomIdArg : option string) (cts : Z) (cid : option string)
    (ms : list CollectedMessage) :
  catchUp client roomIdArg cts cid = Some ms ->
  pulledFrom client (flat_map getLiveTimelineEvents (getRooms client)) ms.
Proof.
  unfold catchUp. destruct (JS.truthy_num cts);
    [|intros [= <-]; apply pulledFrom_nil].
  intros H. eapply pulledFrom_incl; [|apply (scanRooms_pulled _ _ _ _ H)].
  apply flat_map_incl, roomsToScan_incl.
Qed.

Lemma liveCollect_collectedFrom (e : MatrixEvent) (m : CollectedMessage) :
  liveCollect client e = Some m -> collectedFrom e m.
Proof.
  unfold liveCollect, collectedFrom.
  destruct (JS.string_or_empty (getBody e)) as [text|]; [|discriminate].
  intros [= <-]. simpl. auto 10.
Qed.

Lemma runLoop_pulled (roomIdArg : option string) (cts : Z) (cid : option string)
    (pool : list MatrixEvent) (schedule : list (N * occurrence)) :
  forall (clock : Z) (l : Listener),
    incl (notified schedule) pool ->
    pulledFrom client pool (collected l) ->
    pulledFrom client pool (collected (runLoop client roomIdArg cts cid clock schedule l)).
Proof.
  induction schedule as [|[dt o] rest IH]; simpl; intros clock l Hi Hl; [exact Hl|].
  apply IH; [intros x Hx; apply Hi, in_or_app; now right|].
  destruct o as [e| |]; simpl.
  - destruct (subscribed l); [|exact Hl].
    unfold onEvent. destruct (liveKeeps client roomIdArg cts cid e) eqn:Hk; [|exact Hl].
    destruct (liveCollect client e) as [m|] eqn:Em; [|exact Hl].
    simpl. apply pulledFrom_app; [exact Hl|].
    exists [e]. split.
    + constructor; [|constructor]. split.
      * apply Hi. simpl. now left.
      * now apply liveKeeps_not_self in Hk.
    + constructor; [now apply liveCollect_collectedFrom | constructor].
  - destruct (debounceTimer l) as [due|]; [|exact Hl].
    destruct (due <=? _); [|exact Hl].
    unfold onDebounce, resolve. simpl. destruct (resolved l); exact Hl.
  - destruct (timeoutHandle l) as [due|]; [|exact Hl].
    destruct (due <=? _); [|exact Hl].
    unfold onTimeout, resolve. simpl. destruct (resolved l); exact Hl.
Qed.

(** Whatever a call has gathered was collected from events it has seen
    and that the user of the session did not send. *)
Lemma gather_pulled (roomIdArg : option string) (timeout cts : Z) (cid : option string)
    (schedule : list (N * occurrence)) :
  pulledFrom client (seenEvents client schedule)
             (batchOf (gather client roomIdArg timeout cts cid schedule)).
Proof.
  unfold gather.
  destruct (catchUp client roomIdArg cts cid) as [[|m caught]|] eqn:E.
  - pose proof (listenerAfter_inv client roomIdArg cts cid timeout schedule) as Hinv.
    unfold listenerInv, listenerAfter in Hinv. unfold awaited.
    destruct (resolved _) as [[ms t]|] eqn:Hr; simpl; [|apply pulledFrom_nil].
    destruct Hinv as [_ [-> _]].
    eapply pulledFrom_incl; [apply incl_appr, incl_refl|].
    apply runLoop_pulled; [apply incl_refl | apply pulledFrom_nil].
  - cbn [batchOf].
    eapply pulledFrom_Permutation; [symmetry; apply sortByTimestamp_perm|].
    eapply pulledFrom_incl; [apply incl_appl, incl_refl | apply (catchUp_pulled _ _ _ _ E)].
  - apply pulledFrom_nil.
Qed.

End Provenance.

Lemma or_else_nonempty (a : option string) (u : string) :
  JS.or_else a "" = u -> u <> "" -> a = Some u.
Proof.
  destruct a as [x|]; simpl; [|congruence].
  unfold JS.or_string. destruct x; simpl; congruence.
Qed.

(** ** Self echo *)

(** C6.  The [messages] of every returned result are, element by
    element, renderings of objects collected from events that the call
    saw (in a buffered timeline or in a notification) and whose sender is
    not the user of the session; in particular no returned message
    carries the user id of the session as its sender. *)
Theorem no_self_echo
    (g : Cursor) (client : MatrixClient) (roomIdArg : option string)
    (timeoutMs : Z) (sinceArg : option string)
    (schedule : list (N * occurrence)) (r : Response) (g' : Cursor) :
  waitForMessagesHandler g (Some client) roomIdArg timeoutMs sinceArg schedule
    = (Returned r, g') ->
  (exists batch,
     pulledFrom client (seenEvents client schedule) batch
     /\ Forall2 renderedFrom batch (messages r))
  /\ (forall u, getUserId client = Some u -> u <> "" ->
      Forall (fun w => Wire.sender w <> u) (messages r)).
Proof.
  intros Hrun.
  assert (H : exists batch,
     pulledFrom client (seenEvents client schedule) batch
     /\ Forall2 renderedFrom batch (messages r)).
  { destruct (handler_returned _ _ _ _ _ _ _ _ Hrun) as [[_ Hd]|[t [_ [-> _]]]].
    - destruct (deliver_returned _ _ _ _ Hd) as [last [_ [Hout _]]].
      exists (batchOf (gathered g client roomIdArg timeoutMs sinceArg schedule)).
      split; [unfold gathered; apply gather_pulled | now apply renderMessages_Forall2].
    - exists []. split; [apply pulledFrom_nil | constructor]. }
  split; [exact H|].
  intros u Hu Hne. destruct H as [batch [[events [Hev Hc]] Hr]].
  clear Hrun. revert events Hev Hc.
  induction Hr as [|m w batch out Hmw _ IH]; intros events Hev Hc; [constructor|].
  inversion Hc as [|e ? events' ? Hem Hc']; subst.
  inversion Hev as [|? ? [_ Hself] Hev']; subst.
  constructor; [|now apply (IH events')].
  intros Hw. destruct Hmw as [_ [_ [Hs _]]]. destruct Hem as [_ [Hs' _]].
  rewrite Hs, Hs' in Hw. apply or_else_nonempty in Hw; [|exact Hne].
  unfold selfAuthored in Hself. rewrite Hw, Hu in Hself. simpl in Hself.
  rewrite String.eqb_refl in Hself. discriminate.
Qed.

Lemma no_self_echo_witness :
  caughtUpRun = (Returned caughtUpResponse, caughtUpCursor)
  /\ (exists batch,
        pulledFrom sampleClient (seenEvents sampleClient []) batch
        /\ Forall2 renderedFrom batch (messages caughtUpResponse))
  /\ (forall u, getUserId sampleClient = Some u -> u <> "" ->
      Forall (fun w => Wire.sender w <> u) (messages caughtUpResponse)).
Proof.
  split; [reflexivity|].
  apply (no_self_echo initialCursor sampleClient None 1000 (Some "$x|2") []
           caughtUpResponse caughtUpCursor).
  reflexivity.
Defined.

(** ** Decimal rendering and [parseInt] *)

Lemma read_digits_numeral (d : Decimal.uint) :
  forall acc, JS.read_digits (NilEmpty.string_of_uint d) acc true
              = Some (decimalValue d acc).
Proof.
  induction d; intros acc; cbn; try apply IHd. reflexivity.
Qed.

Lemma decimalValue_acc (d : Decimal.uint) :
  forall acc : positive,
    decimalValue d (Z.pos acc) = Z.pos (Pos.of_uint_acc d acc).
Proof.
  induction d; intros acc; cbn [decimalValue Pos.of_uint_acc];
    try reflexivity;
    match goal with
    | |- decimalValue _ ?z = Z.pos (Pos.of_uint_acc _ ?q) =>
        replace z with (Z.pos q) by lia; apply IHd
    end.
Qed.

Lemma decimalValue_of_uint (d : Decimal.uint) :
  decimalValue d 0 = Z.of_N (Pos.of_uint d).
Proof.
  induction d; cbn [decimalValue Pos.of_uint]; try exact IHd;
    try reflexivity;
    match goal with
    | |- decimalValue _ ?z = _ =>
        change z with (Z.pos (Z.to_pos z)); rewrite decimalValue_acc; reflexivity
    end.
Qed.

Lemma read_digits_to_uint (p : positive) :
  JS.read_digits (NilEmpty.string_of_uint (Pos.to_uint p)) 0 false = Some (Z.pos p).
Proof.
  pose proof (DecimalPos.Unsigned.of_to p) as Hp.
  pose proof (DecimalPos.Unsigned.to_uint_nonnil p) as Hn.
  rewrite <- (f_equal Z.of_N Hp) at 1. rewrite <- decimalValue_of_uint.
  destruct (Pos.to_uint p); [congruence| ..]; cbn; apply read_digits_numeral.
Qed.

Lemma string_of_uint_nonnil (d : Decimal.uint) :
  d <> Decimal.Nil -> NilZero.string_of_uint d = NilEmpty.string_of_uint d.
Proof. destruct d; [congruence| ..]; reflexivity. Qed.

Lemma parseInt_minus (s : string) :
  JS.parseInt (String "-" s) = option_map Z.opp (JS.read_digits s 0 false).
Proof. reflexivity. Qed.

Lemma parseInt_numeral (d : Decimal.uint) :
  d <> Decimal.Nil ->
  JS.parseInt (NilEmpty.string_of_uint d)
  = JS.read_digits (NilEmpty.string_of_uint d) 0 false.
Proof. destruct d; [congruence| ..]; reflexivity. Qed.

(** [parseInt] reads back what a template literal renders. *)
Lemma parseInt_number_to_string (z : Z) :
  JS.parseInt (JS.number_to_string z) = Some z.
Proof.
  unfold JS.number_to_string. destruct z as [|p|p]; [reflexivity| |];
    pose proof (DecimalPos.Unsigned.to_uint_nonnil p) as Hn;
    cbn [Z.to_int NilZero.string_of_int];
    rewrite (string_of_uint_nonnil _ Hn).
  - rewrite (parseInt_numeral _ Hn). apply read_digits_to_uint.
  - rewrite parseInt_minus, read_digits_to_uint. reflexivity.
Qed.

(** ** Fields of a token *)

Lemma split_nonempty (sep : ascii) (s : string) : JS.split sep s <> [].
Proof.
  destruct s as [|c s]; simpl; [discriminate|].
  destruct (Ascii.eqb c sep); [discriminate|].
  destruct (JS.split sep s); discriminate.
Qed.

Lemma split_no_sep (sep : ascii) (s : string) :
  hasChar sep s = false -> JS.split sep s = [s].
Proof.
  induction s as [|c s IH]; simpl; [reflexivity|].
  intros H. apply orb_false_iff in H. destruct H as [Hc Hs].
  rewrite Hc, (IH Hs). reflexivity.
Qed.

Lemma split_app_sep (sep : ascii) (a b : string) :
  hasChar sep a = false ->
  JS.split sep (a ++ String sep b) = a :: JS.split sep b.
Proof.
  induction a as [|c a IH]; simpl.
  - intros _. now rewrite Ascii.eqb_refl.
  - intros H. apply orb_false_iff in H. destruct H as [Hc Ha].
    rewrite Hc, (IH Ha). reflexivity.
Qed.

Lemma split_app_length (sep : ascii) (a b : string) :
  List.length (JS.split sep (a ++ String sep b))
  = (List.length (JS.split sep a) + List.length (JS.split sep b))%nat.
Proof.
  induction a as [|c a IH]; simpl.
  - now rewrite Ascii.eqb_refl.
  - destruct (Ascii.eqb c sep); simpl; [now rewrite IH|].
    pose proof (split_nonempty sep (a ++ String sep b)) as Hn.
    pose proof (split_nonempty sep a) as Hn'.
    destruct (JS.split sep (a ++ String sep b)); [congruence|].
    destruct (JS.split sep a); [congruence|].
    simpl in *. exact IH.
Qed.

Lemma split_length_sep (sep : ascii) (s : string) :
  hasChar sep s = true -> (2 <= List.length (JS.split sep s))%nat.
Proof.
  induction s as [|c s IH]; simpl; [discriminate|].
  destruct (Ascii.eqb c sep); simpl.
  - intros _. pose proof (split_nonempty sep s).
    destruct (JS.split sep s); [congruence | simpl; lia].
  - intros H. specialize (IH H).
    destruct (JS.split sep s); simpl in *; lia.
Qed.

Lemma hasChar_numeral (d : Decimal.uint) :
  hasChar "|" (NilEmpty.string_of_uint d) = false.
Proof. induction d; simpl; auto. Qed.

Lemma hasChar_number_to_string (z : Z) :
  hasChar "|" (JS.number_to_string z) = false.
Proof.
  unfold JS.number_to_string.
  destruct z as [|p|p]; [reflexivity| |];
    pose proof (DecimalPos.Unsigned.to_uint_nonnil p) as Hn;
    cbn [Z.to_int NilZero.string_of_int];
    rewrite (string_of_uint_nonnil _ Hn); simpl; apply hasChar_numeral.
Qed.

Lemma encodeToken_truthy (eid : string) (ts : Z) :
  JS.truthy_string (encodeToken eid ts) = true.
Proof. unfold encodeToken. destruct eid; reflexivity. Qed.

Lemma parseSince_encodeToken (eid : string) (ts : Z) (g : Cursor) :
  hasChar "|" eid = false ->
  parseSince (Some (encodeToken eid ts)) g = (ts, Some eid).
Proof.
  intros H. unfold parseSince. rewrite encodeToken_truthy.
  unfold encodeToken. change ("|" ++ JS.number_to_string ts)
    with (String "|" (JS.number_to_string ts)).
  rewrite (split_app_sep _ _ _ H).
  rewrite (split_no_sep _ _ (hasChar_number_to_string ts)).
  now rewrite parseInt_number_to_string.
Qed.

(** ** Malformed tokens *)

Lemma parseSince_fields (s p0 p1 : string) (g : Cursor) :
  s <> "" -> JS.split "|" s = [p0; p1] ->
  parseSince (Some s) g = (JS.or_zero (JS.parseInt p1), Some p0).
Proof.
  intros Hs Hf. unfold parseSince.
  destruct s as [|c s]; [congruence|]. cbn [JS.truthy_string].
  now rewrite Hf.
Qed.

Lemma parseSince_readsNoNumber (s : string) (g : Cursor) :
  s <> "" -> readsNoNumber s -> fst (parseSince (Some s) g) = 0.
Proof.
  intros Hs Hm. unfold parseSince, readsNoNumber in *.
  destruct s as [|c s]; [congruence|]. cbn [JS.truthy_string].
  destruct (JS.split "|" (String c s)) as [|p0 [|p1 [|p2 ps]]]; try reflexivity.
  rewrite Hm. reflexivity.
Qed.

Lemma split_fields_no_sep (sep : ascii) (s : string) :
  Forall (fun f => hasChar sep f = false) (JS.split sep s).
Proof.
  induction s as [|c s IH]; simpl; [repeat constructor|].
  destruct (Ascii.eqb c sep) eqn:Hc; [now constructor|].
  destruct (JS.split sep s) as [|f fs]; [repeat constructor; simpl; now rewrite Hc|].
  inversion IH as [|? ? Hf Hfs]; subst.
  constructor; [simpl; now rewrite Hc, Hf | exact Hfs].
Qed.

(** A numeric field is read in full by [parseInt]. *)
Lemma read_digits_digitsOnly (s : string) :
  digitsOnly s = true -> forall acc, exists n, JS.read_digits s acc true = Some n.
Proof.
  induction s as [|c s IH]; simpl; intros H acc; [now exists acc|].
  destruct (JS.digit_value c) as [d|]; [|discriminate]. now apply IH.
Qed.

Lemma read_digits_numeral_field (s : string) :
  numeral s = true -> exists n, JS.read_digits s 0 false = Some n.
Proof.
  destruct s as [|c s]; [discriminate|]. simpl.
  destruct (JS.digit_value c) as [d|]; [|discriminate].
  intros H. now apply read_digits_digitsOnly.
Qed.

Lemma parseInt_digit_head (c : ascii) (rest : string) :
  JS.digit_value c <> None ->
  JS.parseInt (String c rest) = JS.read_digits (String c rest) 0 false.
Proof.
  destruct c as [[] [] [] [] [] [] [] []]; intros H;
    first [ exfalso; apply H; reflexivity | reflexivity ].
Qed.

Lemma parseInt_numericField (p : string) :
  numericField p = true -> exists n, JS.parseInt p = Some n.
Proof.
  destruct p as [|c rest]; [discriminate|].
  destruct (Ascii.eqb_spec c "-") as [->|Hc].
  - cbn [numericField]. intros H. rewrite parseInt_minus.
    destruct (read_digits_numeral_field _ H) as [n ->]. now exists (- n).
  - intros H.
    assert (Hn : numeral (String c rest) = true).
    { revert H. unfold numericField.
      destruct c as [[] [] [] [] [] [] [] []]; try exact (fun H => H).
      congruence. }
    rewrite parseInt_digit_head.
    + now apply read_digits_numeral_field.
    + simpl in Hn. destruct (JS.digit_value c); [discriminate | discriminate Hn].
Qed.

(** The tokens from which the handler reads no number are malformed in
    the sense of the specification; the converse fails, see below. *)
Lemma readsNoNumber_malformedAsSpecified (s : string) :
  readsNoNumber s -> malformedAsSpecified s.
Proof.
  unfold readsNoNumber, malformedAsSpecified.
  destruct (JS.split "|" s) as [|p0 [|p1 [|p2 ps]]]; try exact (fun H => H).
  intros H. destruct (numericField p1) eqn:E; [|reflexivity].
  destruct (parseInt_numericField _ E) as [n Hn]. congruence.
Qed.

(** With a zero timestamp the cursor id plays no part in the listener. *)
Lemma liveKeeps_zero (client : MatrixClient) (roomIdArg cid : option string)
    (e : MatrixEvent) :
  liveKeeps client roomIdArg 0 cid e = liveKeeps client roomIdArg 0 None e.
Proof. reflexivity. Qed.

Lemma runLoop_zero (client : MatrixClient) (roomIdArg cid : option string)
    (schedule : list (N * occurrence)) :
  forall (clock : Z) (l : Listener),
    runLoop client roomIdArg 0 cid clock schedule l
    = runLoop client roomIdArg 0 None clock schedule l.
Proof.
  induction schedule as [|[dt o] rest IH]; simpl; intros clock l; [reflexivity|].
  rewrite IH. f_equal.
Qed.

Lemma gather_zero (client : MatrixClient) (roomIdArg cid : option string)
    (timeout : Z) (schedule : list (N * occurrence)) :
  gather client roomIdArg timeout 0 cid schedule
  = awaited (listenerAfter client roomIdArg 0 None timeout schedule).
Proof.
  unfold gather, catchUp, listenerAfter. simpl. now rewrite runLoop_zero.
Qed.

Lemma deliver_failed_indep (ms : list CollectedMessage) (g g' : Cursor) :
  fst (deliver ms g) = Failed -> fst (deliver ms g') = Failed.
Proof.
  unfold deliver. destruct (lastOf ms); [|reflexivity].
  destruct (renderMessages ms); [discriminate | reflexivity].
Qed.

(** Whether the responder fails depends on what was gathered only. *)
Lemma respond_failed_indep (got : Gathered) (s s' : option string) (g g' : Cursor) :
  fst (respond got s g) = Failed <-> fst (respond got s' g') = Failed.
Proof.
  destruct got as [batch|[|m batch] t| |]; simpl;
    split; try discriminate; try apply deliver_failed_indep; reflexivity.
Qed.

(** C7 (as amended).  Take a non-empty token that is malformed as the
    specification words it: not exactly two fields, or a second field
    that is not a decimal integer numeral.

    If the handler reads no number from it (wrong shape, or [parseInt]
    returns [NaN] on the second field), the cursor timestamp is 0: the
    catch-up scan is skipped, the call gathers what a call without token
    and without module cursor gathers, and it fails exactly when that
    call fails.  The module cursor is not consulted, and the token is the
    one handed to the responder.

    Otherwise the token has two fields and the second one, although not
    numeric, begins with an integer [n], as ["12abc"], ["5.9"] and
    ["1e3"] do: the token is not set aside but used as the cursor made of
    its first field and [n]; the call gathers what it gathers for the
    well-formed token of that pair, and fails exactly when the call with
    that token fails. *)
Theorem malformed_token_is_empty_or_truncated_cursor
    (g : Cursor) (client : MatrixClient) (roomIdArg : option string)
    (timeoutMs : Z) (s : string) (schedule : list (N * occurrence)) :
  s <> "" ->
  malformedAsSpecified s ->
  let run := waitForMessagesHandler g (Some client) roomIdArg timeoutMs (Some s) schedule in
  let bare := waitForMessagesHandler initialCursor (Some client) roomIdArg timeoutMs
                None schedule in
  (readsNoNumber s ->
   fst (parseSince (Some s) g) = 0
   /\ catchUp client roomIdArg (fst (parseSince (Some s) g))
              (snd (parseSince (Some s) g)) = Some []
   /\ gathered g client roomIdArg timeoutMs (Some s) schedule
      = gathered initialCursor client roomIdArg timeoutMs None schedule
   /\ run = respond (gathered initialCursor client roomIdArg timeoutMs None schedule)
                    (Some s) g
   /\ (fst run = Failed <-> fst bare = Failed))
  /\ (~ readsNoNumber s ->
      exists p0 p1 n,
        JS.split "|" s = [p0; p1]
        /\ numericField p1 = false
        /\ JS.parseInt p1 = Some n
        /\ parseSince (Some s) g = (n, Some p0)
        /\ gathered g client roomIdArg timeoutMs (Some s) schedule
           = gathered g client roomIdArg timeoutMs (Some (encodeToken p0 n)) schedule
        /\ run = respond (gathered g client roomIdArg timeoutMs
                                   (Some (encodeToken p0 n)) schedule)
                         (Some s) g
        /\ (fst run = Failed
            <-> fst (waitForMessagesHandler g (Some client) roomIdArg timeoutMs
                       (Some (encodeToken p0 n)) schedule) = Failed)).
Proof.
  intros Hs Hspec run bare. split.
  - intros Hm.
    pose proof (parseSince_readsNoNumber s g Hs Hm) as H0.
    assert (Hg : gathered g client roomIdArg timeoutMs (Some s) schedule
                 = gathered initialCursor client roomIdArg timeoutMs None schedule).
    { unfold gathered. rewrite H0. cbn [parseSince initialCursor lastSeenTimestamp
        JS.truthy_num Z.eqb negb fst snd]. now rewrite !gather_zero. }
    split; [exact H0|]. split; [rewrite H0; reflexivity|]. split; [exact Hg|].
    assert (Hrun : run = respond (gathered initialCursor client roomIdArg timeoutMs
                                            None schedule) (Some s) g).
    { unfold run, waitForMessagesHandler. now rewrite Hg. }
    split; [exact Hrun|].
    rewrite Hrun. unfold bare, waitForMessagesHandler. apply respond_failed_indep.
  - intros Hm. unfold readsNoNumber, malformedAsSpecified in *.
    pose proof (split_fields_no_sep "|" s) as Hsep.
    destruct (JS.split "|" s) as [|p0 [|p1 [|p2 ps]]] eqn:Hf;
      try (exfalso; apply Hm; exact I).
    destruct (JS.parseInt p1) as [n|] eqn:Hn; [|exfalso; now apply Hm].
    inversion Hsep as [|? ? Hp0 _]; subst.
    assert (Hp : parseSince (Some s) g = (n, Some p0)).
    { rewrite (parseSince_fields _ _ _ _ Hs Hf), Hn. reflexivity. }
    assert (Hg : gathered g client roomIdArg timeoutMs (Some s) schedule
                 = gathered g client roomIdArg timeoutMs (Some (encodeToken p0 n))
                            schedule).
    { unfold gathered. now rewrite Hp, (parseSince_encodeToken _ n g Hp0). }
    exists p0, p1, n. repeat (split; [assumption || reflexivity|]).
    assert (Hrun : run = respond (gathered g client roomIdArg timeoutMs
                                            (Some (encodeToken p0 n)) schedule)
                                 (Some s) g).
    { unfold run, waitForMessagesHandler. now rewrite Hg. }
    split; [exact Hrun|].
    rewrite Hrun. unfold waitForMessagesHandler. apply respond_failed_indep.
Qed.

Lemma malformed_token_is_empty_or_truncated_cursor_witness :
  let run := waitForMessagesHandler earlierCursor (Some sampleClient) None 1000
               (Some "$x|2abc") silentSchedule in
  let bare := waitForMessagesHandler initialCursor (Some sampleClient) None 1000
                None silentSchedule in
  "$x|2abc" <> ""
  /\ malformedAsSpecified "$x|2abc"
  /\ (readsNoNumber "$x|2abc" ->
      fst (parseSince (Some "$x|2abc") earlierCursor) = 0
      /\ catchUp sampleClient None (fst (parseSince (Some "$x|2abc") earlierCursor))
                 (snd (parseSince (Some "$x|2abc") earlierCursor)) = Some []
      /\ gathered earlierCursor sampleClient None 1000 (Some "$x|2abc") silentSchedule
         = gathered initialCursor sampleClient None 1000 None silentSchedule
      /\ run = respond (gathered initialCursor sampleClient None 1000 None silentSchedule)
                       (Some "$x|2abc") earlierCursor
      /\ (fst run = Failed <-> fst bare = Failed))
  /\ (~ readsNoNumber "$x|2abc" ->
      exists p0 p1 n,
        JS.split "|" "$x|2abc" = [p0; p1]
        /\ numericField p1 = false
        /\ JS.parseInt p1 = Some n
        /\ parseSince (Some "$x|2abc") earlierCursor = (n, Some p0)
        /\ gathered earlierCursor sampleClient None 1000 (Some "$x|2abc") silentSchedule
           = gathered earlierCursor sampleClient None 1000 (Some (encodeToken p0 n))
                      silentSchedule
        /\ run = respond (gathered earlierCursor sampleClient None 1000
                                   (Some (encodeToken p0 n)) silentSchedule)
                         (Some "$x|2abc") earlierCursor
        /\ (fst run = Failed
            <-> fst (waitForMessagesHandler earlierCursor (Some sampleClient) None 1000
                       (Some (encodeToken p0 n)) silentSchedule) = Failed)).
Proof.
  split; [discriminate|]. split; [reflexivity|].
  apply (malformed_token_is_empty_or_truncated_cursor earlierCursor sampleClient None
           1000 "$x|2abc" silentSchedule); [discriminate | reflexivity].
Defined.

(** C7 (as stated) fails in two ways.

    A malformed token from which no number is read is not treated like
    an omitted one: with a module cursor left by an earlier delivery, the
    call without token catches up on the buffered messages while the call
    with the token ["garbage"] skips the scan and waits; and a wait that
    hears nothing echoes ["garbage"] where the call without token returns
    no [since] field.

    A token whose timestamp field is not numeric but begins with digits
    is not set aside at all.  The fields ["12abc"], ["5.9"] and ["1e3"]
    are read as 12, 5 and 1.  A first call hears the message ["$e"] with
    timestamp 10 and returns it; the same call with the token
    ["$a|12abc"] takes 12 for its cursor, drops the message and times
    out; and the call with the token ["$x|2abc"] catches up on the sample
    session exactly as with ["$x|2"], where a call without cursor does
    not scan. *)
Lemma malformed_token_unlike_absent_counterexample :
  (malformedAsSpecified "garbage"
   /\ waitForMessagesHandler earlierCursor (Some sampleClient) None 1000 None []
      = (Returned caughtUpResponse, caughtUpCursor)
   /\ waitForMessagesHandler earlierCursor (Some sampleClient) None 1000 (Some "garbage") []
      = (Pending, earlierCursor)
   /\ waitForMessagesHandler initialCursor (Some quietClient) None 1000 None silentSchedule
      = (Returned (mkResponse "timeout" 0 [] None), initialCursor)
   /\ waitForMessagesHandler initialCursor (Some quietClient) None 1000 (Some "garbage")
                             silentSchedule
      = (Returned (mkResponse "timeout" 0 [] (Some "garbage")), initialCursor))
  /\ (malformedAsSpecified "$a|12abc"
      /\ malformedAsSpecified "$a|5.9"
      /\ malformedAsSpecified "$a|1e3"
      /\ parseSince (Some "$a|12abc") initialCursor = (12, Some "$a")
      /\ parseSince (Some "$a|5.9") initialCursor = (5, Some "$a")
      /\ parseSince (Some "$a|1e3") initialCursor = (1, Some "$a")
      /\ heardRun = (Returned heardResponse, heardCursor)
      /\ status heardResponse = "messages_received"
      /\ map Wire.eventId (messages heardResponse) = ["$e"]
      /\ waitForMessagesHandler initialCursor (Some quietClient) None 1000
                                (Some "$a|12abc") oneMessageSchedule
         = (Returned (mkResponse "timeout" 0 [] (Some "$a|12abc")), initialCursor)
      /\ waitForMessagesHandler initialCursor (Some sampleClient) None 1000 None []
         = (Pending, initialCursor)
      /\ waitForMessagesHandler initialCursor (Some sampleClient) None 1000
                                (Some "$x|2abc") []
         = (Returned caughtUpResponse, caughtUpCursor)).
Proof.
  split; repeat (split; [reflexivity|]); reflexivity.
Qed.

(** ** Catch-up short circuit *)

Lemma getRoom_withTimelines (tl : Room -> list MatrixEvent) (client : MatrixClient)
    (id : string) :
  getRoom (withTimelines tl client) id
  = option_map (fun r => mkRoom (room_id r) (room_name r) (tl r)) (getRoom client id).
Proof.
  unfold getRoom, withTimelines. simpl.
  induction (getRooms client) as [|r rooms IH]; simpl; [reflexivity|].
  destruct (String.eqb (room_id r) id); [reflexivity | exact IH].
Qed.

Lemma liveCollect_withTimelines (tl : Room -> list MatrixEvent) (client : MatrixClient)
    (e : MatrixEvent) :
  liveCollect (withTimelines tl client) e = liveCollect client e.
Proof.
  unfold liveCollect. destruct (JS.string_or_empty (getBody e)); [|reflexivity].
  destruct (getRoomId e) as [id|]; [|reflexivity].
  destruct (JS.truthy_string id); [|reflexivity].
  rewrite getRoom_withTimelines. destruct (getRoom client id); reflexivity.
Qed.

(** The listener does not read the buffered timelines. *)
Lemma runLoop_withTimelines (tl : Room -> list MatrixEvent) (client : MatrixClient)
    (roomIdArg : option string) (cts : Z) (cid : option string)
    (schedule : list (N * occurrence)) :
  forall (clock : Z) (l : Listener),
    runLoop (withTimelines tl client) roomIdArg cts cid clock schedule l
    = runLoop client roomIdArg cts cid clock schedule l.
Proof.
  induction schedule as [|[dt o] rest IH]; simpl; intros clock l; [reflexivity|].
  rewrite IH. f_equal.
  destruct o as [e| |]; simpl; try reflexivity.
  destruct (subscribed l); [|reflexivity].
  unfold onEvent. rewrite liveCollect_withTimelines. reflexivity.
Qed.

Lemma parseSince_no_cursor (sinceArg : option string) (g : Cursor) :
  JS.truthy sinceArg = false -> lastSeenTimestamp g = 0 ->
  parseSince sinceArg g = (0, None).
Proof.
  intros Ht Hg. unfold parseSince.
  destruct sinceArg as [s|]; simpl in Ht; rewrite ?Ht, Hg; reflexivity.
Qed.

(** What the handler does with the outcome of the scan.  If the scan
    completes and finds at least one qualifying event, the handler hands
    the found messages, sorted, to the responder, whatever the event loop
    would dispatch: the call returns them when the date of each can be
    rendered and fails otherwise.  If the scan throws, the call fails.  If
    no token is supplied and the module cursor is unset, the scan is
    skipped, so the buffered timelines play no part, and the result is
    the one of the live listener. *)
Lemma catchUp_outcome
    (g : Cursor) (client : MatrixClient) (roomIdArg : option string)
    (timeoutMs : Z) (sinceArg : option string) (schedule : list (N * occurrence)) :
  let sinceTimestamp := fst (parseSince sinceArg g) in
  let sinceEventId := snd (parseSince sinceArg g) in
  let caught := catchUp client roomIdArg sinceTimestamp sinceEventId in
  let run := waitForMessagesHandler g (Some client) roomIdArg timeoutMs sinceArg schedule in
  (forall found, caught = Some found -> found <> [] ->
   Permutation (sortByTimestamp found) found
   /\ run = deliver (sortByTimestamp found) g
   /\ (Forall (fun m => JS.valid_time (timestamp m) = true) found ->
       exists out last,
         renderMessages (sortByTimestamp found) = Some out
         /\ lastOf (sortByTimestamp found) = Some last
         /\ run = (Returned (mkResponse "messages_received"
                                        (Z.of_nat (List.length found)) out
                                        (Some (encodeToken (eventId last) (timestamp last)))),
                   updateInternalCursor (eventId last) (timestamp last) g))
   /\ (~ Forall (fun m => JS.valid_time (timestamp m) = true) found ->
       fst run = Failed))
  /\ (caught = None -> run = (Failed, g))
  /\ (JS.truthy sinceArg = false -> lastSeenTimestamp g = 0 ->
      sinceTimestamp = 0
      /\ caught = Some []
      /\ (forall tl, waitForMessagesHandler g (Some (withTimelines tl client)) roomIdArg
                       timeoutMs sinceArg schedule = run)
      /\ run = respond (awaited (listenerAfter client roomIdArg 0 None
                                               (Z.max timeoutMs 1000) schedule))
                       sinceArg g).
Proof.
  intros sinceTimestamp sinceEventId caught run. split; [|split].
  - intros found Hc Hne.
    assert (Hrun : run = deliver (sortByTimestamp found) g).
    { unfold run, waitForMessagesHandler, gathered, gather.
      fold sinceTimestamp sinceEventId caught. rewrite Hc.
      destruct found; [congruence | reflexivity]. }
    split; [apply sortByTimestamp_perm|]. split; [exact Hrun|]. split.
    + intros Hv.
      assert (Hv' : Forall (fun m => JS.valid_time (timestamp m) = true)
                           (sortByTimestamp found)).
      { eapply Permutation_Forall; [symmetry; apply sortByTimestamp_perm | exact Hv]. }
      destruct (deliver_valid _ g (sortByTimestamp_nonempty _ Hne) Hv')
        as [out [last [Hout [Hlast Hd]]]].
      exists out, last. split; [exact Hout|]. split; [exact Hlast|].
      rewrite Hrun, Hd.
      now rewrite (Permutation_length (sortByTimestamp_perm found)).
    + intros Hv. rewrite Hrun. unfold deliver.
      destruct (lastOf (sortByTimestamp found)); [|reflexivity].
      destruct (renderMessages (sortByTimestamp found)) as [out|] eqn:Hout;
        [|reflexivity].
      exfalso. apply Hv.
      eapply Permutation_Forall; [apply sortByTimestamp_perm|].
      apply renderMessages_Forall2 in Hout.
      clear -Hout. induction Hout as [|m w ms out' Hmw _ IH]; constructor; [|exact IH].
      destruct Hmw as [_ [_ [_ [_ [_ Hiso]]]]].
      unfold JS.toISOString in Hiso.
      destruct (JS.valid_time (timestamp m)); [reflexivity | discriminate].
  - intros Hc. unfold run, waitForMessagesHandler, gathered, gather.
    fold sinceTimestamp sinceEventId caught. now rewrite Hc.
  - intros Ht Hg.
    pose proof (parseSince_no_cursor _ _ Ht Hg) as Hp.
    assert (H0 : sinceTimestamp = 0) by (unfold sinceTimestamp; now rewrite Hp).
    split; [exact H0|]. split; [unfold caught; rewrite H0; reflexivity|].
    assert (Hall : forall c, waitForMessagesHandler g (Some c) roomIdArg timeoutMs
                     sinceArg schedule
                   = respond (awaited (listenerAfter c roomIdArg 0 None
                                         (Z.max timeoutMs 1000) schedule)) sinceArg g).
    { intros c. unfold waitForMessagesHandler, gathered. rewrite Hp.
      cbn [fst snd]. now rewrite gather_zero. }
    split; [|apply Hall].
    intros tl. unfold run. rewrite !Hall. unfold listenerAfter.
    now rewrite runLoop_withTimelines.
Qed.

(** C8.  The code departs from the claim, and from its own comments
    ("If we found catch-up messages, return them immediately"; the module
    cursor "tracks the last message we returned"), on two inputs.

    The first session buffers one message of another user whose
    timestamp, 8640000000000001, is past the range of [Date].  Called
    with the token ["$x|2"], the scan finds that message, the module
    cursor is moved to it, the rendering of its date throws, and the call
    returns the error result: the found message is not returned, and the
    cursor names a message that was never returned.

    The second session buffers one message of another user, with a valid
    timestamp, whose [body] cannot be converted to a string.  The event
    passes every test of the scan, the scan throws while collecting it,
    and the call returns the error result. *)
Theorem catch_up_found_yet_error_returned :
  (parseSince (Some "$x|2") initialCursor = (2, Some "$x")
   /\ option_map (map eventId) (catchUp farFutureClient None 2 (Some "$x"))
      = Some ["$z"]
   /\ waitForMessagesHandler initialCursor (Some farFutureClient) None 1000
                             (Some "$x|2") silentSchedule
      = (Failed, mkCursor (Some "$z") 8640000000000001))
  /\ (map (scanKeeps (getUserId unprintableClient) 2 (Some "$x"))
          (flat_map getLiveTimelineEvents (getRooms unprintableClient))
      = [true]
      /\ map (fun e => JS.valid_time (getTs e))
             (flat_map getLiveTimelineEvents (getRooms unprintableClient))
         = [true]
      /\ catchUp unprintableClient None 2 (Some "$x") = None
      /\ waitForMessagesHandler initialCursor (Some unprintableClient) None 1000
                                (Some "$x|2") silentSchedule
         = (Failed, initialCursor)).
Proof.
  split; repeat (split; [reflexivity|]); reflexivity.
Qed.

(** * Further properties *)

(** ** Tokens *)

(** X1.  A token decodes to the pair it was built from, whatever the
    module cursor, provided the event id contains no ["|"] (and the
    timestamp is a safe integer). *)
Theorem token_decodes_to_its_pair (eid : string) (ts : Z) (g : Cursor) :
  hasChar "|" eid = false ->
  safeInteger ts ->
  parseSince (Some (encodeToken eid ts)) g = (ts, Some eid).
Proof. intros H _. now apply parseSince_encodeToken. Qed.

Lemma token_decodes_to_its_pair_witness :
  hasChar "|" "$abc:example.org" = false
  /\ safeInteger 1700000000000
  /\ parseSince (Some (encodeToken "$abc:example.org" 1700000000000)) earlierCursor
     = (1700000000000, Some "$abc:example.org").
Proof.
  split; [reflexivity|]. split; [unfold safeInteger; lia|].
  apply (token_decodes_to_its_pair "$abc:example.org" 1700000000000 earlierCursor);
    [reflexivity | unfold safeInteger; lia].
Defined.

(** X2.  The token of an event whose id contains ["|"] has more than two
    fields: it decodes to no cursor, and the module cursor is not used in
    its place. *)
Theorem token_of_id_with_separator_is_lost (eid : string) (ts : Z) (g : Cursor) :
  hasChar "|" eid = true ->
  parseSince (Some (encodeToken eid ts)) g = (0, None).
Proof.
  intros H. unfold parseSince. rewrite encodeToken_truthy.
  unfold encodeToken. change ("|" ++ JS.number_to_string ts)
    with (String "|" (JS.number_to_string ts)).
  pose proof (split_app_length "|" eid (JS.number_to_string ts)) as Hl.
  pose proof (split_length_sep _ _ H) as H2.
  pose proof (split_nonempty "|" (JS.number_to_string ts)) as Hn.
  destruct (JS.split "|" (eid ++ String "|" (JS.number_to_string ts)))
    as [|p0 [|p1 [|p2 ps]]]; try reflexivity.
  exfalso. destruct (JS.split "|" (JS.number_to_string ts)); [congruence|].
  simpl in Hl. lia.
Qed.

Lemma token_of_id_with_separator_is_lost_witness :
  hasChar "|" "$a|b" = true
  /\ parseSince (Some (encodeToken "$a|b" 7)) earlierCursor = (0, None).
Proof.
  split; [reflexivity|].
  apply (token_of_id_with_separator_is_lost "$a|b" 7 earlierCursor). reflexivity.
Defined.

(** ** Resuming from a returned token *)

Lemma scanEligible_older (cts : Z) (cid : option string) (ts : Z) (eid : option string) :
  ts < cts \/ (ts = cts /\ eid = cid) -> scanEligible cts cid ts eid = false.
Proof.
  intros H. destruct (scanEligible cts cid ts eid) eqn:E; [|reflexivity].
  apply scanEligible_spec in E. unfold eligible in E.
  destruct H as [H|[H1 H2]], E as [E|[E1 E2]]; try lia; congruence.
Qed.

Lemma scanKeeps_eligible (own : option string) (cts : Z) (cid : option string)
    (e : MatrixEvent) :
  scanKeeps own cts cid e = true -> scanEligible cts cid (getTs e) (getId e) = true.
Proof.
  unfold scanKeeps. destruct (negb _); [discriminate|].
  destruct (JS.strict_eq_undef_null _ _); [discriminate | auto].
Qed.

Lemma liveKeeps_eligible (client : MatrixClient) (roomIdArg : option string)
    (cts : Z) (cid : option string) (e : MatrixEvent) :
  liveKeeps client roomIdArg cts cid e = true ->
  liveEligible cts cid (getTs e) (getId e) = true.
Proof.
  unfold liveKeeps. destruct (negb _); [discriminate|].
  destruct (JS.strict_eq_undef_null _ _); [discriminate|].
  destruct (_ && _); [discriminate | auto].
Qed.

(** X3.  A call that passes back the [since] token of a
    [messages_received] result is not handed what it was already given up
    to the cursor: when the id of the last returned message contains no
    ["|"] and its timestamp is not 0, neither the catch-up scan nor the
    live listener of the later call keeps an event with a smaller
    timestamp, or the event of that id and timestamp itself. *)
Theorem resumed_call_skips_up_to_cursor
    (g : Cursor) (client : MatrixClient) (roomIdArg : option string)
    (timeoutMs : Z) (sinceArg : option string)
    (schedule : list (N * occurrence)) (r : Response) (g' : Cursor) :
  waitForMessagesHandler g (Some client) roomIdArg timeoutMs sinceArg schedule
    = (Returned r, g') ->
  status r = "messages_received" ->
  exists last,
    lastOf (batchOf (gathered g client roomIdArg timeoutMs sinceArg schedule)) = Some last
    /\ (hasChar "|" (eventId last) = false ->
        timestamp last <> 0 ->
        forall (g2 : Cursor) (client2 : MatrixClient) (room2 : option string)
               (e : MatrixEvent),
          getTs e < timestamp last
          \/ (getTs e = timestamp last /\ getId e = Some (eventId last)) ->
          scanKeeps (getUserId client2) (fst (parseSince (since r) g2))
                    (snd (parseSince (since r) g2)) e = false
          /\ liveKeeps client2 room2 (fst (parseSince (since r) g2))
                       (snd (parseSince (since r) g2)) e = false).
Proof.
  intros Hrun Hstatus.
  destruct (handler_returned _ _ _ _ _ _ _ _ Hrun) as [[_ Hd]|[t [_ [-> _]]]];
    [|destruct t; discriminate Hstatus].
  destruct (deliver_returned _ _ _ _ Hd) as [last [Hlast [_ [_ [_ [Hs _]]]]]].
  exists last. split; [exact Hlast|].
  intros Hsep Hts g2 client2 room2 e He.
  rewrite Hs, (parseSince_encodeToken (eventId last) (timestamp last) g2 Hsep).
  cbn [fst snd].
  pose proof (scanEligible_older _ _ _ _ He) as Hold.
  split.
  - destruct (scanKeeps _ _ _ e) eqn:E; [|reflexivity].
    apply scanKeeps_eligible in E. congruence.
  - destruct (liveKeeps _ _ _ _ e) eqn:E; [|reflexivity].
    apply liveKeeps_eligible in E.
    rewrite (liveEligible_scanEligible _ _ _ _ Hts) in E. congruence.
Qed.

Lemma resumed_call_skips_up_to_cursor_witness :
  caughtUpRun = (Returned caughtUpResponse, caughtUpCursor)
  /\ status caughtUpResponse = "messages_received"
  /\ exists last,
       lastOf (batchOf (gathered initialCursor sampleClient None 1000 (Some "$x|2") []))
       = Some last
       /\ (hasChar "|" (eventId last) = false ->
           timestamp last <> 0 ->
           forall (g2 : Cursor) (client2 : MatrixClient) (room2 : option string)
                  (e : MatrixEvent),
             getTs e < timestamp last
             \/ (getTs e = timestamp last /\ getId e = Some (eventId last)) ->
             scanKeeps (getUserId client2) (fst (parseSince (since caughtUpResponse) g2))
                       (snd (parseSince (since caughtUpResponse) g2)) e = false
             /\ liveKeeps client2 room2 (fst (parseSince (since caughtUpResponse) g2))
                          (snd (parseSince (since caughtUpResponse) g2)) e = false).
Proof.
  split; [reflexivity|]. split; [reflexivity|].
  apply (resumed_call_skips_up_to_cursor initialCursor sampleClient None 1000
           (Some "$x|2") [] caughtUpResponse caughtUpCursor); reflexivity.
Defined.

(** ** The module cursor *)

Lemma updateInternalCursor_timestamp (eid : string) (ts : Z) (g : Cursor) :
  lastSeenTimestamp (updateInternalCursor eid ts g) = Z.max ts (lastSeenTimestamp g).
Proof.
  unfold updateInternalCursor.
  destruct (Z.gtb_spec ts (lastSeenTimestamp g)) as [Hgt|Hle]; simpl; [lia|].
  destruct (Z.eqb_spec ts (lastSeenTimestamp g)) as [Heq|Hne]; simpl.
  - destruct (negb _); simpl; lia.
  - lia.
Qed.

Lemma updateInternalCursor_cases (eid : string) (ts : Z) (g : Cursor) :
  updateInternalCursor eid ts g = g
  \/ (updateInternalCursor eid ts g = mkCursor (Some eid) ts
      /\ lastSeenTimestamp g <= ts).
Proof.
  unfold updateInternalCursor.
  destruct (Z.gtb_spec ts (lastSeenTimestamp g)) as [Hgt|Hle]; simpl;
    [right; split; [reflexivity | lia]|].
  destruct (Z.eqb_spec ts (lastSeenTimestamp g)) as [Heq|Hne]; simpl; [|now left].
  destruct (negb _); [right; split; [reflexivity | lia] | now left].
Qed.

Lemma deliver_cursor (ms : list CollectedMessage) (g : Cursor) :
  snd (deliver ms g) = g
  \/ exists last, lastOf ms = Some last
       /\ snd (deliver ms g) = updateInternalCursor (eventId last) (timestamp last) g.
Proof.
  unfold deliver. destruct (lastOf ms) as [last|]; [|now left].
  right. exists last. split; [reflexivity|].
  destruct (renderMessages ms); reflexivity.
Qed.

(** X4.  Whatever the outcome of a call, the timestamp of the module
    cursor does not go back, and the cursor changes only to the id and
    timestamp of the last message of a gathered batch. *)
Theorem module_cursor_only_advances
    (g : Cursor) (session : option MatrixClient) (roomIdArg : option string)
    (timeoutMs : Z) (sinceArg : option string) (schedule : list (N * occurrence)) :
  let g' := snd (waitForMessagesHandler g session roomIdArg timeoutMs sinceArg schedule) in
  lastSeenTimestamp g <= lastSeenTimestamp g'
  /\ (g' = g
      \/ exists client last,
           session = Some client
           /\ lastOf (batchOf (gathered g client roomIdArg timeoutMs sinceArg schedule))
              = Some last
           /\ g' = mkCursor (Some (eventId last)) (timestamp last)).
Proof.
  cbv zeta. unfold waitForMessagesHandler.
  destruct session as [client|]; [|split; [simpl; lia | now left]].
  assert (H : forall ms,
             ms = batchOf (gathered g client roomIdArg timeoutMs sinceArg schedule) ->
             lastSeenTimestamp g <= lastSeenTimestamp (snd (deliver ms g))
             /\ (snd (deliver ms g) = g
                 \/ exists client0 last,
                      Some client = Some client0
                      /\ lastOf (batchOf (gathered g client0 roomIdArg timeoutMs
                                                   sinceArg schedule)) = Some last
                      /\ snd (deliver ms g) = mkCursor (Some (eventId last))
                                                       (timestamp last))).
  { intros ms Hms. destruct (deliver_cursor ms g) as [->|[last [Hlast ->]]];
      [split; [lia | now left]|].
    split; [rewrite updateInternalCursor_timestamp; lia|].
    destruct (updateInternalCursor_cases (eventId last) (timestamp last) g)
      as [->|[-> _]]; [now left|].
    right. exists client, last. rewrite <- Hms. auto. }
  destruct (gathered g client roomIdArg timeoutMs sinceArg schedule)
    as [batch|[|m batch] t| |] eqn:E; simpl.
  - apply H. reflexivity.
  - split; [lia | now left].
  - apply (H (m :: batch)). reflexivity.
  - split; [lia | now left].
  - split; [lia | now left].
Qed.

(** ** Shape of a result *)

Lemma renderMessages_length (ms : list CollectedMessage) (out : list Wire.message) :
  renderMessages ms = Some out -> List.length out = List.length ms.
Proof.
  intros H. apply renderMessages_Forall2 in H.
  induction H; simpl; congruence.
Qed.

(** X5.  Every returned result is well formed: [messageCount] is the
    length of [messages]; a [messages_received] result has at least one
    message and a [since] token; any other result is a [timeout] without
    messages. *)
Theorem returned_result_is_well_formed
    (g : Cursor) (session : option MatrixClient) (roomIdArg : option string)
    (timeoutMs : Z) (sinceArg : option string)
    (schedule : list (N * occurrence)) (r : Response) (g' : Cursor) :
  waitForMessagesHandler g session roomIdArg timeoutMs sinceArg schedule
    = (Returned r, g') ->
  messageCount r = Z.of_nat (List.length (messages r))
  /\ ((status r = "messages_received" /\ messages r <> [] /\ since r <> None)
      \/ (status r = "timeout" /\ messages r = [])).
Proof.
  destruct session as [client|]; [|discriminate]. intros Hrun.
  destruct (handler_returned _ _ _ _ _ _ _ _ Hrun) as [[Hne Hd]|[t [Hg [-> _]]]].
  - destruct (deliver_returned _ _ _ _ Hd) as [last [_ [Hout [Hst [Hc [Hs _]]]]]].
    split; [rewrite Hc, (renderMessages_length _ _ Hout); reflexivity|].
    left. split; [exact Hst|]. split; [|rewrite Hs; discriminate].
    intros Hm. rewrite Hm in Hout. apply renderMessages_nil_inv in Hout. contradiction.
  - split; [reflexivity|]. right. split; [|reflexivity].
    destruct t; [reflexivity|]. exfalso.
    unfold gathered in Hg. apply gather_settled in Hg. destruct Hg as [_ Hg].
    now apply settled_without_timeout_nonempty in Hg.
Qed.

Lemma returned_result_is_well_formed_witness :
  caughtUpRun = (Returned caughtUpResponse, caughtUpCursor)
  /\ messageCount caughtUpResponse = Z.of_nat (List.length (messages caughtUpResponse))
  /\ ((status caughtUpResponse = "messages_received"
       /\ messages caughtUpResponse <> [] /\ since caughtUpResponse <> None)
      \/ (status caughtUpResponse = "timeout" /\ messages caughtUpResponse = [])).
Proof.
  split; [reflexivity|].
  apply (returned_result_is_well_formed initialCursor (Some sampleClient) None 1000
           (Some "$x|2") [] caughtUpResponse caughtUpCursor).
  reflexivity.
Defined.

(** ** What the filters let through *)

Section Sourced.

Variable P : MatrixEvent -> Prop.

Lemma sourcedFrom_nil : sourcedFrom P [].
Proof. exists []. split; constructor. Qed.

Lemma sourcedFrom_app (a b : list CollectedMessage) :
  sourcedFrom P a -> sourcedFrom P b -> sourcedFrom P (a ++ b).
Proof.
  intros [ea [Ha Fa]] [eb [Hb Fb]]. exists (ea ++ eb)%list. split.
  - apply Forall_app. now split.
  - now apply Forall2_app.
Qed.

Lemma sourcedFrom_Permutation (a b : list CollectedMessage) :
  Permutation a b -> sourcedFrom P a -> sourcedFrom P b.
Proof.
  intros Hp [events [Hev Hf]].
  destruct (Forall2_Permutation_r _ _ _ Hp _ Hf) as [events' [Hpe Hf']].
  exists events'. split; [|exact Hf'].
  eapply Permutation_Forall; eassumption.
Qed.

Lemma scanRoom_sourced (own : option string) (cts : Z) (cid : option string) (r : Room)
    (ms : list CollectedMessage) :
  (forall e, In e (getLiveTimelineEvents r) -> scanKeeps own cts cid e = true -> P e) ->
  scanRoom own cts cid r = Some ms ->
  sourcedFrom P ms.
Proof.
  intros HP. unfold scanRoom. intros H. apply collectEach_Forall2 in H.
  exists (filter (scanKeeps own cts cid) (getLiveTimelineEvents r)). split.
  - apply Forall_forall. intros e He. apply filter_In in He.
    destruct He as [Hin Hk]. now apply HP.
  - eapply Forall2_impl; [|exact H]. intros e m. apply scanCollect_collectedFrom.
Qed.

Lemma scanRooms_sourced (own : option string) (cts : Z) (cid : option string)
    (rooms : list Room) :
  (forall r e, In r rooms -> In e (getLiveTimelineEvents r) ->
               scanKeeps own cts cid e = true -> P e) ->
  forall ms, scanRooms own cts cid rooms = Some ms -> sourcedFrom P ms.
Proof.
  induction rooms as [|r rooms IH]; simpl; intros HP ms.
  - intros [= <-]. apply sourcedFrom_nil.
  - destruct (scanRoom own cts cid r) as [found|] eqn:Er; [|discriminate].
    destruct (scanRooms own cts cid rooms) as [more|]; [|discriminate].
    intros [= <-]. apply sourcedFrom_app.
    + apply (scanRoom_sourced own cts cid r); [|exact Er].
      intros e He Hk. apply (HP r e); [now left | exact He | exact Hk].
    + apply IH; [|reflexivity]. intros r' e Hr. apply HP. now right.
Qed.

Lemma runLoop_sourced (client : MatrixClient) (roomIdArg : option string)
    (cts : Z) (cid : option string) (schedule : list (N * occurrence)) :
  forall (clock : Z) (l : Listener),
    (forall e, In e (notified schedule) ->
               liveKeeps client roomIdArg cts cid e = true -> P e) ->
    sourcedFrom P (collected l) ->
    sourcedFrom P (collected (runLoop client roomIdArg cts cid clock schedule l)).
Proof.
  induction schedule as [|[dt o] rest IH]; simpl; intros clock l HP Hl; [exact Hl|].
  apply IH; [intros x Hx; apply HP, in_or_app; now right|].
  destruct o as [e| |]; simpl.
  - destruct (subscribed l); [|exact Hl].
    unfold onEvent. destruct (liveKeeps client roomIdArg cts cid e) eqn:Hk; [|exact Hl].
    destruct (liveCollect client e) as [m|] eqn:Em; [|exact Hl].
    simpl. apply sourcedFrom_app; [exact Hl|].
    exists [e]. split.
    + constructor; [|constructor]. apply HP; [simpl; now left | exact Hk].
    + constructor; [now apply (liveCollect_collectedFrom client) | constructor].
  - destruct (debounceTimer l) as [due|]; [|exact Hl].
    destruct (due <=? _); [|exact Hl].
    unfold onDebounce, resolve. simpl. destruct (resolved l); exact Hl.
  - destruct (timeoutHandle l) as [due|]; [|exact Hl].
    destruct (due <=? _); [|exact Hl].
    unfold onTimeout, resolve. simpl. destruct (resolved l); exact Hl.
Qed.

(** If the scan and the listener keep only events that satisfy [P], the
    gathered batch is collected from such events. *)
Lemma gather_sourced (client : MatrixClient) (roomIdArg : option string)
    (timeout cts : Z) (cid : option string) (schedule : list (N * occurrence)) :
  (forall r e, In r (roomsToScan client roomIdArg) ->
               In e (getLiveTimelineEvents r) ->
               scanKeeps (getUserId client) cts cid e = true -> P e) ->
  (forall e, In e (notified schedule) ->
             liveKeeps client roomIdArg cts cid e = true -> P e) ->
  sourcedFrom P (batchOf (gather client roomIdArg timeout cts cid schedule)).
Proof.
  intros Hscan Hlive. unfold gather.
  destruct (catchUp client roomIdArg cts cid) as [[|m caught]|] eqn:E.
  - pose proof (listenerAfter_inv client roomIdArg cts cid timeout schedule) as Hinv.
    unfold listenerInv, listenerAfter in Hinv. unfold awaited.
    destruct (resolved _) as [[ms t]|] eqn:Hr; simpl; [|apply sourcedFrom_nil].
    destruct Hinv as [_ [-> _]].
    apply runLoop_sourced; [exact Hlive | apply sourcedFrom_nil].
  - cbn [batchOf].
    eapply sourcedFrom_Permutation; [symmetry; apply sortByTimestamp_perm|].
    unfold catchUp in E. destruct (JS.truthy_num cts); [|discriminate E].
    now apply (scanRooms_sourced _ _ _ _ Hscan).
  - apply sourcedFrom_nil.
Qed.

End Sourced.

Lemma sourcedFrom_impl (P Q : MatrixEvent -> Prop) (ms : list CollectedMessage) :
  (forall e, P e -> Q e) -> sourcedFrom P ms -> sourcedFrom Q ms.
Proof.
  intros H [events [Hev Hf]]. exists events. split; [|exact Hf].
  eapply Forall_impl; [exact H | exact Hev].
Qed.

Lemma scanKeeps_type (own : option string) (cts : Z) (cid : option string)
    (e : MatrixEvent) :
  scanKeeps own cts cid e = true -> getType e = RoomMessage.
Proof.
  unfold scanKeeps. destruct (String.eqb_spec (getType e) RoomMessage); simpl;
    [auto | discriminate].
Qed.

Lemma liveKeeps_type (client : MatrixClient) (roomIdArg : option string)
    (cts : Z) (cid : option string) (e : MatrixEvent) :
  liveKeeps client roomIdArg cts cid e = true -> getType e = RoomMessage.
Proof.
  unfold liveKeeps. destruct (String.eqb_spec (getType e) RoomMessage); simpl;
    [auto | discriminate].
Qed.

(** X6.  The messages of every returned result are renderings of objects
    collected from events that the call saw (in a buffered timeline or in
    a notification), that are [m.room.message] events, and that, when the
    cursor timestamp is not 0, pass the cursor test; in particular no
    returned message is older than the cursor. *)
Theorem returned_messages_pass_the_filters
    (g : Cursor) (client : MatrixClient) (roomIdArg : option string)
    (timeoutMs : Z) (sinceArg : option string)
    (schedule : list (N * occurrence)) (r : Response) (g' : Cursor) :
  waitForMessagesHandler g (Some client) roomIdArg timeoutMs sinceArg schedule
    = (Returned r, g') ->
  let cts := fst (parseSince sinceArg g) in
  let cid := snd (parseSince sinceArg g) in
  exists events batch,
    Forall (fun e => In e (seenEvents client schedule)
                     /\ getType e = RoomMessage
                     /\ (cts <> 0 -> eligible (getId e) (getTs e) cid cts))
           events
    /\ Forall2 collectedFrom events batch
    /\ Forall2 renderedFrom batch (messages r)
    /\ (cts <> 0 -> Forall (fun m => cts <= timestamp m) batch).
Proof.
  intros Hrun cts cid.
  set (Q := fun e => In e (seenEvents client schedule)
                     /\ getType e = RoomMessage
                     /\ (cts <> 0 -> eligible (getId e) (getTs e) cid cts)).
  assert (Hsrc : sourcedFrom Q
            (batchOf (gathered g client roomIdArg timeoutMs sinceArg schedule))).
  { unfold gathered. fold cts cid. apply gather_sourced.
    - intros room e Hroom He Hk. split; [|split].
      + apply in_or_app. left. apply in_flat_map. exists room.
        split; [now apply (roomsToScan_incl client roomIdArg) | exact He].
      + now apply scanKeeps_type in Hk.
      + intros _. apply scanKeeps_eligible in Hk. now apply scanEligible_spec.
    - intros e He Hk. split; [|split].
      + apply in_or_app. now right.
      + now apply liveKeeps_type in Hk.
      + intros Hc. apply liveKeeps_eligible in Hk.
        rewrite (liveEligible_scanEligible _ _ _ _ Hc) in Hk.
        now apply scanEligible_spec. }
  assert (Hts : forall events ms, Forall Q events -> Forall2 collectedFrom events ms ->
                  cts <> 0 -> Forall (fun m => cts <= timestamp m) ms).
  { intros events ms Hev Hf Hc. clear -Hev Hf Hc.
    induction Hf as [|e m events ms Hem _ IH]; constructor.
    - inversion Hev as [|? ? [_ [_ He]] _]; subst.
      destruct Hem as [_ [_ [_ [_ ->]]]].
      destruct (He Hc) as [H|[H _]]; lia.
    - apply IH. now inversion Hev. }
  destruct (handler_returned _ _ _ _ _ _ _ _ Hrun) as [[_ Hd]|[t [_ [-> _]]]].
  - destruct (deliver_returned _ _ _ _ Hd) as [last [_ [Hout _]]].
    destruct Hsrc as [events [Hev Hf]].
    exists events, (batchOf (gathered g client roomIdArg timeoutMs sinceArg schedule)).
    split; [exact Hev|]. split; [exact Hf|].
    split; [now apply renderMessages_Forall2 | now apply (Hts events)].
  - exists [], []. repeat split; constructor.
Qed.

Lemma returned_messages_pass_the_filters_witness :
  caughtUpRun = (Returned caughtUpResponse, caughtUpCursor)
  /\ exists events batch,
       Forall (fun e => In e (seenEvents sampleClient [])
                        /\ getType e = RoomMessage
                        /\ (2 <> 0 -> eligible (getId e) (getTs e) (Some "$x") 2))
              events
       /\ Forall2 collectedFrom events batch
       /\ Forall2 renderedFrom batch (messages caughtUpResponse)
       /\ (2 <> 0 -> Forall (fun m => 2 <= timestamp m) batch).
Proof.
  split; [reflexivity|].
  apply (returned_messages_pass_the_filters initialCursor sampleClient None 1000
           (Some "$x|2") [] caughtUpResponse caughtUpCursor).
  reflexivity.
Defined.

(** ** Room filter *)

Lemma getRoom_id (client : MatrixClient) (rid : string) (room : Room) :
  getRoom client rid = Some room -> In room (getRooms client) /\ room_id room = rid.
Proof.
  unfold getRoom. intros H. apply find_some in H. destruct H as [Hin Heq].
  split; [exact Hin | now apply String.eqb_eq].
Qed.

Lemma liveKeeps_room (client : MatrixClient) (rid : string) (cts : Z)
    (cid : option string) (e : MatrixEvent) :
  rid <> "" ->
  liveKeeps client (Some rid) cts cid e = true -> getRoomId e = Some rid.
Proof.
  intros Hr. unfold liveKeeps. destruct (negb _); [discriminate|].
  destruct (JS.strict_eq_undef_null _ _); [discriminate|].
  destruct rid as [|c rid]; [congruence|]. cbn [JS.truthy JS.truthy_string andb].
  destruct (JS.strict_eq (getRoomId e) (Some (String c rid))) eqn:E;
    [|discriminate].
  intros _. now apply strict_eq_true.
Qed.

(** X7.  With a non-empty [roomId] every returned message comes from
    that room.  A catch-up batch is collected from the buffered timeline
    of the room the session stores under that id, and only from it; a
    batch of the live listener carries that id as the [roomId] of each
    message. *)
Theorem room_filter_confines_messages
    (g : Cursor) (client : MatrixClient) (rid : string)
    (timeoutMs : Z) (sinceArg : option string) (schedule : list (N * occurrence)) :
  rid <> "" ->
  let got := gathered g client (Some rid) timeoutMs sinceArg schedule in
  (isCaughtUp got = true ->
   exists room,
     getRoom client rid = Some room
     /\ room_id room = rid
     /\ sourcedFrom (fun e => In e (getLiveTimelineEvents room)) (batchOf got))
  /\ (isCaughtUp got = false ->
      Forall (fun m => roomId m = rid) (batchOf got)).
Proof.
  intros Hr got. split.
  - intros Hc. apply isCaughtUp_inv in Hc. unfold got, gathered in Hc.
    apply gather_caughtUp_sorted in Hc. destruct Hc as [caught [Hcaught [Hne Hb]]].
    fold (gathered g client (Some rid) timeoutMs sinceArg schedule) in Hb.
    fold got in Hb. rewrite Hb.
    unfold catchUp in Hcaught.
    destruct (JS.truthy_num (fst (parseSince sinceArg g))); [|congruence].
    unfold roomsToScan in Hcaught.
    destruct rid as [|c rid]; [congruence|]. cbn [JS.truthy JS.truthy_string] in Hcaught.
    destruct (getRoom client (String c rid)) as [room|] eqn:E;
      [|simpl in Hcaught; congruence].
    exists room. split; [reflexivity|].
    split; [now apply getRoom_id in E|].
    eapply sourcedFrom_Permutation; [symmetry; apply sortByTimestamp_perm|].
    refine (scanRooms_sourced _ _ _ _ [room] _ caught Hcaught).
    intros r e [<-|[]] He _. exact He.
  - intros Hc.
    assert (Hs : sourcedFrom (fun e => getRoomId e = Some rid) (batchOf got)).
    { unfold got, gathered, gather in *.
      destruct (catchUp client (Some rid) _ _) as [[|m caught]|];
        [|discriminate Hc|apply sourcedFrom_nil].
      pose proof (listenerAfter_inv client (Some rid) (fst (parseSince sinceArg g))
                    (snd (parseSince sinceArg g)) (Z.max timeoutMs 1000) schedule)
        as Hinv.
      unfold listenerInv, listenerAfter in Hinv. unfold awaited.
      destruct (resolved _) as [[ms t]|] eqn:Hres; simpl; [|apply sourcedFrom_nil].
      destruct Hinv as [_ [-> _]].
      apply runLoop_sourced; [|apply sourcedFrom_nil].
      intros e _ Hk. now apply liveKeeps_room in Hk. }
    destruct Hs as [events [Hev Hf]]. clear -Hev Hf Hr.
    induction Hf as [|e m events ms Hem _ IH]; constructor.
    + inversion Hev as [|? ? He _]; subst.
      destruct Hem as [-> _]. rewrite He. simpl.
      unfold JS.or_string. destruct rid; [congruence | reflexivity].
    + apply IH. now inversion Hev.
Qed.

Lemma room_filter_confines_messages_witness :
  "!a" <> ""
  /\ let got := gathered initialCursor sampleClient (Some "!a") 1000 (Some "$x|2") [] in
     (isCaughtUp got = true ->
      exists room,
        getRoom sampleClient "!a" = Some room
        /\ room_id room = "!a"
        /\ sourcedFrom (fun e => In e (getLiveTimelineEvents room)) (batchOf got))
     /\ (isCaughtUp got = false ->
         Forall (fun m => roomId m = "!a") (batchOf got)).
Proof.
  split; [discriminate|].
  apply (room_filter_confines_messages initialCursor sampleClient "!a" 1000
           (Some "$x|2") []).
  discriminate.
Defined.

(** ** The point at which the listener settles *)

Lemma notified_app (a b : list (N * occurrence)) :
  notified (a ++ b) = (notified a ++ notified b)%list.
Proof. unfold notified. apply flat_map_app. Qed.

Lemma elapsed_app (a b : list (N * occurrence)) :
  forall clock, elapsed clock (a ++ b) = elapsed (elapsed clock a) b.
Proof.
  induction a as [|[dt o] a IH]; simpl; intros clock; [reflexivity | apply IH].
Qed.

Lemma elapsed_ge (s : list (N * occurrence)) :
  forall clock, clock <= elapsed clock s.
Proof.
  induction s as [|[dt o] s IH]; simpl; intros clock; [lia|].
  specialize (IH (clock + Z.of_N dt)). lia.
Qed.

Section SettlePoint.

Variable client : MatrixClient.
Variable roomIdArg : option string.
Variable cts : Z.
Variable cid : option string.
Variable timeout : Z.

Lemma listenerAfter_snoc (pre : list (N * occurrence)) (dt : N) (o : occurrence) :
  listenerAfter client roomIdArg cts cid timeout (pre ++ [(dt, o)])
  = dispatch client roomIdArg cts cid (elapsed 0 pre + Z.of_N dt) o
             (listenerAfter client roomIdArg cts cid timeout pre).
Proof. unfold listenerAfter. rewrite runLoop_app. reflexivity. Qed.

Lemma listenerAfter_resolved_app (pre post : list (N * occurrence)) :
  resolved (listenerAfter client roomIdArg cts cid timeout pre) <> None ->
  listenerAfter client roomIdArg cts cid timeout (pre ++ post)
  = listenerAfter client roomIdArg cts cid timeout pre.
Proof.
  intros H. unfold listenerAfter. rewrite runLoop_app.
  apply (runLoop_after_resolution _ _ _ _ timeout); [|exact H].
  apply listenerAfter_inv.
Qed.

Lemma lastAcceptedAt_app (a b : list (N * occurrence)) :
  forall clock found,
    lastAcceptedAt client roomIdArg cts cid clock (a ++ b) found
    = lastAcceptedAt client roomIdArg cts cid (elapsed clock a) b
        (lastAcceptedAt client roomIdArg cts cid clock a found).
Proof.
  induction a as [|[dt o] a IH]; simpl; intros clock found; [reflexivity | apply IH].
Qed.

Lemma liveCollect_converts (e : MatrixEvent) (m : CollectedMessage) :
  liveCollect client e = Some m -> bodyConverts e = true.
Proof.
  unfold liveCollect, bodyConverts.
  destruct (JS.string_or_empty (getBody e)); [reflexivity | discriminate].
Qed.

Lemma liveCollect_throws (e : MatrixEvent) :
  liveCollect client e = None -> bodyConverts e = false.
Proof.
  unfold liveCollect, bodyConverts.
  destruct (JS.string_or_empty (getBody e)); [discriminate | reflexivity].
Qed.

(** While the promise is unresolved, the collected array holds one
    object for each notification that the listener kept and whose body
    could be converted, in arrival order, and the debounce timer is due
    500 ms after the last of them. *)
Lemma unresolved_listener (s : list (N * occurrence)) :
  resolved (listenerAfter client roomIdArg cts cid timeout s) = None ->
  Forall2 (fun e m => liveCollect client e = Some m)
          (filter (fun e => liveKeeps client roomIdArg cts cid e && bodyConverts e)
                  (notified s))
          (collected (listenerAfter client roomIdArg cts cid timeout s))
  /\ debounceTimer (listenerAfter client roomIdArg cts cid timeout s)
     = option_map (fun t => t + 500) (lastAcceptedAt client roomIdArg cts cid 0 s None).
Proof.
  induction s as [|[dt o] s IH] using rev_ind;
    [intros _; split; [constructor | reflexivity]|].
  intros Hres.
  destruct (resolved (listenerAfter client roomIdArg cts cid timeout s)) eqn:Hs.
  { rewrite listenerAfter_resolved_app in Hres by (rewrite Hs; discriminate).
    congruence. }
  destruct (IH eq_refl) as [Hc Hd].
  pose proof (listenerAfter_inv client roomIdArg cts cid timeout s) as Hinv.
  unfold listenerInv in Hinv. rewrite Hs in Hinv. destruct Hinv as [Hsub [Hth _]].
  rewrite listenerAfter_snoc in *. rewrite notified_app, filter_app.
  rewrite lastAcceptedAt_app. cbn [lastAcceptedAt elapsed].
  destruct o as [e| |]; cbn [dispatch notified flat_map snd app filter] in *.
  - rewrite Hsub in *. unfold onEvent in *.
    destruct (liveKeeps client roomIdArg cts cid e); cbn [andb].
    + destruct (liveCollect client e) as [m|] eqn:Em.
      * rewrite (liveCollect_converts _ _ Em). cbn [collected debounceTimer].
        split; [|reflexivity].
        apply Forall2_app; [exact Hc | repeat constructor; exact Em].
      * rewrite (liveCollect_throws _ Em), app_nil_r. split; assumption.
    + rewrite app_nil_r. split; assumption.
  - destruct (debounceTimer _) as [due|] eqn:Hdue.
    + destruct (due <=? _).
      * unfold onDebounce, resolve in Hres. cbn in Hres. rewrite Hs in Hres. discriminate.
      * rewrite app_nil_r. split; [exact Hc | congruence].
    + rewrite app_nil_r. split; [exact Hc | congruence].
  - rewrite Hth in *. destruct (_ <=? _).
    + unfold onTimeout, resolve in Hres. cbn in Hres. rewrite Hs in Hres. discriminate.
    + rewrite app_nil_r. split; assumption.
Qed.

(** A resolved promise was resolved at one occurrence of the schedule:
    the expiry of the timer that goes with [timedOut], dispatched when
    that timer was due, with what had been collected until then. *)
Lemma settle_point (s : list (N * occurrence)) (ms : list CollectedMessage) (t : bool) :
  resolved (listenerAfter client roomIdArg cts cid timeout s) = Some (ms, t) ->
  exists pre dt post due,
    s = (pre ++ (dt, settlingOccurrence t) :: post)%list
    /\ resolved (listenerAfter client roomIdArg cts cid timeout pre) = None
    /\ ms = collected (listenerAfter client roomIdArg cts cid timeout pre)
    /\ settlingTimer t (listenerAfter client roomIdArg cts cid timeout pre) = Some due
    /\ due <= elapsed 0 pre + Z.of_N dt.
Proof.
  induction s as [|[dt o] s IH] using rev_ind; [discriminate|].
  intros Hres.
  destruct (resolved (listenerAfter client roomIdArg cts cid timeout s)) eqn:Hs.
  { rewrite listenerAfter_resolved_app in Hres by (rewrite Hs; discriminate).
    rewrite Hs in Hres.
    destruct (IH Hres) as [pre [dt0 [post [due [-> H]]]]].
    exists pre, dt0, (post ++ [(dt, o)])%list, due.
    split; [now rewrite <- app_assoc | exact H]. }
  pose proof (listenerAfter_inv client roomIdArg cts cid timeout s) as Hinv.
  unfold listenerInv in Hinv. rewrite Hs in Hinv. destruct Hinv as [Hsub [Hth _]].
  rewrite listenerAfter_snoc in Hres.
  destruct o as [e| |]; cbn [dispatch] in Hres.
  - rewrite Hsub in Hres. unfold onEvent in Hres.
    destruct (liveKeeps client roomIdArg cts cid e); [|congruence].
    destruct (liveCollect client e); cbn in Hres; congruence.
  - destruct (debounceTimer _) as [due|] eqn:Hdue; [|congruence].
    destruct (Z.leb_spec due (elapsed 0 s + Z.of_N dt)); [|congruence].
    unfold onDebounce, resolve in Hres. cbn in Hres. rewrite Hs in Hres.
    cbn in Hres. injection Hres as <- <-.
    exists s, dt, [], due. repeat split; auto.
  - rewrite Hth in Hres.
    destruct (Z.leb_spec (JS.timerDelay timeout) (elapsed 0 s + Z.of_N dt)); [|congruence].
    unfold onTimeout, resolve in Hres. cbn in Hres. rewrite Hs in Hres.
    cbn in Hres. injection Hres as <- <-.
    exists s, dt, [], (JS.timerDelay timeout). repeat split; auto.
Qed.

End SettlePoint.

(** X8.  A batch returned by the live listener is exactly what the
    listener pushed before it settled: the schedule splits at the timer
    expiry that resolved the promise, and the batch holds one object for
    each notification before that point that passed the tests and whose
    body could be converted to a string, in arrival order.  A notification
    that passed the tests but whose body conversion throws is not in the
    batch. *)
Theorem live_batch_is_what_was_kept
    (g : Cursor) (client : MatrixClient) (roomIdArg : option string)
    (timeoutMs : Z) (sinceArg : option string) (schedule : list (N * occurrence))
    (batch : list CollectedMessage) (timedOut : bool) :
  gathered g client roomIdArg timeoutMs sinceArg schedule = Settled batch timedOut ->
  let cts := fst (parseSince sinceArg g) in
  let cid := snd (parseSince sinceArg g) in
  exists pre dt post,
    schedule = (pre ++ (dt, settlingOccurrence timedOut) :: post)%list
    /\ resolved (listenerAfter client roomIdArg cts cid (Z.max timeoutMs 1000) pre) = None
    /\ Forall2 (fun e m => liveCollect client e = Some m)
               (filter (fun e => liveKeeps client roomIdArg cts cid e && bodyConverts e)
                       (notified pre))
               batch.
Proof.
  intros Hg cts cid. unfold gathered in Hg. apply gather_settled in Hg.
  destruct Hg as [_ Hres].
  destruct (settle_point _ _ _ _ _ _ _ _ Hres) as [pre [dt [post [due [-> [Hpre [-> _]]]]]]].
  exists pre, dt, post. split; [reflexivity|]. split; [exact Hpre|].
  now apply unresolved_listener.
Qed.

Lemma live_batch_is_what_was_kept_witness :
  gathered initialCursor quietClient None 30000 None outOfOrderSchedule
  = Settled (batchOf (gathered initialCursor quietClient None 30000 None
                               outOfOrderSchedule)) false
  /\ exists pre dt post,
       outOfOrderSchedule = (pre ++ (dt, settlingOccurrence false) :: post)%list
       /\ resolved (listenerAfter quietClient None 0 None (Z.max 30000 1000) pre) = None
       /\ Forall2 (fun e m => liveCollect quietClient e = Some m)
                  (filter (fun e => liveKeeps quietClient None 0 None e && bodyConverts e)
                          (notified pre))
                  (batchOf (gathered initialCursor quietClient None 30000 None
                                     outOfOrderSchedule)).
Proof.
  split; [reflexivity|].
  apply (live_batch_is_what_was_kept initialCursor quietClient None 30000 None
           outOfOrderSchedule
           (batchOf (gathered initialCursor quietClient None 30000 None
                              outOfOrderSchedule)) false).
  reflexivity.
Defined.

(** X9.  A promise resolved by the timeout timer is resolved no earlier
    than the delay the timer was armed with; when the requested timeout
    is at most [2^31 - 1] that is at least 1000 ms and at least the
    requested timeout. *)
Theorem timeout_not_before_its_delay
    (g : Cursor) (client : MatrixClient) (roomIdArg : option string)
    (timeoutMs : Z) (sinceArg : option string) (schedule : list (N * occurrence))
    (batch : list CollectedMessage) :
  gathered g client roomIdArg timeoutMs sinceArg schedule = Settled batch true ->
  JS.timerDelay (Z.max timeoutMs 1000) <= elapsed 0 schedule
  /\ (timeoutMs <= JS.TIMEOUT_MAX ->
      1000 <= elapsed 0 schedule /\ timeoutMs <= elapsed 0 schedule).
Proof.
  intros Hg. unfold gathered in Hg. apply gather_settled in Hg.
  destruct Hg as [_ Hres].
  destruct (settle_point _ _ _ _ _ _ _ _ Hres)
    as [pre [dt [post [due [-> [Hpre [_ [Hdue Hle]]]]]]]].
  pose proof (listenerAfter_inv client roomIdArg (fst (parseSince sinceArg g))
                (snd (parseSince sinceArg g)) (Z.max timeoutMs 1000) pre) as Hinv.
  unfold listenerInv in Hinv. rewrite Hpre in Hinv. destruct Hinv as [_ [Hth _]].
  cbn [settlingTimer] in Hdue. rewrite Hth in Hdue. injection Hdue as <-.
  assert (Hel : JS.timerDelay (Z.max timeoutMs 1000)
                <= elapsed 0 (pre ++ (dt, settlingOccurrence true) :: post)).
  { rewrite elapsed_app. cbn [elapsed].
    pose proof (elapsed_ge post (elapsed 0 pre + Z.of_N dt)). lia. }
  split; [exact Hel|].
  intros Hmax. unfold JS.timerDelay, JS.TIMEOUT_MAX in *.
  destruct (Z.leb_spec 1 (Z.max timeoutMs 1000)); [|lia].
  destruct (Z.leb_spec (Z.max timeoutMs 1000) 2147483647); [|lia].
  cbn [andb] in Hel. lia.
Qed.

Lemma timeout_not_before_its_delay_witness :
  gathered initialCursor quietClient None 200 None lateSchedule
  = Settled (batchOf (gathered initialCursor quietClient None 200 None lateSchedule)) true
  /\ JS.timerDelay (Z.max 200 1000) <= elapsed 0 lateSchedule
  /\ (200 <= JS.TIMEOUT_MAX ->
      1000 <= elapsed 0 lateSchedule /\ 200 <= elapsed 0 lateSchedule).
Proof.
  split; [reflexivity|].
  apply (timeout_not_before_its_delay initialCursor quietClient None 200 None
           lateSchedule
           (batchOf (gathered initialCursor quietClient None 200 None lateSchedule))).
  reflexivity.
Defined.

(** X10.  A promise resolved by the debounce timer is resolved no earlier
    than 500 ms after the last notification the listener kept: every kept
    notification restarts the timer. *)
Theorem debounce_settles_after_quiet_period
    (g : Cursor) (client : MatrixClient) (roomIdArg : option string)
    (timeoutMs : Z) (sinceArg : option string) (schedule : list (N * occurrence))
    (batch : list CollectedMessage) :
  gathered g client roomIdArg timeoutMs sinceArg schedule = Settled batch false ->
  let cts := fst (parseSince sinceArg g) in
  let cid := snd (parseSince sinceArg g) in
  exists pre dt post lastKept,
    schedule = (pre ++ (dt, DebounceExpiry) :: post)%list
    /\ resolved (listenerAfter client roomIdArg cts cid (Z.max timeoutMs 1000) pre) = None
    /\ lastAcceptedAt client roomIdArg cts cid 0 pre None = Some lastKept
    /\ lastKept + 500 <= elapsed 0 pre + Z.of_N dt.
Proof.
  intros Hg cts cid. unfold gathered in Hg. apply gather_settled in Hg.
  destruct Hg as [_ Hres].
  destruct (settle_point _ _ _ _ _ _ _ _ Hres)
    as [pre [dt [post [due [-> [Hpre [_ [Hdue Hle]]]]]]]].
  destruct (unresolved_listener _ _ _ _ _ _ Hpre) as [_ Hd].
  cbn [settlingTimer] in Hdue. fold cts cid in Hd, Hdue. rewrite Hdue in Hd.
  destruct (lastAcceptedAt client roomIdArg cts cid 0 pre None) as [lastKept|] eqn:E;
    [|discriminate].
  exists pre, dt, post, lastKept. cbn in Hd. injection Hd as ->.
  repeat split; auto.
Qed.

Lemma debounce_settles_after_quiet_period_witness :
  gathered initialCursor quietClient None 30000 None outOfOrderSchedule
  = Settled (batchOf (gathered initialCursor quietClient None 30000 None
                               outOfOrderSchedule)) false
  /\ exists pre dt post lastKept,
       outOfOrderSchedule = (pre ++ (dt, DebounceExpiry) :: post)%list
       /\ resolved (listenerAfter quietClient None 0 None (Z.max 30000 1000) pre) = None
       /\ lastAcceptedAt quietClient None 0 None 0 pre None = Some lastKept
       /\ lastKept + 500 <= elapsed 0 pre + Z.of_N dt.
Proof.
  split; [reflexivity|].
  apply (debounce_settles_after_quiet_period initialCursor quietClient None 30000 None
           outOfOrderSchedule
           (batchOf (gathered initialCursor quietClient None 30000 None
                              outOfOrderSchedule))).
  reflexivity.
Defined.

(** X11.  A requested timeout above [2^31 - 1] ms does not lengthen the
    wait: the timer is armed with 1 ms, and a call that has nothing to
    catch up on and hears nothing returns [timeout] once 1 ms has
    passed. *)
Theorem oversized_timeout_expires_at_once
    (g : Cursor) (client : MatrixClient) (roomIdArg : option string)
    (timeoutMs : Z) (sinceArg : option string) :
  JS.TIMEOUT_MAX < timeoutMs ->
  catchUp client roomIdArg (fst (parseSince sinceArg g)) (snd (parseSince sinceArg g))
    = Some [] ->
  waitForMessagesHandler g (Some client) roomIdArg timeoutMs sinceArg
    [(1%N, TimeoutExpiry)]
  = (Returned (emptyResult true sinceArg), g).
Proof.
  intros Hbig Hscan. unfold waitForMessagesHandler, gathered.
  rewrite (gather_live _ _ _ _ _ _ Hscan).
  assert (Hd : JS.timerDelay (Z.max timeoutMs 1000) = 1).
  { unfold JS.timerDelay, JS.TIMEOUT_MAX in *.
    destruct (Z.leb_spec (Z.max timeoutMs 1000) 2147483647); [lia|].
    now rewrite andb_false_r. }
  unfold listenerAfter, startListener. cbn [runLoop dispatch timeoutHandle].
  rewrite Hd. reflexivity.
Qed.

Lemma oversized_timeout_expires_at_once_witness :
  JS.TIMEOUT_MAX < 3000000000
  /\ catchUp quietClient None (fst (parseSince None initialCursor))
             (snd (parseSince None initialCursor)) = Some []
  /\ waitForMessagesHandler initialCursor (Some quietClient) None 3000000000 None
       [(1%N, TimeoutExpiry)]
     = (Returned (emptyResult true None), initialCursor).
Proof.
  split; [reflexivity|]. split; [reflexivity|].
  apply (oversized_timeout_expires_at_once initialCursor quietClient None 3000000000 None);
    reflexivity.
Defined.

(** ** Start-up check *)

Lemma missing_nil_iff (env : string -> option string) :
  Startup.missing env = []
  <-> forall key, In key Startup.required -> exists v, env key = Some v /\ v <> "".
Proof.
  unfold Startup.missing. split.
  - intros H key Hk.
    destruct (JS.truthy (env key)) eqn:E.
    + destruct (env key) as [v|]; [|discriminate]. exists v. split; [reflexivity|].
      intros ->. discriminate.
    + assert (Hin : In key (filter (fun k => negb (JS.truthy (env k))) Startup.required)).
      { apply filter_In. split; [exact Hk | now rewrite E]. }
      rewrite H in Hin. contradiction.
  - intros H.
    destruct (filter _ Startup.required) as [|k ks] eqn:E; [reflexivity|].
    assert (Hin : In k (filter (fun k => negb (JS.truthy (env k))) Startup.required))
      by (rewrite E; now left).
    apply filter_In in Hin. destruct Hin as [Hk Hf].
    destruct (H k Hk) as [v [Hv Hne]]. rewrite Hv in Hf.
    destruct v; [congruence | discriminate].
Qed.

(** X12.  The server goes on to start exactly when each of the three
    required variables is set to a non-empty string; a variable set to the
    empty string counts as missing.  Otherwise the process exits with
    code 1 after naming, in the order of the list, the variables that are
    unset or empty. *)
Theorem startup_requires_nonempty_variables (env : string -> option string) :
  (Startup.check env = Startup.Proceed
   <-> forall key, In key Startup.required -> exists v, env key = Some v /\ v <> "")
  /\ (Startup.check env <> Startup.Proceed ->
      Startup.check env
      = Startup.Exit 1
          [ "Missing required environment variables: "
            ++ Startup.join ", " (Startup.missing env);
            "Set them in your environment or in a .env file." ]
      /\ forall key, In key (Startup.missing env)
                     <-> In key Startup.required
                         /\ (env key = None \/ env key = Some "")).
Proof.
  split.
  - rewrite <- missing_nil_iff. unfold Startup.check.
    destruct (Startup.missing env); simpl; split; congruence.
  - unfold Startup.check.
    destruct (0 <? List.length (Startup.missing env))%nat; [|congruence].
    intros _. split; [reflexivity|].
    intros key. unfold Startup.missing. rewrite filter_In.
    split; intros [Hk H]; split; try exact Hk.
    + destruct (env key) as [[|c v]|]; auto. discriminate.
    + destruct H as [-> | ->]; reflexivity.
Qed.

Lemma startup_requires_nonempty_variables_witness :
  Startup.check incompleteEnv <> Startup.Proceed
  /\ Startup.check incompleteEnv
     = Startup.Exit 1
         [ "Missing required environment variables: MATRIX_USER_ID, MATRIX_ACCESS_TOKEN";
           "Set them in your environment or in a .env file." ]
  /\ forall key, In key (Startup.missing incompleteEnv)
                 <-> In key Startup.required
                     /\ (incompleteEnv key = None \/ incompleteEnv key = Some "").
Proof.
  split; [discriminate|].
  apply (proj2 (startup_requires_nonempty_variables incompleteEnv)).
  discriminate.
Defined.

(** ** Stable sorting *)

Section SortBy.

Variable A : Type.
Variable leb : A -> A -> bool.
Hypothesis leb_total : forall a b, leb a b = true \/ leb b a = true.
Hypothesis leb_trans : forall a b c, leb a b = true -> leb b c = true -> leb a c = true.

Lemma insertBy_perm (x : A) (l : list A) :
  Permutation (Stats.insertBy leb x l) (x :: l).
Proof.
  induction l as [|y l IH]; simpl; [reflexivity|].
  destruct (leb x y); [reflexivity|].
  rewrite IH. apply perm_swap.
Qed.

Lemma sortBy_perm (l : list A) : Permutation (Stats.sortBy leb l) l.
Proof.
  induction l as [|x l IH]; simpl; [reflexivity|].
  rewrite insertBy_perm. now constructor.
Qed.

Lemma insertBy_sorted (x : A) (l : list A) :
  StronglySorted (fun a b => leb a b = true) l ->
  StronglySorted (fun a b => leb a b = true) (Stats.insertBy leb x l).
Proof.
  induction 1 as [|y l Hl IH Hy]; simpl; [repeat constructor|].
  destruct (leb x y) eqn:E.
  - constructor; [now constructor|].
    constructor; [exact E|].
    eapply Forall_impl; [|exact Hy]. intros b Hb. now apply (leb_trans x y b).
  - constructor; [exact IH|].
    eapply Permutation_Forall; [symmetry; apply insertBy_perm|].
    constructor; [|exact Hy].
    destruct (leb_total x y) as [H|H]; [congruence | exact H].
Qed.

Lemma sortBy_sorted (l : list A) :
  StronglySorted (fun a b => leb a b = true) (Stats.sortBy leb l).
Proof.
  induction l as [|x l IH]; simpl; [constructor | now apply insertBy_sorted].
Qed.

End SortBy.

Lemma StronglySorted_app_inv {A : Type} (R : A -> A -> Prop) (a b : list A) :
  StronglySorted R (a ++ b) ->
  StronglySorted R a /\ forall x y, In x a -> In y b -> R x y.
Proof.
  induction a as [|h a IH]; simpl; intros H.
  - split; [constructor | intros x y []].
  - apply StronglySorted_inv in H. destruct H as [Hs Hh].
    destruct (IH Hs) as [Ha Hab]. split.
    + constructor; [exact Ha|]. apply Forall_app in Hh. apply Hh.
    + intros x y [<-|Hx] Hy; [|now apply Hab].
      rewrite Forall_forall in Hh. apply Hh, in_or_app. now right.
Qed.

Lemma filter_partition_perm {A : Type} (f : A -> bool) (l : list A) :
  Permutation (filter f l ++ filter (fun x => negb (f x)) l) l.
Proof.
  induction l as [|x l IH]; simpl; [reflexivity|].
  destruct (f x); simpl.
  - now constructor.
  - rewrite <- Permutation_middle. now constructor.
Qed.

Lemma StronglySorted_impl_rel {A : Type} (R Q : A -> A -> Prop) (l : list A) :
  (forall a b, R a b -> Q a b) -> StronglySorted R l -> StronglySorted Q l.
Proof.
  intros H. induction 1 as [|x l Hl IH Hx]; constructor; [exact IH|].
  eapply Forall_impl; [|exact Hx]. intros b. apply H.
Qed.

(** ** The tally *)

Lemma bump_lookup (s u : string) (t : Stats.tally) :
  Stats.lookup u (Stats.bump s t)
  = Stats.lookup u t + (if String.eqb s u then 1 else 0).
Proof.
  induction t as [|[k n] t IH]; simpl; [destruct (String.eqb s u); reflexivity|].
  destruct (String.eqb_spec k s) as [->|Hks]; simpl.
  - destruct (String.eqb s u); lia.
  - destruct (String.eqb_spec k u) as [->|Hku]; [|exact IH].
    destruct (String.eqb_spec s u); [congruence | lia].
Qed.

Lemma bump_keys (s : string) (t : Stats.tally) :
  (In s (map fst t) /\ map fst (Stats.bump s t) = map fst t)
  \/ (~ In s (map fst t) /\ map fst (Stats.bump s t) = (map fst t ++ [s])%list).
Proof.
  induction t as [|[k n] t IH]; simpl; [right; split; [tauto | reflexivity]|].
  destruct (String.eqb_spec k s) as [->|Hks]; simpl.
  - left. split; [now left | reflexivity].
  - destruct IH as [[Hin ->]|[Hnin ->]].
    + left. split; [now right | reflexivity].
    + right. split; [intros [H|H]; [congruence | contradiction] | reflexivity].
Qed.

Lemma bump_NoDup (s : string) (t : Stats.tally) :
  NoDup (map fst t) -> NoDup (map fst (Stats.bump s t)).
Proof.
  intros H. destruct (bump_keys s t) as [[_ ->]|[Hnin ->]]; [exact H|].
  apply NoDup_app; [exact H | repeat constructor; intros [] |].
  intros x Hx [<-|[]]. contradiction.
Qed.

Lemma bump_positive (s : string) (t : Stats.tally) :
  Forall (fun p => 1 <= snd p) t -> Forall (fun p => 1 <= snd p) (Stats.bump s t).
Proof.
  induction 1 as [|[k n] t Hp Ht IH]; simpl; [repeat constructor; simpl; lia|].
  destruct (String.eqb k s); constructor; simpl in *; auto; lia.
Qed.

Lemma messagesBy_cons (u : string) (e : MatrixEvent) (events : list MatrixEvent) :
  Stats.messagesBy u (e :: events)
  = (match Stats.counted e with
     | Some s => if String.eqb s u then 1 else 0
     | None => 0
     end) + Stats.messagesBy u events.
Proof.
  unfold Stats.messagesBy. cbn [filter].
  destruct (Stats.counted e) as [s|]; [|lia].
  destruct (String.eqb s u); cbn [List.length]; lia.
Qed.

Lemma messagesBy_nonneg (u : string) (events : list MatrixEvent) :
  0 <= Stats.messagesBy u events.
Proof. unfold Stats.messagesBy. lia. Qed.

Lemma tally_fold (events : list MatrixEvent) :
  forall t : Stats.tally,
    NoDup (map fst t) -> Forall (fun p => 1 <= snd p) t ->
    NoDup (map fst (fold_left tallyStep events t))
    /\ Forall (fun p => 1 <= snd p) (fold_left tallyStep events t)
    /\ forall u, Stats.lookup u (fold_left tallyStep events t)
                 = Stats.lookup u t + Stats.messagesBy u events.
Proof.
  induction events as [|e events IH]; simpl; intros t Hn Hp.
  - split; [exact Hn|]. split; [exact Hp|]. intros u. unfold Stats.messagesBy. simpl. lia.
  - assert (Hn' : NoDup (map fst (tallyStep t e)))
      by (unfold tallyStep; destruct (Stats.counted e); [now apply bump_NoDup | exact Hn]).
    assert (Hp' : Forall (fun p => 1 <= snd p) (tallyStep t e))
      by (unfold tallyStep; destruct (Stats.counted e); [now apply bump_positive | exact Hp]).
    destruct (IH _ Hn' Hp') as [H1 [H2 H3]].
    split; [exact H1|]. split; [exact H2|].
    intros u. rewrite H3, messagesBy_cons. unfold tallyStep.
    destruct (Stats.counted e) as [s|]; [rewrite bump_lookup|]; lia.
Qed.

Lemma tallyOf_fold (events : list MatrixEvent) :
  Stats.tallyOf events = fold_left tallyStep events [].
Proof. reflexivity. Qed.

Lemma lookup_In (t : Stats.tally) (k : string) (n : Z) :
  NoDup (map fst t) -> In (k, n) t -> Stats.lookup k t = n.
Proof.
  induction t as [|[k' n'] t IH]; simpl; [tauto|].
  intros Hn [H|H].
  - injection H as -> ->. now rewrite String.eqb_refl.
  - inversion Hn as [|? ? Hnin Hn']; subst.
    destruct (String.eqb_spec k' k) as [->|_]; [|now apply IH].
    exfalso. apply Hnin. change k with (fst (k, n)). now apply in_map.
Qed.

Lemma In_lookup (t : Stats.tally) (u : string) :
  Stats.lookup u t <> 0 -> In (u, Stats.lookup u t) t.
Proof.
  induction t as [|[k n] t IH]; simpl; [congruence|].
  destruct (String.eqb_spec k u) as [->|_]; [now left | intros H; right; now apply IH].
Qed.

(** The tally has one entry for every sender with a counted event, and
    the entry holds the number of those events. *)
Lemma tallyOf_spec (events : list MatrixEvent) :
  NoDup (map fst (Stats.tallyOf events))
  /\ forall u n, In (u, n) (Stats.tallyOf events)
                 <-> n = Stats.messagesBy u events /\ 1 <= n.
Proof.
  destruct (tally_fold events [] (NoDup_nil _) (Forall_nil _)) as [Hn [Hp Hl]].
  rewrite <- tallyOf_fold in *. split; [exact Hn|].
  intros u n. split.
  - intros Hin. split.
    + rewrite <- (lookup_In _ _ _ Hn Hin), Hl. simpl. lia.
    + rewrite Forall_forall in Hp. apply (Hp _ Hin).
  - intros [-> H1]. specialize (Hl u). simpl in Hl.
    rewrite <- Hl. apply In_lookup. lia.
Qed.

Lemma tallyOf_keys (events : list MatrixEvent) (u : string) :
  In u (map fst (Stats.tallyOf events)) <-> 1 <= Stats.messagesBy u events.
Proof.
  destruct (tallyOf_spec events) as [_ H]. split.
  - intros Hin. apply in_map_iff in Hin. destruct Hin as [[k n] [<- Hin]].
    apply H in Hin. simpl. lia.
  - intros H1. apply in_map_iff. exists (u, Stats.messagesBy u events).
    split; [reflexivity|]. apply H. split; [reflexivity | exact H1].
Qed.

Lemma entries_perm (t : Stats.tally) : Permutation (Stats.entries t) t.
Proof.
  unfold Stats.entries. rewrite sortBy_perm. apply filter_partition_perm.
Qed.

Lemma slice0_firstn {A : Type} (limit : Z) (l : list A) :
  exists k, Stats.slice0 limit l = firstn k l.
Proof. unfold Stats.slice0. destruct (limit <? 0); eexists; reflexivity. Qed.

Lemma NoDup_firstn {A : Type} (k : nat) (l : list A) : NoDup l -> NoDup (firstn k l).
Proof.
  intros H. rewrite <- (firstn_skipn k l) in H. now apply NoDup_app_remove_r in H.
Qed.

(** What [countMessagesByUser] returns when it returns: a prefix of the
    sorted entries of the tally. *)
Lemma countMessagesByUser_some (events : list MatrixEvent) (limit : option Z)
    (r : list Stats.userCount) :
  Stats.countMessagesByUser events limit = Some r ->
  let sorted := Stats.sortBy (fun a b => snd b <=? snd a)
                             (Stats.entries (Stats.tallyOf events)) in
  map pairOf r = Stats.slice0 (effectiveLimit limit) sorted
  /\ exists k, (map pairOf r ++ skipn k sorted)%list = sorted
               /\ map pairOf r = firstn k sorted.
Proof.
  unfold Stats.countMessagesByUser. destruct (existsb _ events); [discriminate|].
  intros [= <-]. cbv zeta. fold (effectiveLimit limit).
  assert (Hm : forall l : list (string * Z),
             map pairOf (map (fun p => Stats.mkUserCount (fst p) (snd p)) l) = l).
  { intros l. rewrite map_map. rewrite <- (map_id l) at 2.
    apply map_ext. now intros [u c]. }
  rewrite Hm. split; [reflexivity|].
  destruct (slice0_firstn (effectiveLimit limit)
              (Stats.sortBy (fun a b => snd b <=? snd a)
                            (Stats.entries (Stats.tallyOf events)))) as [k Hk].
  exists k. rewrite Hk. split; [apply firstn_skipn | reflexivity].
Qed.

Lemma sorted_entries_perm (events : list MatrixEvent) :
  Permutation (Stats.sortBy (fun a b => snd b <=? snd a)
                            (Stats.entries (Stats.tallyOf events)))
              (Stats.tallyOf events).
Proof. rewrite sortBy_perm. apply entries_perm. Qed.

Lemma sorted_entries_sorted (events : list MatrixEvent) :
  StronglySorted (fun a b : string * Z => snd b <= snd a)
    (Stats.sortBy (fun a b => snd b <=? snd a) (Stats.entries (Stats.tallyOf events))).
Proof.
  eapply StronglySorted_impl_rel;
    [|apply (sortBy_sorted _ (fun a b : string * Z => snd b <=? snd a))].
  - intros a b H. now apply Z.leb_le.
  - intros a b. destruct (Z.leb_spec (snd b) (snd a)); [now left|].
    right. apply Z.leb_le. lia.
  - intros a b c H1 H2. apply Z.leb_le in H1, H2. apply Z.leb_le. lia.
Qed.

Lemma StronglySorted_map_inv {A B : Type} (f : A -> B) (R : B -> B -> Prop) (l : list A) :
  StronglySorted R (map f l) -> StronglySorted (fun a b => R (f a) (f b)) l.
Proof.
  induction l as [|x l IH]; simpl; intros H; [constructor|].
  apply StronglySorted_inv in H. destruct H as [Hs Hx].
  constructor; [now apply IH|]. rewrite Forall_map in Hx. exact Hx.
Qed.

(** ** Message statistics *)

(** X13.  Every entry [countMessagesByUser] returns carries the exact
    number of [m.room.message] events of its user among the events given
    (at least one), and no user is listed twice. *)
Theorem user_counts_are_exact (events : list MatrixEvent) (limit : option Z)
    (r : list Stats.userCount) :
  Stats.countMessagesByUser events limit = Some r ->
  NoDup (map Stats.userId r)
  /\ Forall (fun uc => Stats.count uc = Stats.messagesBy (Stats.userId uc) events
                       /\ 1 <= Stats.count uc) r.
Proof.
  intros H. destruct (countMessagesByUser_some _ _ _ H) as [_ [k [Happ Hk]]].
  destruct (tallyOf_spec events) as [Hn Hspec].
  split.
  - replace (map Stats.userId r) with (map fst (map pairOf r))
      by (rewrite map_map; reflexivity).
    rewrite Hk, <- firstn_map. apply NoDup_firstn.
    eapply Permutation_NoDup; [|exact Hn].
    apply Permutation_map. symmetry. apply sorted_entries_perm.
  - apply Forall_forall. intros uc Huc.
    assert (Hin : In (pairOf uc) (Stats.tallyOf events)).
    { eapply Permutation_in; [apply sorted_entries_perm|].
      rewrite <- Happ. apply in_or_app. left. now apply in_map. }
    apply Hspec in Hin. exact Hin.
Qed.

Lemma user_counts_are_exact_witness :
  Stats.countMessagesByUser statsSample (Some 4) = Some statsResult
  /\ NoDup (map Stats.userId statsResult)
  /\ Forall (fun uc => Stats.count uc = Stats.messagesBy (Stats.userId uc) statsSample
                       /\ 1 <= Stats.count uc) statsResult.
Proof.
  split; [reflexivity|].
  apply (user_counts_are_exact statsSample (Some 4) statsResult). reflexivity.
Defined.

(** X14.  The entries come most active first, and whoever is cut off is
    no more active than anyone listed: a user with a counted message is
    either in the result or has at most the count of every entry of the
    result. *)
Theorem most_active_users_come_first (events : list MatrixEvent) (limit : option Z)
    (r : list Stats.userCount) :
  Stats.countMessagesByUser events limit = Some r ->
  StronglySorted (fun a b => Stats.count b <= Stats.count a) r
  /\ forall u, 1 <= Stats.messagesBy u events ->
               In u (map Stats.userId r)
               \/ Forall (fun uc => Stats.messagesBy u events <= Stats.count uc) r.
Proof.
  intros H. destruct (countMessagesByUser_some _ _ _ H) as [_ [k [Happ _]]].
  pose proof (sorted_entries_sorted events) as Hs. rewrite <- Happ in Hs.
  apply StronglySorted_app_inv in Hs. destruct Hs as [Hr Hcross].
  split; [now apply StronglySorted_map_inv in Hr|].
  intros u Hu.
  assert (Hin : In (u, Stats.messagesBy u events) (Stats.tallyOf events))
    by (apply tallyOf_spec; split; [reflexivity | exact Hu]).
  eapply Permutation_in in Hin; [|symmetry; apply sorted_entries_perm].
  rewrite <- Happ in Hin. apply in_app_or in Hin. destruct Hin as [Hin|Hin].
  - left. apply in_map_iff in Hin. destruct Hin as [uc [Heq Huc]].
    apply in_map_iff. exists uc. split; [|exact Huc].
    unfold pairOf in Heq. congruence.
  - right. apply Forall_forall. intros uc Huc.
    apply (Hcross (pairOf uc) _ (in_map pairOf _ _ Huc) Hin).
Qed.

Lemma most_active_users_come_first_witness :
  Stats.countMessagesByUser statsSample (Some 4) = Some statsResult
  /\ StronglySorted (fun a b => Stats.count b <= Stats.count a) statsResult
  /\ forall u, 1 <= Stats.messagesBy u statsSample ->
               In u (map Stats.userId statsResult)
               \/ Forall (fun uc => Stats.messagesBy u statsSample <= Stats.count uc)
                         statsResult.
Proof.
  split; [reflexivity|].
  apply (most_active_users_come_first statsSample (Some 4) statsResult). reflexivity.
Defined.

(** X15.  With [d] distinct users having a counted message, a limit of
    0 or more (10 when omitted) yields [min(limit, d)] entries, and a
    negative limit yields [d + limit] entries, none if that is negative:
    it cuts the least active users off the end instead of limiting the
    list. *)
Theorem number_of_entries (events : list MatrixEvent) (limit : option Z)
    (r : list Stats.userCount) :
  Stats.countMessagesByUser events limit = Some r ->
  exists senders,
    NoDup senders
    /\ (forall u, In u senders <-> 1 <= Stats.messagesBy u events)
    /\ List.length r
       = if effectiveLimit limit <? 0
         then Z.to_nat (Z.of_nat (List.length senders) + effectiveLimit limit)
         else Nat.min (Z.to_nat (effectiveLimit limit)) (List.length senders).
Proof.
  intros H. destruct (countMessagesByUser_some _ _ _ H) as [Hs _].
  exists (map fst (Stats.tallyOf events)).
  split; [apply tallyOf_spec|]. split; [apply tallyOf_keys|].
  rewrite <- (length_map pairOf r), Hs, length_map.
  rewrite <- (Permutation_length (sorted_entries_perm events)).
  unfold Stats.slice0.
  destruct (Z.ltb_spec (effectiveLimit limit) 0); rewrite length_firstn; lia.
Qed.

Lemma number_of_entries_witness :
  Stats.countMessagesByUser statsSample (Some (-2))
  = Some (firstn 4 statsResult)
  /\ exists senders,
       NoDup senders
       /\ (forall u, In u senders <-> 1 <= Stats.messagesBy u statsSample)
       /\ List.length (firstn 4 statsResult)
          = if effectiveLimit (Some (-2)) <? 0
            then Z.to_nat (Z.of_nat (List.length senders) + effectiveLimit (Some (-2)))
            else Nat.min (Z.to_nat (effectiveLimit (Some (-2)))) (List.length senders).
Proof.
  split; [reflexivity|].
  apply (number_of_entries statsSample (Some (-2)) (firstn 4 statsResult)). reflexivity.
Defined.

Lemma tally_fold_filter (events : list MatrixEvent) :
  forall t, fold_left tallyStep (filter isCounted events) t = fold_left tallyStep events t.
Proof.
  induction events as [|e events IH]; simpl; intros t; [reflexivity|].
  unfold isCounted at 1. unfold tallyStep at 3.
  destruct (Stats.counted e) as [s|] eqn:E; simpl; [|apply IH].
  rewrite IH. unfold tallyStep at 2. now rewrite E.
Qed.

(** X16.  Events that are not [m.room.message], or that have no sender
    or an empty one, have no influence on the statistics: dropping them
    from the input leaves the result as it is. *)
Theorem uncounted_events_do_not_matter (events : list MatrixEvent) (limit : option Z) :
  Stats.countMessagesByUser (filter isCounted events) limit
  = Stats.countMessagesByUser events limit.
Proof.
  unfold Stats.countMessagesByUser.
  rewrite !tallyOf_fold, tally_fold_filter.
  replace (existsb _ (filter isCounted events))
    with (existsb (fun event => match Stats.counted event with
                                | Some s => Stats.inherited s
                                | None => false
                                end) events); [reflexivity|].
  induction events as [|e events IH]; simpl; [reflexivity|].
  unfold isCounted at 1. destruct (Stats.counted e) eqn:E; simpl; rewrite ?E, IH; reflexivity.
Qed.

(** ** Message processing *)

Lemma toISOString_none_iff (t : Z) : JS.toISOString t = None <-> JS.valid_time t = false.
Proof.
  unfold JS.toISOString. destruct (JS.valid_time t).
  - destruct (JS.civil_from_days (t / JS.msPerDay)) as [[y m] d]. split; discriminate.
  - split; reflexivity.
Qed.

Lemma processMessage_throws_aux
    (event : Processor.Event) (net : Processor.Network) :
  Processor.processMessage event (Some net) = Processor.Threw
  <-> getType (Processor.header event) = RoomMessage
      /\ Processor.msgtype (Processor.content event) = Some "m.text"
      /\ (JS.valid_time (getTs (Processor.header event)) = false
          \/ bodyConverts (Processor.header event) = false).
Proof.
  unfold Processor.processMessage, bodyConverts.
  destruct (String.eqb_spec (getType (Processor.header event)) RoomMessage) as [Ht|Ht].
  - destruct (JS.strict_eq (Processor.msgtype (Processor.content event)) (Some "m.text"))
      eqn:Em.
    + apply strict_eq_true in Em.
      destruct (JS.toISOString (getTs (Processor.header event))) as [iso|] eqn:Ei.
      * assert (Hv : JS.valid_time (getTs (Processor.header event)) = true).
        { destruct (JS.valid_time _) eqn:E; [reflexivity|].
          apply toISOString_none_iff in E. congruence. }
        destruct (JS.string_or_empty (getBody (Processor.header event))).
        -- split; [discriminate|]. intros [_ [_ [H|H]]]; congruence.
        -- split; [auto|reflexivity].
      * split; [|reflexivity]. intros _. apply toISOString_none_iff in Ei. auto.
    + apply strict_eq_false in Em.
      split; [|intros [_ [Hm _]]; contradiction].
      destruct (_ && _); [destruct (Processor.download _ _);
        [destruct (JS.string_or_default _ _)|]|]; discriminate.
  - split; [discriminate | intros [H _]; contradiction].
Qed.

(** X17.  With a client, [processMessage] throws in exactly two cases,
    both for a [m.room.message] event of message type [m.text]: its
    timestamp is not a valid [Date] time value, or its [body] cannot be
    converted to a string.  Every other event yields a message or
    [null]; a failed image download yields [null]. *)
Theorem processMessage_throws_only_on_bad_text_fields
    (event : Processor.Event) (net : Processor.Network) :
  Processor.processMessage event (Some net) = Processor.Threw
  <-> getType (Processor.header event) = RoomMessage
      /\ Processor.msgtype (Processor.content event) = Some "m.text"
      /\ (JS.valid_time (getTs (Processor.header event)) = false
          \/ bodyConverts (Processor.header event) = false).
Proof. apply processMessage_throws_aux. Qed.

Lemma all_ok (net : Processor.Network) (events : list Processor.Event) :
  Forall (fun e => Processor.processMessage e (Some net) <> Processor.Threw) events ->
  exists ms,
    Processor.all (Some net) events = Processor.Ok ms
    /\ Forall2 (fun e m => Processor.processMessage e (Some net) = Processor.Ok m)
               events ms.
Proof.
  induction 1 as [|e events He _ [ms [IH1 IH2]]]; cbn [Processor.all].
  - exists []. split; [reflexivity | constructor].
  - destruct (Processor.processMessage e (Some net)) as [m|] eqn:E; [|congruence].
    rewrite IH1. exists (m :: ms). split; [reflexivity | now constructor].
Qed.

Lemma all_threw (net : Processor.Network) (events : list Processor.Event)
    (e : Processor.Event) :
  In e events -> Processor.processMessage e (Some net) = Processor.Threw ->
  Processor.all (Some net) events = Processor.Threw.
Proof.
  intros Hin He. induction events as [|x events IH]; [contradiction|].
  cbn [Processor.all]. destruct Hin as [->|Hin].
  - now rewrite He.
  - rewrite (IH Hin). now destruct (Processor.processMessage x (Some net)).
Qed.

Lemma inRange_valid (start finish : option Z) (e : Processor.Event) :
  Processor.dateTime start -> Processor.dateTime finish ->
  Processor.inRange start finish e = true ->
  JS.valid_time (getTs (Processor.header e)) = true.
Proof.
  unfold Processor.inRange, Processor.dateTime, JS.valid_time.
  destruct start as [s|], finish as [f|]; try discriminate.
  intros Hs Hf Hr.
  apply andb_true_iff in Hs, Hf, Hr.
  destruct Hs as [Hs _], Hf as [_ Hf], Hr as [H1 H2].
  apply Z.leb_le in Hs, Hf, H1, H2.
  apply andb_true_iff. split; apply Z.leb_le; lia.
Qed.

(** X18.  With a client, [processMessagesByDate] rejects in one case
    only: an event between the bounds is a [m.room.message] of message
    type [m.text] whose [body] cannot be converted to a string.  A date
    never makes it reject: the bounds are [NaN] or valid time values, so
    every event it keeps can be rendered.  When no such event is there it
    returns, and each message it returns is what [processMessage] yields
    for an event of the input whose timestamp lies between the bounds,
    both included. *)
Theorem processMessagesByDate_rejects_only_on_bad_body
    (events : list Processor.Event) (start finish : option Z)
    (net : Processor.Network) :
  Processor.dateTime start -> Processor.dateTime finish ->
  let unprintableText e :=
    In e events
    /\ Processor.inRange start finish e = true
    /\ getType (Processor.header e) = RoomMessage
    /\ Processor.msgtype (Processor.content e) = Some "m.text"
    /\ bodyConverts (Processor.header e) = false in
  ((exists e, unprintableText e) ->
   Processor.processMessagesByDate events start finish (Some net) = Processor.Threw)
  /\ (~ (exists e, unprintableText e) ->
      exists out,
        Processor.processMessagesByDate events start finish (Some net) = Processor.Ok out
        /\ Forall (fun m =>
                     exists e s f,
                       In e events
                       /\ start = Some s /\ finish = Some f
                       /\ s <= getTs (Processor.header e) <= f
                       /\ Processor.processMessage e (Some net) = Processor.Ok (Some m))
                  out).
Proof.
  intros Hs Hf unprintableText. unfold Processor.processMessagesByDate. split.
  - intros [e [Hin [Hr [Ht [Hm Hb]]]]].
    rewrite (all_threw net _ e); [reflexivity | |].
    + apply filter_In. now split.
    + apply processMessage_throws_aux. auto.
  - intros Hnone.
    assert (Hv : Forall (fun e => Processor.processMessage e (Some net) <> Processor.Threw)
                        (filter (Processor.inRange start finish) events)).
    { apply Forall_forall. intros e He. apply filter_In in He.
      destruct He as [Hin Hr]. intros Hthrew.
      apply processMessage_throws_aux in Hthrew.
      destruct Hthrew as [Ht [Hm [Hbad|Hbad]]].
      - pose proof (inRange_valid start finish e Hs Hf Hr). congruence.
      - apply Hnone. exists e. unfold unprintableText. auto. }
    destruct (all_ok net _ Hv) as [ms [-> Hms]].
    exists (Processor.nonNull ms). split; [reflexivity|].
    assert (Hin : Forall (fun e => In e events
                                   /\ Processor.inRange start finish e = true)
                         (filter (Processor.inRange start finish) events))
      by (apply Forall_forall; intros e He; now apply filter_In in He).
    clear Hv Hnone unprintableText.
    induction Hms as [|e m es ms Hem _ IH]; simpl; [constructor|].
    inversion Hin as [|? ? [He Hr] Hin']; subst.
    destruct m as [m|]; [constructor|]; try now apply IH.
    unfold Processor.inRange in Hr.
    destruct start as [s|], finish as [f|]; try discriminate.
    apply andb_true_iff in Hr. destruct Hr as [H1 H2]. apply Z.leb_le in H1, H2.
    exists e, s, f. auto 10.
Qed.

Lemma processMessagesByDate_rejects_only_on_bad_body_witness :
  Processor.dateTime (Some 0) /\ Processor.dateTime (Some 5000)
  /\ let unprintableText e :=
       In e processorSample
       /\ Processor.inRange (Some 0) (Some 5000) e = true
       /\ getType (Processor.header e) = RoomMessage
       /\ Processor.msgtype (Processor.content e) = Some "m.text"
       /\ bodyConverts (Processor.header e) = false in
     ((exists e, unprintableText e) ->
      Processor.processMessagesByDate processorSample (Some 0) (Some 5000)
        (Some processorNetwork) = Processor.Threw)
     /\ (~ (exists e, unprintableText e) ->
         exists out,
           Processor.processMessagesByDate processorSample (Some 0) (Some 5000)
             (Some processorNetwork) = Processor.Ok out
           /\ Forall (fun m =>
                        exists e s f,
                          In e processorSample
                          /\ Some 0 = Some s /\ Some 5000 = Some f
                          /\ s <= getTs (Processor.header e) <= f
                          /\ Processor.processMessage e (Some processorNetwork)
                             = Processor.Ok (Some m))
                     out).
Proof.
  split; [reflexivity|]. split; [reflexivity|].
  apply (processMessagesByDate_rejects_only_on_bad_body processorSample (Some 0)
           (Some 5000) processorNetwork); reflexivity.
Defined.

(** One text message with an unconvertible body among the events between
    the bounds makes the whole call reject, the other messages
    included. *)
Lemma processMessagesByDate_unprintable_body :
  Processor.processMessagesByDate processorSample (Some 0) (Some 5000)
    (Some processorNetwork)
  <> Processor.Threw
  /\ Processor.processMessagesByDate (processorSample ++ unprintableSample)
       (Some 0) (Some 5000) (Some processorNetwork)
     = Processor.Threw.
Proof. split; [discriminate | reflexivity]. Qed.

(** X19.  When a bound is [NaN], that is when a date string cannot be
    parsed, [processMessagesByDate] returns an empty list, whatever the
    events, and even without a client: no event is looked at and nothing
    is reported. *)
Theorem unparsable_date_gives_empty_list
    (events : list Processor.Event) (start finish : option Z)
    (matrixClient : option Processor.Network) :
  start = None \/ finish = None ->
  Processor.processMessagesByDate events start finish matrixClient = Processor.Ok [].
Proof.
  intros H. unfold Processor.processMessagesByDate.
  assert (Hf : filter (Processor.inRange start finish) events = []).
  { induction events as [|e events IH]; simpl; [reflexivity|].
    replace (Processor.inRange start finish e) with false; [exact IH|].
    unfold Processor.inRange. destruct H as [-> | ->]; [reflexivity|].
    now destruct start. }
  rewrite Hf. reflexivity.
Qed.

Lemma unparsable_date_gives_empty_list_witness :
  (@None Z = None \/ Some 5000 = @None Z)
  /\ Processor.processMessagesByDate processorSample None (Some 5000) None
     = Processor.Ok [].
Proof.
  split; [now left|].
  apply (unparsable_date_gives_empty_list processorSample None (Some 5000) None).
  now left.
Defined.
